(** * TenCoin CMS backend: products, orders and their invariants

    A shallow embedding of the product and order mutation code of the
    TenCoin CMS backend (Fastify + Zod + Prisma):

    - [services/productService.ts]  ([createProduct], [updateProduct],
      [deleteProduct]),
    - [services/orderService.ts]    ([createOrder], [updateOrder]),
    - [services/vendorService.ts]   ([VENDORS], [validateVendorIds]),
    - [routes/products.ts] and [routes/orders.ts] (the Zod schemas and the
      POST / PUT / DELETE handlers, which talk to Prisma directly and do
      not go through the services).

    Asynchronous code is written in a state-and-exception monad over the
    database: every Prisma call is one step on the store, [throw] aborts
    the rest of the function, and [transaction] restores the store when
    its body throws. *)

From Stdlib Require Import QArith.
From stdpp Require Import gmap strings list fin_maps pretty.

Local Open Scope string_scope.
Local Open Scope nat_scope.

(** ** Data model *)

(** [enum ProductStatus] of the Prisma client. *)
Inductive ProductStatus := ACTIVE | OUT_OF_STOCK | DISCONTINUED.

(** A row of the products table, without its key. Numbers are the
    finite ones, kept as rationals. A number that is not finite ([NaN],
    or the infinity that [JSON.parse] yields for a numeral beyond the
    range of a double) has no counterpart here: the store refuses such a
    value, and where a statement below speaks of a write that succeeds,
    it speaks of a request whose numbers are finite. [null] is [None].
    The timestamps are written by the store alone and no modelled
    function reads them; they are left out. *)
Record Product := mkProduct {
  name : string;
  barcode : string;
  costPrice : Q;
  sellPrice : Q;
  status : ProductStatus;
  isOrdered : bool;
  tags : list string;
  vendors : list string;
  note : option string;
  imagePath : option string;
}.

Record Order := mkOrder { o_note : option string }.

(** A row of the order items table. Rows are kept in insertion order.
    The column types belong to the Prisma schema, which is outside the
    code embedded here: a quantity is kept as the number that was sent,
    which is what a floating-point column does, and what an integer
    column does for a whole number. *)
Record OrderItem := mkOrderItem {
  orderId : string;
  productId : string;
  quantity : Q;
}.

(** The store behind the Prisma client: products and orders keyed by
    their id, the order items, and the number of ids handed out so far. *)
Record DB := mkDB {
  products : gmap string Product;
  orders : gmap string Order;
  orderItems : list OrderItem;
  nextId : nat;
}.

(** An order as returned with [include: { items: ... }]. *)
Record OrderWithItems := mkOrderWithItems {
  ord_id : string;
  ord_note : option string;
  ord_items : list OrderItem;
}.

(** ** Request types ([types/index.ts]); an optional field is an [option]
    whose [None] is [undefined]. *)

Record CreateProductRequest := mkCreateProductRequest {
  cp_name : string;
  cp_barcode : string;
  cp_costPrice : Q;
  cp_sellPrice : Q;
  cp_vendors : option (list string);
  cp_imagePath : option string;
  cp_tags : option (list string);
  cp_note : option string;
}.

Record UpdateProductRequest := mkUpdateProductRequest {
  up_name : option string;
  up_barcode : option string;
  up_costPrice : option Q;
  up_sellPrice : option Q;
  up_vendors : option (list string);
  up_imagePath : option string;
  up_status : option ProductStatus;
  up_isOrdered : option bool;
  up_tags : option (list string);
  up_note : option string;
}.

Record CreateOrderItemRequest := mkItem {
  ci_productId : string;
  ci_quantity : Q;
}.

Record CreateOrderRequest := mkCreateOrderRequest {
  co_items : list CreateOrderItemRequest;
  co_note : option string;
}.

Record UpdateOrderRequest := mkUpdateOrderRequest {
  uo_items : option (list CreateOrderItemRequest);
  uo_note : option string;
}.

(** The [data] object handed to [prisma.product.create]. Neither caller
    names [isOrdered]; the service does not name [status] either. *)
Record ProductCreateInput := mkProductCreateInput {
  pc_name : string;
  pc_barcode : string;
  pc_costPrice : Q;
  pc_sellPrice : Q;
  pc_vendors : list string;
  pc_imagePath : option string;
  pc_status : option ProductStatus;
  pc_tags : list string;
  pc_note : option string;
}.

(** Modelled from the spec: the column defaults of the products table,
    declared in [prisma/schema.prisma], which is outside the code
    embedded here.
    A product is created with [status] ACTIVE unless a status is given,
    and with [isOrdered] false. *)
Definition new_row (d : ProductCreateInput) : Product :=
  {| name := pc_name d;
     barcode := pc_barcode d;
     costPrice := pc_costPrice d;
     sellPrice := pc_sellPrice d;
     status := default ACTIVE (pc_status d);
     isOrdered := false;
     tags := pc_tags d;
     vendors := pc_vendors d;
     note := pc_note d;
     imagePath := pc_imagePath d |}.

(** The [data] object handed to [prisma.product.update]: a field that was
    never assigned is [None]; [imagePath] and [note] may be assigned
    [null], which is [Some None]. *)
Record ProductPatch := mkProductPatch {
  pp_name : option string;
  pp_barcode : option string;
  pp_costPrice : option Q;
  pp_sellPrice : option Q;
  pp_vendors : option (list string);
  pp_imagePath : option (option string);
  pp_status : option ProductStatus;
  pp_isOrdered : option bool;
  pp_tags : option (list string);
  pp_note : option (option string);
}.

Definition apply_patch (d : ProductPatch) (p : Product) : Product :=
  {| name := default (name p) (pp_name d);
     barcode := default (barcode p) (pp_barcode d);
     costPrice := default (costPrice p) (pp_costPrice d);
     sellPrice := default (sellPrice p) (pp_sellPrice d);
     status := default (status p) (pp_status d);
     isOrdered := default (isOrdered p) (pp_isOrdered d);
     tags := default (tags p) (pp_tags d);
     vendors := default (vendors p) (pp_vendors d);
     note := default (note p) (pp_note d);
     imagePath := default (imagePath p) (pp_imagePath d) |}.

Definition set_isOrdered (b : bool) (p : Product) : Product :=
  {| name := name p; barcode := barcode p; costPrice := costPrice p;
     sellPrice := sellPrice p; status := status p; isOrdered := b;
     tags := tags p; vendors := vendors p; note := note p;
     imagePath := imagePath p |}.

(** ** Errors *)

(** Errors raised by the Prisma client: a unique constraint failed
    (P2002), a foreign key constraint failed (P2003), a record the
    operation depends on was not found (P2025). *)
Inductive PrismaError := P2002 | P2003 | P2025.

(** What a function can throw: [new Error(msg)], a [ZodError] from
    [schema.parse], or a Prisma error. *)
Inductive Thrown :=
  | JsError (msg : string)
  | ZodError
  | PrismaErr (e : PrismaError).

(** The error kinds of the specification. *)
Inductive ErrorKind :=
  | ValidationError
  | ConflictError
  | NotFoundError
  | PersistenceError.

(** Modelled from the spec: the error taxonomy is not a type of the
    code, which throws plain [Error]s; the messages of the two services
    are classified as the specification names them (a missing vendor or
    product reference is a validation error, a barcode collision a
    conflict, an absent target not-found, anything the store raises a
    persistence error). *)
Definition thrown_kind (t : Thrown) : ErrorKind :=
  match t with
  | ZodError => ValidationError
  | PrismaErr _ => PersistenceError
  | JsError msg =>
      if decide (msg = "Some products not found") then ValidationError
      else if decide (msg = "Invalid vendor IDs") then ValidationError
      else if decide (msg = "Barcode already exists") then ConflictError
      else if decide (msg = "Product not found") then NotFoundError
      else if decide (msg = "Order not found") then NotFoundError
      else PersistenceError
  end.

(** ** The monad of asynchronous code over the store *)

Definition Async (A : Type) : Type := DB → DB * (Thrown + A).

Definition resolve {A} (a : A) : Async A := λ db, (db, inr a).

Definition throw {A} (e : Thrown) : Async A := λ db, (db, inl e).

Definition bind {A B} (m : Async A) (k : A → Async B) : Async B :=
  λ db,
    match m db with
    | (db', inr a) => k a db'
    | (db', inl e) => (db', inl e)
    end.

Notation "'await' x <- m ; k" := (bind m (λ x, k))
  (at level 10, x name, m at level 100, k at level 200,
   format "'[v' 'await'  x  <-  m ; '/' k ']'").

(** [prisma.$transaction(async tx => body)]: the writes of [body] are
    kept when it returns and undone when it throws. *)
Definition transaction {A} (body : Async A) : Async A :=
  λ db,
    match body db with
    | (db', inr a) => (db', inr a)
    | (_, inl e) => (db, inl e)
    end.

(** ** The persistence gateway: the Prisma client calls the code makes

    An order item belongs to one order and references one product (the
    code reads both relations, with [include: { product: true }] and
    [include: { orderItems: true }]); the store keeps them as foreign
    keys and refuses a row that references nothing. *)

(** [onDelete] of the relation from an order item to its product. *)
Inductive ReferentialAction := Restrict | Cascade.

Section Backend.

(** The generator of synthetic ids of the store ([@default(cuid())] or
    the like): the id given to the n-th created row. It is declared in
    [prisma/schema.prisma], which is outside the code embedded here. *)
Variable newId : nat → string.

(** The referential action of the schema for deleting a product that
    order items still reference; it is declared there too. *)
Variable onDeleteProduct : ReferentialAction.

Definition rows_with_barcode (b : string) (m : gmap string Product)
  : list (string * Product) :=
  filter (λ kv, barcode kv.2 = b) (map_to_list m).

(** The rows other than [id] that carry barcode [b]. *)
Definition other_rows_with_barcode (id b : string) (m : gmap string Product)
  : list (string * Product) :=
  filter (λ kv, kv.1 ≠ id) (rows_with_barcode b m).

(** [prisma.product.findUnique({ where: { id } })] *)
Definition product_findUnique_id (id : string) : Async (option Product) :=
  λ db, (db, inr (products db !! id)).

(** [prisma.product.findUnique({ where: { barcode } })] *)
Definition product_findUnique_barcode (b : string)
  : Async (option (string * Product)) :=
  λ db, (db, inr (head (rows_with_barcode b (products db)))).

(** The rows whose id is among [ids]: each row at most once, however
    often its id is listed. *)
Definition rows_with_id_in (ids : list string) (m : gmap string Product)
  : list (string * Product) :=
  filter (λ kv, kv.1 ∈ ids) (map_to_list m).

(** [prisma.product.findMany({ where: { id: { in: ids } } })] *)
Definition product_findMany_idIn (ids : list string)
  : Async (list (string * Product)) :=
  λ db, (db, inr (rows_with_id_in ids (products db))).

(** Modelled from the spec: the unique constraints of the products
    table, declared in [prisma/schema.prisma], which is outside the code
    embedded here. [prisma.product.create({ data })] gives the row a new id and
    the column defaults; the store enforces the primary key and the
    unique barcode (which [findUnique({ where: { barcode } })]
    presupposes) and rejects a write that breaks either with P2002. *)
Definition product_create (data : ProductCreateInput)
  : Async (string * Product) :=
  λ db,
    let id := newId (nextId db) in
    let p := new_row data in
    match products db !! id, rows_with_barcode (barcode p) (products db) with
    | None, [] =>
        (mkDB (<[id := p]> (products db)) (orders db) (orderItems db)
              (S (nextId db)),
         inr (id, p))
    | _, _ => (db, inl (PrismaErr P2002))
    end.

(** [prisma.product.update({ where: { id }, data })]: P2025 when the row
    is absent, P2002 when the new barcode belongs to another row. *)
Definition product_update (id : string) (data : ProductPatch)
  : Async (string * Product) :=
  λ db,
    match products db !! id with
    | None => (db, inl (PrismaErr P2025))
    | Some p =>
        let p' := apply_patch data p in
        match other_rows_with_barcode id (barcode p') (products db) with
        | [] =>
            (mkDB (<[id := p']> (products db)) (orders db) (orderItems db)
                  (nextId db),
             inr (id, p'))
        | _ :: _ => (db, inl (PrismaErr P2002))
        end
    end.

(** [prisma.product.updateMany({ where: { id: { in: ids } },
    data: { isOrdered: true } })]; returns the number of rows matched. *)
Definition product_updateMany_isOrdered (ids : list string) (b : bool)
  : Async nat :=
  λ db,
    (mkDB (map_imap (λ k p, Some (if bool_decide (k ∈ ids)
                                  then set_isOrdered b p else p))
                    (products db))
          (orders db) (orderItems db) (nextId db),
     inr (length (rows_with_id_in ids (products db)))).

Definition items_referencing (pid : string) (db : DB) : list OrderItem :=
  filter (λ it, productId it = pid) (orderItems db).

(** [prisma.product.delete({ where: { id } })]: P2025 when the row is
    absent; when order items reference it, the schema's referential
    action decides. *)
Definition product_delete (id : string) : Async unit :=
  λ db,
    match products db !! id with
    | None => (db, inl (PrismaErr P2025))
    | Some _ =>
        match items_referencing id db, onDeleteProduct with
        | _ :: _, Restrict => (db, inl (PrismaErr P2003))
        | _, _ =>
            (mkDB (delete id (products db)) (orders db)
                  (filter (λ it, productId it ≠ id) (orderItems db))
                  (nextId db),
             inr tt)
        end
    end.

(** [prisma.product.findUnique({ where: { id },
    include: { orderItems: true } })] *)
Definition product_findUnique_withItems (id : string)
  : Async (option (Product * list OrderItem)) :=
  λ db, (db, inr ((λ p, (p, items_referencing id db)) <$> products db !! id)).

Definition items_of (oid : string) (db : DB) : list OrderItem :=
  filter (λ it, orderId it = oid) (orderItems db).

Definition with_items (id : string) (o : Order) (db : DB) : OrderWithItems :=
  mkOrderWithItems id (o_note o) (items_of id db).

(** [prisma.order.findUnique({ where: { id }, include: { items } })] *)
Definition order_findUnique (id : string) : Async (option OrderWithItems) :=
  λ db, (db, inr ((λ o, with_items id o db) <$> orders db !! id)).

Definition item_rows (oid : string) (items : list CreateOrderItemRequest)
  : list OrderItem :=
  (λ item, mkOrderItem oid (ci_productId item) (ci_quantity item)) <$> items.

Definition products_exist (items : list CreateOrderItemRequest) (db : DB)
  : bool :=
  forallb (λ item, bool_decide (is_Some (products db !! ci_productId item)))
          items.

(** [prisma.order.create({ data: { note, items: { create: [...] } },
    include })]: one atomic nested write. An item whose product is absent
    makes the whole write fail, with [missing] (P2025 for
    [product: { connect: { id } }], P2003 for a bare [productId]). *)
Definition order_create (missing : PrismaError) (note : option string)
    (items : list CreateOrderItemRequest) : Async OrderWithItems :=
  λ db,
    let id := newId (nextId db) in
    match orders db !! id with
    | Some _ => (db, inl (PrismaErr P2002))
    | None =>
        if products_exist items db then
          let db' := mkDB (products db) (<[id := mkOrder note]> (orders db))
                          (orderItems db ++ item_rows id items)
                          (S (nextId db)) in
          (db', inr (with_items id (mkOrder note) db'))
        else (db, inl (PrismaErr missing))
    end.

(** [tx.orderItem.deleteMany({ where: { orderId } })] *)
Definition orderItem_deleteMany (oid : string) : Async nat :=
  λ db,
    (mkDB (products db) (orders db)
          (filter (λ it, orderId it ≠ oid) (orderItems db)) (nextId db),
     inr (length (items_of oid db))).

(** [tx.orderItem.createMany({ data: rows })]: every row must reference
    an existing order and an existing product. *)
Definition orderItem_createMany (oid : string)
    (items : list CreateOrderItemRequest) : Async nat :=
  λ db,
    match orders db !! oid with
    | None => (db, inl (PrismaErr P2003))
    | Some _ =>
        if products_exist items db then
          (mkDB (products db) (orders db)
                (orderItems db ++ item_rows oid items) (nextId db),
           inr (length items))
        else (db, inl (PrismaErr P2003))
    end.

(** [tx.order.update({ where: { id }, data: { note?, items?: { create } },
    include })]. [note] is [None] when [data] has no [note] key. *)
Definition order_update (id : string) (note : option (option string))
    (create : list CreateOrderItemRequest) : Async OrderWithItems :=
  λ db,
    match orders db !! id with
    | None => (db, inl (PrismaErr P2025))
    | Some o =>
        if products_exist create db then
          let o' := mkOrder (default (o_note o) note) in
          let db' := mkDB (products db) (<[id := o']> (orders db))
                          (orderItems db ++ item_rows id create)
                          (nextId db) in
          (db', inr (with_items id o' db'))
        else (db, inl (PrismaErr P2025))
    end.

(** ** [services/vendorService.ts] *)

(** The static vendor registry, id and display name. *)
Definition VENDORS : list (string * string) :=
  [("01", "久益"); ("02", "益發"); ("03", "華"); ("05", "長呈");
   ("08", "台利"); ("12", "博志"); ("15", "金禾"); ("17", "松果");
   ("20", "天母"); ("23", "承佑")].

(** [VendorService.validateVendorIds]: an empty list is not valid. *)
Definition validateVendorIds (vendorIds : list string) : bool :=
  if length vendorIds =? 0 then false
  else
    let validIds := fst <$> VENDORS in
    forallb (λ id, bool_decide (id ∈ validIds)) vendorIds.

(** ** JavaScript operators on optional strings *)

(** Truthiness of a string: every string but the empty one. *)
Definition truthy (s : string) : bool := negb (String.eqb s "").

(** [s || null] *)
Definition or_null (s : option string) : option string :=
  match s with
  | Some v => if truthy v then Some v else None
  | None => None
  end.

(** ** [services/productService.ts] *)

Definition getProductById (id : string) : Async (option Product) :=
  product_findUnique_id id.

Definition getProductByBarcode (b : string)
  : Async (option (string * Product)) :=
  product_findUnique_barcode b.

(** The vendor guard shared by [createProduct] and [updateProduct]:
    [if (data.vendors && data.vendors.length > 0) { ... }]. *)
Definition check_vendors (vs : option (list string)) : Async unit :=
  match vs with
  | Some ids =>
      if 0 <? length ids then
        if validateVendorIds ids then resolve tt
        else throw (JsError "Invalid vendor IDs")
      else resolve tt
  | None => resolve tt
  end.

(** [ProductService.createProduct] *)
Definition createProduct (data : CreateProductRequest)
  : Async (string * Product) :=
  await existingProduct <- getProductByBarcode (cp_barcode data);
  match existingProduct with
  | Some _ => throw (JsError "Barcode already exists")
  | None =>
      await _ <- check_vendors (cp_vendors data);
      product_create
        {| pc_name := cp_name data;
           pc_barcode := cp_barcode data;
           pc_costPrice := cp_costPrice data;
           pc_sellPrice := cp_sellPrice data;
           pc_vendors := default [] (cp_vendors data);
           pc_imagePath := or_null (cp_imagePath data);
           pc_tags := default [] (cp_tags data);
           pc_note := cp_note data;
           pc_status := None |}
  end.

(** The [updateData] object that [updateProduct] fills field by field. *)
Definition updateData_of (data : UpdateProductRequest) : ProductPatch :=
  {| pp_name := up_name data;
     pp_barcode := up_barcode data;
     pp_costPrice := up_costPrice data;
     pp_sellPrice := up_sellPrice data;
     pp_vendors := up_vendors data;
     pp_imagePath := Some <$> up_imagePath data;
     pp_status := up_status data;
     pp_isOrdered := up_isOrdered data;
     pp_tags := up_tags data;
     pp_note := Some <$> up_note data |}.

(** The barcode guard of [updateProduct]:
    [if (data.barcode && data.barcode !== existingProduct.barcode)]. *)
Definition check_barcode_change (b : option string) (existing : Product)
  : Async unit :=
  match b with
  | Some b' =>
      if truthy b' && negb (String.eqb b' (barcode existing)) then
        await barcodeExists <- getProductByBarcode b';
        match barcodeExists with
        | Some _ => throw (JsError "Barcode already exists")
        | None => resolve tt
        end
      else resolve tt
  | None => resolve tt
  end.

(** [ProductService.updateProduct] *)
Definition updateProduct (id : string) (data : UpdateProductRequest)
  : Async (string * Product) :=
  await existingProduct <- getProductById id;
  match existingProduct with
  | None => throw (JsError "Product not found")
  | Some existing =>
      await _ <- check_barcode_change (up_barcode data) existing;
      await _ <- check_vendors (up_vendors data);
      product_update id (updateData_of data)
  end.

(** [ProductService.deleteProduct] *)
Definition deleteProduct (id : string) : Async unit :=
  await existingProduct <- getProductById id;
  match existingProduct with
  | None => throw (JsError "Product not found")
  | Some _ => product_delete id
  end.

(** ** [services/orderService.ts] *)

Definition getOrderById (id : string) : Async (option OrderWithItems) :=
  order_findUnique id.

(** [OrderService.createOrder] *)
Definition createOrder (data : CreateOrderRequest) : Async OrderWithItems :=
  let productIds := ci_productId <$> co_items data in
  await found <- product_findMany_idIn productIds;
  if negb (length found =? length productIds) then
    throw (JsError "Some products not found")
  else order_create P2025 (co_note data) (co_items data).

(** [OrderService.updateOrder]; [data.note ?? null] is written in both
    branches. *)
Definition updateOrder (id : string) (data : UpdateOrderRequest)
  : Async OrderWithItems :=
  await existingOrder <- getOrderById id;
  match existingOrder with
  | None => throw (JsError "Order not found")
  | Some _ =>
      match uo_items data with
      | Some items =>
          let productIds := ci_productId <$> items in
          await found <- product_findMany_idIn productIds;
          if negb (length found =? length productIds) then
            throw (JsError "Some products not found")
          else
            transaction (
              await _ <- orderItem_deleteMany id;
              await updatedOrder <- order_update id (Some (uo_note data)) items;
              resolve updatedOrder)
      | None => order_update id (Some (uo_note data)) []
      end
  end.

(** ** Request bodies and the Zod schemas of the routes *)

(** A parsed JSON request body. An object keeps its members as a list;
    reading a key takes its first binding. A [JNum] is a finite
    number. *)
#[local] Unset Elimination Schemes.
Inductive JSON :=
  | JNull
  | JBool (b : bool)
  | JNum (q : Q)
  | JStr (s : string)
  | JArr (l : list JSON)
  | JObj (members : list (string * JSON)).
#[local] Set Elimination Schemes.

(** [o[k]], [None] being [undefined]. *)
Fixpoint get (k : string) (o : list (string * JSON)) : option JSON :=
  match o with
  | [] => None
  | (k', v) :: o' => if String.eqb k k' then Some v else get k o'
  end.

(** A schema maps a value or [undefined] to the parsed output, or fails
    (the [ZodError] of [parse]). *)
Definition ZodSchema (A : Type) : Type := option JSON → option A.

Definition z_string : ZodSchema string :=
  λ v, match v with Some (JStr s) => Some s | _ => None end.

(** [.min(1, ...)] on a string *)
Definition z_min1 (s : ZodSchema string) : ZodSchema string :=
  λ v, x ← s v; if 1 <=? String.length x then Some x else None.

Definition z_number : ZodSchema Q :=
  λ v, match v with Some (JNum q) => Some q | _ => None end.

(** [.positive(...)]: the number is greater than zero. *)
Definition z_positive (s : ZodSchema Q) : ZodSchema Q :=
  λ v, q ← s v; if (0 <? Qnum q)%Z then Some q else None.

Definition z_array {A} (s : ZodSchema A) : ZodSchema (list A) :=
  λ v, match v with
       | Some (JArr l) => mapM (λ x, s (Some x)) l
       | _ => None
       end.

(** [.min(1, ...)] on an array *)
Definition z_nonempty {A} (s : ZodSchema (list A)) : ZodSchema (list A) :=
  λ v, l ← s v; if 1 <=? length l then Some l else None.

(** [.optional()]: [undefined] is accepted as it is, before the inner
    schema is consulted. *)
Definition z_optional {A} (s : ZodSchema A) : ZodSchema (option A) :=
  λ v, match v with
       | None => Some None
       | Some _ => Some <$> s v
       end.

(** [.optional().default(d)]: [undefined] parses to [d]. *)
Definition z_optional_default {A} (s : ZodSchema A) (d : A) : ZodSchema A :=
  λ v, match v with
       | None => Some d
       | Some _ => s v
       end.

(** [z.enum(['ACTIVE', 'OUT_OF_STOCK', 'DISCONTINUED'])] *)
Definition z_status : ZodSchema ProductStatus :=
  λ v, match v with
       | Some (JStr s) =>
           if String.eqb s "ACTIVE" then Some ACTIVE
           else if String.eqb s "OUT_OF_STOCK" then Some OUT_OF_STOCK
           else if String.eqb s "DISCONTINUED" then Some DISCONTINUED
           else None
       | _ => None
       end.

(** [orderItemSchema] of [routes/orders.ts] *)
Definition orderItemSchema : ZodSchema CreateOrderItemRequest :=
  λ v, match v with
       | Some (JObj o) =>
           productId ← z_min1 z_string (get "productId" o);
           quantity ← z_positive z_number (get "quantity" o);
           Some (mkItem productId quantity)
       | _ => None
       end.

(** [createOrderSchema] *)
Definition createOrderSchema : ZodSchema CreateOrderRequest :=
  λ v, match v with
       | Some (JObj o) =>
           note ← z_optional z_string (get "note" o);
           items ← z_nonempty (z_array orderItemSchema) (get "items" o);
           Some (mkCreateOrderRequest items note)
       | _ => None
       end.

(** [createOrderSchema.partial()]: every key becomes optional. *)
Definition createOrderSchema_partial : ZodSchema UpdateOrderRequest :=
  λ v, match v with
       | Some (JObj o) =>
           note ← z_optional (z_optional z_string) (get "note" o);
           items ← z_optional (z_nonempty (z_array orderItemSchema))
                              (get "items" o);
           Some (mkUpdateOrderRequest items (mjoin note))
       | _ => None
       end.

(** The output of [createProductSchema]. *)
Record ProductData := mkProductData {
  pd_name : string;
  pd_barcode : string;
  pd_costPrice : Q;
  pd_sellPrice : Q;
  pd_vendorIds : list string;
  pd_imagePath : option string;
  pd_status : ProductStatus;
  pd_tags : list string;
  pd_note : option string;
}.

(** The output of [createProductSchema.partial()]. *)
Record PartialProductData := mkPartialProductData {
  ppd_name : option string;
  ppd_barcode : option string;
  ppd_costPrice : option Q;
  ppd_sellPrice : option Q;
  ppd_vendorIds : option (list string);
  ppd_imagePath : option string;
  ppd_status : option ProductStatus;
  ppd_tags : option (list string);
  ppd_note : option string;
}.

(** [createProductSchema] of [routes/products.ts] *)
Definition createProductSchema : ZodSchema ProductData :=
  λ v, match v with
       | Some (JObj o) =>
           name ← z_min1 z_string (get "name" o);
           barcode ← z_min1 z_string (get "barcode" o);
           costPrice ← z_positive z_number (get "costPrice" o);
           sellPrice ← z_positive z_number (get "sellPrice" o);
           vendorIds ← z_optional_default (z_array z_string) []
                                          (get "vendorIds" o);
           imagePath ← z_optional z_string (get "imagePath" o);
           status ← z_optional_default z_status ACTIVE (get "status" o);
           tags ← z_optional_default (z_array z_string) [] (get "tags" o);
           note ← z_optional z_string (get "note" o);
           Some (mkProductData name barcode costPrice sellPrice vendorIds
                               imagePath status tags note)
       | _ => None
       end.

(** [createProductSchema.partial()]: an absent key stays [undefined], the
    defaults of the full schema are not filled in. *)
Definition createProductSchema_partial : ZodSchema PartialProductData :=
  λ v, match v with
       | Some (JObj o) =>
           name ← z_optional (z_min1 z_string) (get "name" o);
           barcode ← z_optional (z_min1 z_string) (get "barcode" o);
           costPrice ← z_optional (z_positive z_number) (get "costPrice" o);
           sellPrice ← z_optional (z_positive z_number) (get "sellPrice" o);
           vendorIds ← z_optional (z_optional_default (z_array z_string) [])
                                  (get "vendorIds" o);
           imagePath ← z_optional (z_optional z_string) (get "imagePath" o);
           status ← z_optional (z_optional_default z_status ACTIVE)
                               (get "status" o);
           tags ← z_optional (z_optional_default (z_array z_string) [])
                             (get "tags" o);
           note ← z_optional (z_optional z_string) (get "note" o);
           Some (mkPartialProductData name barcode costPrice sellPrice
                   vendorIds (mjoin imagePath) status tags (mjoin note))
       | _ => None
       end.

(** [schema.parse(request.body)] *)
Definition parse {A} (schema : ZodSchema A) (body : JSON) : Async A :=
  match schema (Some body) with
  | Some a => resolve a
  | None => throw ZodError
  end.

(** ** The route handlers *)

(** The reply envelope [{ success, data | error }] with its status code;
    the [data] member is [reply_data]. *)
Record Reply (A : Type) := mkReply {
  statusCode : nat;
  success : bool;
  error : option string;
  reply_data : option A;
}.
#[global] Arguments mkReply {A} _ _ _ _.
#[global] Arguments statusCode {A} _.
#[global] Arguments success {A} _.
#[global] Arguments error {A} _.
#[global] Arguments reply_data {A} _.

(** [reply.status(code).send({ success: false, error })] *)
Definition send_error {A} (code : nat) (msg : string) : Reply A :=
  mkReply code false (Some msg) None.

(** [reply.status(code).send({ success: true, data })] *)
Definition send_data {A} (code : nat) (d : A) : Reply A :=
  mkReply code true None (Some d).

(** Modelled from the spec: how a reply of the request-handling layer
    reads as an error kind. The handlers answer 404 for an absent target
    and 500 for what the store raised; with 400 they answer a failed
    validation or reference check, and, under the two messages below, a
    barcode collision and a product that still has orders. *)
Definition reply_kind {A} (r : Reply A) : option ErrorKind :=
  if success r then None
  else if statusCode r =? 404 then Some NotFoundError
  else if statusCode r =? 400 then
    if decide (error r = Some "條碼已存在") then Some ConflictError
    else if decide (error r = Some "無法刪除產品，該產品已有相關訂單")
    then Some ConflictError
    else Some ValidationError
  else Some PersistenceError.

(** The [try { ... } catch (error) { ... }] around a handler that parses
    its body: a [ZodError] is answered with 400, anything else with 500
    and the handler's own message. *)
Definition handle_parsing {A} (failed : string) (body : Async (Reply A))
  : DB → DB * Reply A :=
  λ db,
    match body db with
    | (db', inr r) => (db', r)
    | (db', inl ZodError) => (db', send_error 400 "驗證錯誤")
    | (db', inl _) => (db', send_error 500 failed)
    end.

(** The same around a handler that parses nothing. *)
Definition handle {A} (failed : string) (body : Async (Reply A))
  : DB → DB * Reply A :=
  λ db,
    match body db with
    | (db', inr r) => (db', r)
    | (db', inl _) => (db', send_error 500 failed)
    end.

(** [POST /orders] *)
Definition post_orders (body : JSON) : DB → DB * Reply OrderWithItems :=
  handle_parsing "創建訂單失敗" (
    await orderData <- parse createOrderSchema body;
    let productIds := ci_productId <$> co_items orderData in
    await found <- product_findMany_idIn productIds;
    if negb (length found =? length productIds) then
      resolve (send_error 400 "部分產品不存在")
    else
      await order <- order_create P2003 (or_null (co_note orderData))
                                  (co_items orderData);
      await _ <- product_updateMany_isOrdered productIds true;
      resolve (send_data 201 order)).

(** [PUT /orders/:id]; [updatePayload.note] is assigned only when the
    body has a [note]. *)
Definition put_orders_id (id : string) (body : JSON)
  : DB → DB * Reply OrderWithItems :=
  handle_parsing "更新訂單失敗" (
    await updateData <- parse createOrderSchema_partial body;
    await existingOrder <- order_findUnique id;
    match existingOrder with
    | None => resolve (send_error 404 "訂單不存在")
    | Some _ =>
        await order <- transaction (
          await _ <- match uo_items updateData with
                     | Some items =>
                         await _ <- orderItem_deleteMany id;
                         await _ <- orderItem_createMany id items;
                         resolve tt
                     | None => resolve tt
                     end;
          order_update id ((λ n, or_null (Some n)) <$> uo_note updateData)
                       []);
        resolve (send_data 200 order)
    end).

(** [POST /products] *)
Definition post_products (body : JSON)
  : DB → DB * Reply (string * Product) :=
  handle_parsing "創建產品失敗" (
    await productData <- parse createProductSchema body;
    await existingProduct <-
      product_findUnique_barcode (pd_barcode productData);
    match existingProduct with
    | Some _ => resolve (send_error 400 "條碼已存在")
    | None =>
        await product <- product_create
          {| pc_name := pd_name productData;
             pc_barcode := pd_barcode productData;
             pc_costPrice := pd_costPrice productData;
             pc_sellPrice := pd_sellPrice productData;
             pc_imagePath := or_null (pd_imagePath productData);
             pc_status := Some (pd_status productData);
             pc_tags := pd_tags productData;
             pc_note := or_null (pd_note productData);
             pc_vendors := pd_vendorIds productData |};
        resolve (send_data 201 product)
    end).

(** The [updatePayload] object of [PUT /products/:id]. *)
Definition updatePayload_of (updateData : PartialProductData)
  : ProductPatch :=
  {| pp_name := ppd_name updateData;
     pp_barcode := ppd_barcode updateData;
     pp_costPrice := ppd_costPrice updateData;
     pp_sellPrice := ppd_sellPrice updateData;
     pp_vendors := ppd_vendorIds updateData;
     pp_imagePath := (λ s, or_null (Some s)) <$> ppd_imagePath updateData;
     pp_status := ppd_status updateData;
     pp_isOrdered := None;
     pp_tags := ppd_tags updateData;
     pp_note := (λ s, or_null (Some s)) <$> ppd_note updateData |}.

(** [PUT /products/:id] from the parsed body on. *)
Definition put_products_id_parsed (id : string)
    (updateData : PartialProductData) : Async (Reply (string * Product)) :=
  await existingProduct <- product_findUnique_id id;
  match existingProduct with
  | None => resolve (send_error 404 "產品不存在")
  | Some existing =>
      let write :=
        await product <- product_update id (updatePayload_of updateData);
        resolve (send_data 200 product) in
      match ppd_barcode updateData with
      | Some b =>
          if truthy b && negb (String.eqb b (barcode existing)) then
            await duplicateBarcode <- product_findUnique_barcode b;
            match duplicateBarcode with
            | Some _ => resolve (send_error 400 "條碼已存在")
            | None => write
            end
          else write
      | None => write
      end
  end.

(** [PUT /products/:id] *)
Definition put_products_id (id : string) (body : JSON)
  : DB → DB * Reply (string * Product) :=
  handle_parsing "更新產品失敗" (
    await updateData <- parse createProductSchema_partial body;
    put_products_id_parsed id updateData).

(** [DELETE /products/:id]; the product is read with
    [include: { orderItems: true }]. *)
Definition delete_products_id (id : string) : DB → DB * Reply unit :=
  handle "刪除產品失敗" (
    await existingProduct <- product_findUnique_withItems id;
    match existingProduct with
    | None => resolve (send_error 404 "產品不存在")
    | Some (_, orderItems) =>
        if 0 <? length orderItems then
          resolve (send_error 400 "無法刪除產品，該產品已有相關訂單")
        else
          await _ <- product_delete id;
          resolve (mkReply 200 true None None)
    end).

(** ** Sequences of calls *)

(** A call of one of the mutating operations, through a service or
    through a route. *)
Inductive Call :=
  | CallCreateProduct (data : CreateProductRequest)
  | CallUpdateProduct (id : string) (data : UpdateProductRequest)
  | CallDeleteProduct (id : string)
  | CallCreateOrder (data : CreateOrderRequest)
  | CallUpdateOrder (id : string) (data : UpdateOrderRequest)
  | PostProducts (body : JSON)
  | PutProducts (id : string) (body : JSON)
  | DeleteProducts (id : string)
  | PostOrders (body : JSON)
  | PutOrders (id : string) (body : JSON).

(** The store after a call, whatever the call answered. *)
Definition perform (c : Call) (db : DB) : DB :=
  match c with
  | CallCreateProduct data => (createProduct data db).1
  | CallUpdateProduct id data => (updateProduct id data db).1
  | CallDeleteProduct id => (deleteProduct id db).1
  | CallCreateOrder data => (createOrder data db).1
  | CallUpdateOrder id data => (updateOrder id data db).1
  | PostProducts body => (post_products body db).1
  | PutProducts id body => (put_products_id id body db).1
  | DeleteProducts id => (delete_products_id id db).1
  | PostOrders body => (post_orders body db).1
  | PutOrders id body => (put_orders_id id body db).1
  end.

Fixpoint run (calls : list Call) (db : DB) : DB :=
  match calls with
  | [] => db
  | c :: rest => run rest (perform c db)
  end.

End Backend.

(** ** The remaining operations of the services and the routes *)

(** *** [services/vendorService.ts], the lookups *)

(** [VendorService.getAllVendors]: a copy of the registry. *)
Definition getAllVendors : list (string * string) := VENDORS.

(** [VendorService.getVendorById]: [VENDORS.find(v => v.id === id)],
    [null] when there is none. *)
Definition getVendorById (id : string) : option (string * string) :=
  head (filter (λ v, v.1 = id) VENDORS).

(** [VendorService.getVendorsByIds]:
    [VENDORS.filter(v => ids.includes(v.id))]. *)
Definition getVendorsByIds (ids : list string) : list (string * string) :=
  filter (λ v, v.1 ∈ ids) VENDORS.

(** [VendorService.getVendorNameMap]: the [reduce] that assigns
    [map[vendor.id] = vendor.name] vendor by vendor. *)
Definition getVendorNameMap : gmap string string :=
  foldl (λ map vendor, <[vendor.1 := vendor.2]> map) ∅ VENDORS.

(** *** [ProductService], the single-field updates *)

Definition patch_status (s : ProductStatus) : ProductPatch :=
  mkProductPatch None None None None None None (Some s) None None None.

Definition patch_isOrdered (b : bool) : ProductPatch :=
  mkProductPatch None None None None None None None (Some b) None None.

(** [ProductService.updateProductStatus] *)
Definition updateProductStatus (id : string) (s : ProductStatus)
  : Async (string * Product) :=
  await existingProduct <- getProductById id;
  match existingProduct with
  | None => throw (JsError "Product not found")
  | Some _ => product_update id (patch_status s)
  end.

(** [ProductService.updateProductOrderStatus] *)
Definition updateProductOrderStatus (id : string) (b : bool)
  : Async (string * Product) :=
  await existingProduct <- getProductById id;
  match existingProduct with
  | None => throw (JsError "Product not found")
  | Some _ => product_update id (patch_isOrdered b)
  end.

(** *** Deleting an order *)

Section OrderDeletion.

(** The referential action of the schema for deleting an order that
    still owns items; declared in [prisma/schema.prisma], outside the
    code embedded here. *)
Variable onDeleteOrder : ReferentialAction.

(** [prisma.order.delete({ where: { id } })]: P2025 when the row is
    absent; when the order still owns items, the schema's referential
    action decides. *)
Definition order_delete (id : string) : Async unit :=
  λ db,
    match orders db !! id with
    | None => (db, inl (PrismaErr P2025))
    | Some _ =>
        match items_of id db, onDeleteOrder with
        | _ :: _, Restrict => (db, inl (PrismaErr P2003))
        | _, _ =>
            (mkDB (products db) (delete id (orders db))
                  (filter (λ it, orderId it ≠ id) (orderItems db))
                  (nextId db),
             inr tt)
        end
    end.

(** [OrderService.deleteOrder] *)
Definition deleteOrder (id : string) : Async unit :=
  await existingOrder <- getOrderById id;
  match existingOrder with
  | None => throw (JsError "Order not found")
  | Some _ => order_delete id
  end.

(** [DELETE /orders/:id]: the items first, then the order, in one
    transaction. *)
Definition delete_orders_id (id : string) : DB → DB * Reply unit :=
  handle "刪除訂單失敗" (
    await existingOrder <- order_findUnique id;
    match existingOrder with
    | None => resolve (send_error 404 "訂單不存在")
    | Some _ =>
        await _ <- transaction (
          await _ <- orderItem_deleteMany id;
          order_delete id);
        resolve (mkReply 200 true None None)
    end).

End OrderDeletion.

(** [GET /orders/:id] *)
Definition get_orders_id (id : string) : DB → DB * Reply OrderWithItems :=
  handle "獲取訂單失敗" (
    await order <- order_findUnique id;
    match order with
    | None => resolve (send_error 404 "訂單不存在")
    | Some o => resolve (send_data 200 o)
    end).

(** *** [POST /products/batch] *)

(** The handler reads its body without a schema, so the members may
    hold any value. [v[k]] for a body that is not [null]: a member of an
    object, [undefined] on anything else. *)
Definition member (k : string) (v : JSON) : option JSON :=
  match v with
  | JObj o => get k o
  | _ => None
  end.

(** [!v] *)
Definition falsy (v : option JSON) : bool :=
  match v with
  | None | Some JNull | Some (JBool false) => true
  | Some (JNum q) => (Qnum q =? 0)%Z
  | Some (JStr s) => String.eqb s ""
  | _ => false
  end.

(** [v.length === 0] for a value that is not falsy. *)
Definition length_is_zero (v : option JSON) : bool :=
  match v with
  | Some (JArr l) => length l =? 0
  | Some (JStr s) => String.length s =? 0
  | Some (JObj o) =>
      match get "length" o with
      | Some (JNum q) => (Qnum q =? 0)%Z
      | _ => false
      end
  | _ => false
  end.

(** What Prisma accepts for [id: { in: ids }]: an array of strings.
    Anything else makes the client throw before it reaches the store. *)
Definition id_list (v : option JSON) : Async (list string) :=
  match v with
  | Some (JArr l) =>
      match mapM (λ x, z_string (Some x)) l with
      | Some ids => resolve ids
      | None => throw (JsError "Invalid value provided")
      end
  | _ => throw (JsError "Invalid value provided")
  end.

Definition unreferenced (id : string) (db : DB) : bool :=
  match items_referencing id db with
  | [] => true
  | _ :: _ => false
  end.

(** [prisma.product.deleteMany({ where: { id: { in: ids },
    orderItems: { none: {} } } })]; returns the number of rows deleted. *)
Definition product_deleteMany_unreferenced (ids : list string) : Async nat :=
  λ db,
    let doomed kv := kv.1 ∈ ids ∧ unreferenced kv.1 db = true in
    (mkDB (filter (λ kv, ¬ doomed kv) (products db)) (orders db)
          (orderItems db) (nextId db),
     inr (length (filter doomed (map_to_list (products db))))).

Definition set_status (s : ProductStatus) (p : Product) : Product :=
  {| name := name p; barcode := barcode p; costPrice := costPrice p;
     sellPrice := sellPrice p; status := s; isOrdered := isOrdered p;
     tags := tags p; vendors := vendors p; note := note p;
     imagePath := imagePath p |}.

(** [prisma.product.updateMany({ where: { id: { in: ids } },
    data: { status } })]; returns the number of rows matched. *)
Definition product_updateMany_status (ids : list string) (s : ProductStatus)
  : Async nat :=
  λ db,
    (mkDB (map_imap (λ k p, Some (if bool_decide (k ∈ ids)
                                  then set_status s p else p))
                    (products db))
          (orders db) (orderItems db) (nextId db),
     inr (length (rows_with_id_in ids (products db)))).

(** [POST /products/batch]. Destructuring a [null] body throws. *)
Definition post_products_batch (body : JSON) : DB → DB * Reply nat :=
  handle "批量操作失敗" (
    match body with
    | JNull => throw (JsError "Cannot destructure property")
    | _ =>
        let action := member "action" body in
        let ids := member "ids" body in
        if falsy ids || length_is_zero ids then
          resolve (send_error 400 "請提供產品 ID 列表")
        else
          match action with
          | Some (JStr a) =>
              if String.eqb a "delete" then
                await idList <- id_list ids;
                await count <- product_deleteMany_unreferenced idList;
                resolve (send_data 200 count)
              else if String.eqb a "updateStatus" then
                match z_status (member "status" body) with
                | None => resolve (send_error 400 "無效的狀態值")
                | Some s =>
                    await idList <- id_list ids;
                    await count <- product_updateMany_status idList s;
                    resolve (send_data 200 count)
                end
              else resolve (send_error 400 "無效的操作類型")
          | _ => resolve (send_error 400 "無效的操作類型")
          end
    end).

(** *** [middleware/auth.ts] *)

(** [validateApiKey], given the [x-api-key] header and
    [process.env.API_KEY]: the reply it sends, or [None] when it sends
    none and the request goes on. *)
Definition validateApiKey (apiKey expectedApiKey : option string)
  : option (Reply unit) :=
  match expectedApiKey with
  | Some expected =>
      if truthy expected then
        match apiKey with
        | Some key =>
            if truthy key && String.eqb key expected then None
            else Some (send_error 401 "Invalid or missing API key")
        | None => Some (send_error 401 "Invalid or missing API key")
        end
      else Some (send_error 500 "API key not configured on server")
  | None => Some (send_error 500 "API key not configured on server")
  end.

(** *** Sequences of requests to the routes *)

Section Requests.

Variable newId : nat → string.
Variable onDeleteProduct onDeleteOrder : ReferentialAction.

(** A request to one of the mutating routes. *)
Inductive Request :=
  | ReqPostProducts (body : JSON)
  | ReqPutProducts (id : string) (body : JSON)
  | ReqDeleteProducts (id : string)
  | ReqBatchProducts (body : JSON)
  | ReqPostOrders (body : JSON)
  | ReqPutOrders (id : string) (body : JSON)
  | ReqDeleteOrders (id : string).

(** The store after a request, whatever the reply. *)
Definition serve (r : Request) (db : DB) : DB :=
  match r with
  | ReqPostProducts body => (post_products newId body db).1
  | ReqPutProducts id body => (put_products_id id body db).1
  | ReqDeleteProducts id => (delete_products_id onDeleteProduct id db).1
  | ReqBatchProducts body => (post_products_batch body db).1
  | ReqPostOrders body => (post_orders newId body db).1
  | ReqPutOrders id body => (put_orders_id id body db).1
  | ReqDeleteOrders id => (delete_orders_id onDeleteOrder id db).1
  end.

Fixpoint serve_all (rs : list Request) (db : DB) : DB :=
  match rs with
  | [] => db
  | r :: rest => serve_all rest (serve r db)
  end.

(** A call of one of the mutating functions of the two services. *)
Inductive ServiceCall :=
  | SvcCreateProduct (data : CreateProductRequest)
  | SvcUpdateProduct (id : string) (data : UpdateProductRequest)
  | SvcDeleteProduct (id : string)
  | SvcUpdateProductStatus (id : string) (status : ProductStatus)
  | SvcUpdateProductOrderStatus (id : string) (isOrdered : bool)
  | SvcCreateOrder (data : CreateOrderRequest)
  | SvcUpdateOrder (id : string) (data : UpdateOrderRequest)
  | SvcDeleteOrder (id : string).

(** The store after a call, whatever it returned or threw. *)
Definition call (c : ServiceCall) (db : DB) : DB :=
  match c with
  | SvcCreateProduct data => (createProduct newId data db).1
  | SvcUpdateProduct id data => (updateProduct id data db).1
  | SvcDeleteProduct id => (deleteProduct onDeleteProduct id db).1
  | SvcUpdateProductStatus id s => (updateProductStatus id s db).1
  | SvcUpdateProductOrderStatus id b => (updateProductOrderStatus id b db).1
  | SvcCreateOrder data => (createOrder newId data db).1
  | SvcUpdateOrder id data => (updateOrder id data db).1
  | SvcDeleteOrder id => (deleteOrder onDeleteOrder id db).1
  end.

(** An operation on the store: a request to a route, or a call of a
    service function. *)
Inductive Operation :=
  | ViaRoute (r : Request)
  | ViaService (c : ServiceCall).

Definition operate (o : Operation) (db : DB) : DB :=
  match o with
  | ViaRoute r => serve r db
  | ViaService c => call c db
  end.

Fixpoint operate_all (os : list Operation) (db : DB) : DB :=
  match os with
  | [] => db
  | o :: rest => operate_all rest (operate o db)
  end.

End Requests.

(** Every order item references a product and an order that exist. *)
Definition references_ok (db : DB) : Prop :=
  ∀ item, item ∈ orderItems db →
    is_Some (products db !! productId item)
    ∧ is_Some (orders db !! orderId item).

(** A computation that never writes. *)
Definition readonly {A} (m : Async A) : Prop := ∀ db, (m db).1 = db.

(** A computation that leaves the store as it was whenever it throws. *)
Definition all_or_nothing {A} (m : Async A) : Prop :=
  ∀ db db' e, m db = (db', inl e) → db' = db.

(** The store [db'] is [db] with one product added under [id]. *)
Definition product_added (db : DB) (id : string) (p : Product) (db' : DB)
  : Prop :=
  products db' = <[id := p]> (products db)
  ∧ orders db' = orders db
  ∧ orderItems db' = orderItems db.

(** A handler whose replies other than success leave the store as it
    was. *)
Definition fails_quietly {A} (h : DB → DB * Reply A) : Prop :=
  ∀ db db' r, h db = (db', r) → success r = false → db' = db.

(** The same for the body of a handler, before its [catch]. *)
Definition quiet_body {A} (m : Async (Reply A)) : Prop :=
  all_or_nothing m
  ∧ ∀ db db' r, m db = (db', inr r) → success r = false → db' = db.

(** A number without a fractional part: the quantities that a column
    of integers and a column of floating-point numbers keep alike. *)
Definition whole (q : Q) : Prop := (Z.pos (Qden q) | Qnum q)%Z.

Definition whole_quantities (items : list CreateOrderItemRequest) : Prop :=
  Forall (λ item, whole (ci_quantity item)) items.

(** The ids that the generator has yet to hand out are not in use. *)
Definition ids_fresh (newId : nat → string) (db : DB) : Prop :=
  ∀ k, nextId db ≤ k → products db !! newId k = None.

(** [db] is a later state of [db0] in which every product of [db0] that
    was marked as ordered is, if it is still there, still marked. *)
Definition flags_kept (newId : nat → string) (db0 db : DB) : Prop :=
  nextId db0 ≤ nextId db
  ∧ ids_fresh newId db
  ∧ ∀ id p p', products db0 !! id = Some p → isOrdered p = true →
      products db !! id = Some p' → isOrdered p' = true.

(** ** Properties of the store and of updates *)

(** At most one product carries a given barcode. *)
Definition barcode_unique (db : DB) : Prop :=
  ∀ i j p q,
    products db !! i = Some p → products db !! j = Some q →
    barcode p = barcode q → i = j.

(** A field under a sparse update: the payload's value when the payload
    has one, the old value otherwise. *)
Definition sparse {A} (payload : option A) (old new : A) : Prop :=
  match payload with
  | Some v => new = v
  | None => new = old
  end.

(** The product [p'] is [p] sparsely updated by a request of the
    service: every field follows the payload where the payload has it and
    keeps its value where it has not. *)
Definition sparse_by_request (data : UpdateProductRequest) (p p' : Product)
  : Prop :=
  sparse (up_name data) (name p) (name p')
  ∧ sparse (up_barcode data) (barcode p) (barcode p')
  ∧ sparse (up_costPrice data) (costPrice p) (costPrice p')
  ∧ sparse (up_sellPrice data) (sellPrice p) (sellPrice p')
  ∧ sparse (up_vendors data) (vendors p) (vendors p')
  ∧ sparse (Some <$> up_imagePath data) (imagePath p) (imagePath p')
  ∧ sparse (up_status data) (status p) (status p')
  ∧ sparse (up_isOrdered data) (isOrdered p) (isOrdered p')
  ∧ sparse (up_tags data) (tags p) (tags p')
  ∧ sparse (Some <$> up_note data) (note p) (note p').

(** The same for a parsed body of [PUT /products/:id]: an empty
    [imagePath] or [note] is stored as [null], and the body cannot name
    [isOrdered]. *)
Definition sparse_by_body (u : PartialProductData) (p p' : Product) : Prop :=
  sparse (ppd_name u) (name p) (name p')
  ∧ sparse (ppd_barcode u) (barcode p) (barcode p')
  ∧ sparse (ppd_costPrice u) (costPrice p) (costPrice p')
  ∧ sparse (ppd_sellPrice u) (sellPrice p) (sellPrice p')
  ∧ sparse (ppd_vendorIds u) (vendors p) (vendors p')
  ∧ sparse ((λ s, or_null (Some s)) <$> ppd_imagePath u)
           (imagePath p) (imagePath p')
  ∧ sparse (ppd_status u) (status p) (status p')
  ∧ isOrdered p' = isOrdered p
  ∧ sparse (ppd_tags u) (tags p) (tags p')
  ∧ sparse ((λ s, or_null (Some s)) <$> ppd_note u) (note p) (note p').

(** The store [db'] is [db] with the product [id] replaced by [p'] and
    nothing else touched. *)
Definition product_replaced (db : DB) (id : string) (p' : Product) (db' : DB)
  : Prop :=
  products db' = <[id := p']> (products db)
  ∧ orders db' = orders db
  ∧ orderItems db' = orderItems db.

(** A property of the store that an asynchronous computation keeps. *)
Definition preserves {A} (P : DB → Prop) (m : Async A) : Prop :=
  ∀ db, P db → P (m db).1.

(** The store with nothing in it. *)
Definition empty_db : DB := mkDB ∅ ∅ [] 0.

(** ** Sample data for the examples *)

(** A generator of ids for the examples: c0, c1, c2, ... *)
Definition cuid (n : nat) : string := "c" +:+ pretty n.

Definition coke : Product :=
  mkProduct "Coke" "COKE-001" 20 25 ACTIVE false [] ["01"] None None.

Definition pepsi : Product :=
  mkProduct "Pepsi" "PEPSI-001" 18 23 ACTIVE false [] ["02"] None None.

(** Two products, and one order for fifty of the first. *)
Definition shop : DB :=
  mkDB (<["c0" := coke]> (<["c1" := pepsi]> ∅))
       (<["c2" := mkOrder (Some "weekend")]> ∅)
       [mkOrderItem "c2" "c0" 50]
       3.

(** * Properties *)

(** ** The batched existence lookup *)

Section BatchedLookup.

Implicit Types (m : gmap string Product) (ids : list string).

Lemma found_keys_NoDup ids m : NoDup (rows_with_id_in ids m).*1.
Proof.
  unfold rows_with_id_in. apply NoDup_fmap_fst.
  - intros k x y Hx Hy.
    apply list_elem_of_filter in Hx as [_ Hx], Hy as [_ Hy].
    apply elem_of_map_to_list in Hx, Hy. congruence.
  - apply NoDup_filter, NoDup_map_to_list.
Qed.

Lemma found_key_spec ids m k :
  k ∈ (rows_with_id_in ids m).*1 ↔ k ∈ ids ∧ is_Some (m !! k).
Proof.
  unfold rows_with_id_in. rewrite list_elem_of_fmap. split.
  - intros [[k' v] [-> H]]. apply list_elem_of_filter in H as [Hin H].
    apply elem_of_map_to_list in H. simpl in *. eauto.
  - intros [Hin [v Hv]]. exists (k, v). split; [done|].
    apply list_elem_of_filter. split; [done|]. by apply elem_of_map_to_list.
Qed.

(** The lookup returns at most as many rows as there are listed ids that
    exist. *)
Lemma found_length_le ids m :
  length (rows_with_id_in ids m) ≤ length (filter (λ k, is_Some (m !! k)) ids).
Proof.
  rewrite <- (length_fmap fst (rows_with_id_in ids m)).
  apply submseteq_length, NoDup_submseteq; [apply found_keys_NoDup|].
  intros k Hk. apply found_key_spec in Hk as [? ?].
  by apply list_elem_of_filter.
Qed.

(** A listed id that does not exist makes the lookup come up short. *)
Lemma found_length_missing ids m k :
  k ∈ ids → m !! k = None → length (rows_with_id_in ids m) < length ids.
Proof.
  intros Hin Hk. eapply Nat.le_lt_trans; [apply found_length_le|].
  apply (length_filter_lt _ _ k); [done|]. rewrite Hk. by intros [? ?].
Qed.

(** So does an id that is listed twice. *)
Lemma found_length_dup ids m :
  ¬ NoDup ids → length (rows_with_id_in ids m) < length ids.
Proof.
  intros Hdup.
  destruct (decide (length ids ≤ length (rows_with_id_in ids m))) as [Hle|];
    [|lia].
  exfalso. apply Hdup.
  assert ((rows_with_id_in ids m).*1 ⊆+ ids) as Hsub.
  { apply NoDup_submseteq; [apply found_keys_NoDup|].
    intros k Hk. by apply found_key_spec in Hk as [? ?]. }
  rewrite <- (submseteq_length_Permutation _ _ Hsub).
  - apply found_keys_NoDup.
  - by rewrite length_fmap.
Qed.

(** The check [products.length !== productIds.length] passes exactly
    when the ids are pairwise distinct and all exist. *)
Lemma found_length_eq ids m :
  length (rows_with_id_in ids m) = length ids ↔
  NoDup ids ∧ ∀ k, k ∈ ids → is_Some (m !! k).
Proof.
  split.
  - intros Heq. split.
    + destruct (decide (NoDup ids)) as [|Hdup]; [done|].
      apply (found_length_dup _ m) in Hdup. lia.
    + intros k Hin. destruct (m !! k) eqn:Hk; [eauto|].
      pose proof (found_length_missing _ _ _ Hin Hk). lia.
  - intros [Hnd Hall]. apply Nat.le_antisymm.
    + etrans; [apply found_length_le|apply length_filter].
    + rewrite <- (length_fmap fst (rows_with_id_in ids m)).
      apply submseteq_length, NoDup_submseteq; [done|].
      intros k Hk. apply found_key_spec. auto.
Qed.

Lemma check_fails ids m :
  length (rows_with_id_in ids m) < length ids →
  negb (length (rows_with_id_in ids m) =? length ids) = true.
Proof. intros H. apply negb_true_iff, Nat.eqb_neq. lia. Qed.

Lemma check_passes ids m :
  NoDup ids → (∀ k, k ∈ ids → is_Some (m !! k)) →
  negb (length (rows_with_id_in ids m) =? length ids) = false.
Proof.
  intros Hnd Hall. apply negb_false_iff, Nat.eqb_eq, found_length_eq. auto.
Qed.

End BatchedLookup.

(** Two items at different positions with the same product id make the
    list of product ids repeat an id. *)
Lemma shared_productId_dup (items : list CreateOrderItemRequest) i j a b :
  i ≠ j → items !! i = Some a → items !! j = Some b →
  ci_productId a = ci_productId b →
  ¬ NoDup (ci_productId <$> items).
Proof.
  intros Hij Ha Hb Hab Hnd. apply Hij.
  eapply (NoDup_lookup _ i j (ci_productId a)); [exact Hnd| |].
  - by rewrite list_lookup_fmap, Ha.
  - by rewrite list_lookup_fmap, Hb, Hab.
Qed.

(** ** Orders: the existence check of [createOrder] and [POST /orders] *)

Lemma createOrder_short newId db data :
  length (rows_with_id_in (ci_productId <$> co_items data) (products db))
    < length (ci_productId <$> co_items data) →
  createOrder newId data db = (db, inl (JsError "Some products not found")).
Proof.
  intros H. unfold createOrder, bind, product_findMany_idIn. simpl.
  by rewrite check_fails.
Qed.

Lemma post_orders_short newId db body data :
  createOrderSchema (Some body) = Some data →
  length (rows_with_id_in (ci_productId <$> co_items data) (products db))
    < length (ci_productId <$> co_items data) →
  post_orders newId body db = (db, send_error 400 "部分產品不存在").
Proof.
  intros Hparse H.
  unfold post_orders, handle_parsing, bind, parse, product_findMany_idIn.
  rewrite Hparse. simpl. by rewrite check_fails.
Qed.

Lemma updateOrder_short db id o data items :
  orders db !! id = Some o → uo_items data = Some items →
  length (rows_with_id_in (ci_productId <$> items) (products db))
    < length (ci_productId <$> items) →
  updateOrder id data db = (db, inl (JsError "Some products not found")).
Proof.
  intros Ho Hitems H.
  unfold updateOrder, bind, getOrderById, order_findUnique,
    product_findMany_idIn.
  rewrite Ho, Hitems. simpl. by rewrite check_fails.
Qed.

(** C1: when some item of a create-order request names a product that
    does not exist, the service [createOrder] throws "Some products not
    found" and [POST /orders], on any body that parses to the request,
    answers 400, both validation errors, decided by comparing the number
    of rows of one [findMany] with the number of requested ids; the store
    is left as it was, so no order and no order item is persisted. *)
Theorem createOrder_missing_product_rejected
    newId (db : DB) (data : CreateOrderRequest)
    (item : CreateOrderItemRequest) :
  item ∈ co_items data →
  products db !! ci_productId item = None →
  length (rows_with_id_in (ci_productId <$> co_items data) (products db))
    < length (co_items data)
  ∧ createOrder newId data db
    = (db, inl (JsError "Some products not found"))
  ∧ thrown_kind (JsError "Some products not found") = ValidationError
  ∧ (∀ body, createOrderSchema (Some body) = Some data →
       post_orders newId body db = (db, send_error 400 "部分產品不存在"))
  ∧ reply_kind (send_error (A := OrderWithItems) 400 "部分產品不存在")
    = Some ValidationError.
Proof.
  intros Hin Hmiss.
  assert (length (rows_with_id_in (ci_productId <$> co_items data)
                                  (products db))
          < length (ci_productId <$> co_items data)) as Hshort.
  { apply (found_length_missing _ _ (ci_productId item)); [|done].
    by apply list_elem_of_fmap_2. }
  split; [by rewrite length_fmap in Hshort|].
  split; [by apply createOrder_short|].
  split; [done|].
  split; [intros body Hparse; by eapply post_orders_short|done].
Qed.

Lemma createOrder_missing_product_rejected_witness :
  let body := JObj [("items", JArr [JObj [("productId", JStr "nonexistent");
                                          ("quantity", JNum 1)]])] in
  let data := mkCreateOrderRequest [mkItem "nonexistent" 1] None in
  products shop !! "nonexistent" = None
  ∧ createOrder cuid data shop
    = (shop, inl (JsError "Some products not found"))
  ∧ post_orders cuid body shop = (shop, send_error 400 "部分產品不存在").
Proof.
  intros body data.
  destruct (createOrder_missing_product_rejected cuid shop data
              (mkItem "nonexistent" 1))
    as (_ & Hservice & _ & Hroute & _).
  - apply list_elem_of_here.
  - reflexivity.
  - split; [reflexivity|]. split; [exact Hservice|].
    apply Hroute. reflexivity.
Defined.

(** Listing an id twice does not fetch its row twice: when every listed
    id exists, the lookup returns one row per distinct id. *)
Lemma found_length_distinct (ids : list string) (m : gmap string Product) :
  (∀ k, k ∈ ids → is_Some (m !! k)) →
  length (rows_with_id_in ids m) = length (remove_dups ids).
Proof.
  intros Hall.
  assert (rows_with_id_in ids m = rows_with_id_in (remove_dups ids) m) as ->.
  { unfold rows_with_id_in. apply list_filter_iff.
    intros kv. by rewrite elem_of_remove_dups. }
  apply found_length_eq. split; [apply NoDup_remove_dups|].
  intros k Hk. apply Hall. by apply elem_of_remove_dups.
Qed.

(** C10: when every submitted product id exists but two items share one,
    the lookup returns one row per distinct id, fewer than there are
    items, so [createOrder], [POST /orders] (on any body that parses to
    the request) and [updateOrder] (on any existing order) all fail with
    the "some products not found" validation error and leave the store as
    it was, although no product is missing. *)
Theorem duplicate_productIds_rejected
    newId (db : DB) (data : CreateOrderRequest)
    (i j : nat) (a b : CreateOrderItemRequest) :
  Forall (λ item, is_Some (products db !! ci_productId item)) (co_items data) →
  i ≠ j → co_items data !! i = Some a → co_items data !! j = Some b →
  ci_productId a = ci_productId b →
  length (rows_with_id_in (ci_productId <$> co_items data) (products db))
    = length (remove_dups (ci_productId <$> co_items data))
  ∧ length (remove_dups (ci_productId <$> co_items data))
    < length (co_items data)
  ∧ createOrder newId data db = (db, inl (JsError "Some products not found"))
  ∧ (∀ body, createOrderSchema (Some body) = Some data →
       post_orders newId body db = (db, send_error 400 "部分產品不存在"))
  ∧ (∀ id o note, orders db !! id = Some o →
       updateOrder id (mkUpdateOrderRequest (Some (co_items data)) note) db
       = (db, inl (JsError "Some products not found")))
  ∧ thrown_kind (JsError "Some products not found") = ValidationError
  ∧ reply_kind (send_error (A := OrderWithItems) 400 "部分產品不存在")
    = Some ValidationError.
Proof.
  intros Hall Hij Ha Hb Hab.
  assert (length (rows_with_id_in (ci_productId <$> co_items data)
                                  (products db))
          = length (remove_dups (ci_productId <$> co_items data))) as Hcount.
  { apply found_length_distinct. intros k Hk.
    apply list_elem_of_fmap in Hk as (item & -> & Hitem).
    rewrite Forall_forall in Hall. by apply Hall. }
  assert (length (rows_with_id_in (ci_productId <$> co_items data)
                                  (products db))
          < length (ci_productId <$> co_items data)) as Hshort.
  { apply found_length_dup. by eapply shared_productId_dup. }
  split; [done|].
  split; [rewrite <- Hcount; by rewrite length_fmap in Hshort|].
  split; [by apply createOrder_short|].
  split; [intros body Hparse; by eapply post_orders_short|].
  split; [|done].
  intros id o note Ho. by eapply updateOrder_short.
Qed.

Lemma duplicate_productIds_rejected_witness :
  let item := JObj [("productId", JStr "c1"); ("quantity", JNum 2)] in
  let body := JObj [("items", JArr [item; item])] in
  let data := mkCreateOrderRequest [mkItem "c1" 2; mkItem "c1" 2] None in
  createOrderSchema (Some body) = Some data
  ∧ is_Some (products shop !! "c1")
  ∧ createOrder cuid data shop
    = (shop, inl (JsError "Some products not found"))
  ∧ post_orders cuid body shop = (shop, send_error 400 "部分產品不存在")
  ∧ updateOrder "c2" (mkUpdateOrderRequest (Some (co_items data)) None) shop
    = (shop, inl (JsError "Some products not found")).
Proof.
  intros item body data.
  destruct (duplicate_productIds_rejected cuid shop data 0 1
              (mkItem "c1" 2) (mkItem "c1" 2))
    as (_ & _ & Hcreate & Hpost & Hupdate & _).
  - repeat constructor; by eexists.
  - discriminate.
  - reflexivity.
  - reflexivity.
  - reflexivity.
  - split; [reflexivity|]. split; [by eexists|].
    split; [exact Hcreate|]. split; [apply Hpost; reflexivity|].
    apply (Hupdate "c2" (mkOrder (Some "weekend"))). reflexivity.
Defined.

(** ** Products: barcode uniqueness *)

Lemma rows_with_barcode_spec b (m : gmap string Product) k p :
  (k, p) ∈ rows_with_barcode b m ↔ m !! k = Some p ∧ barcode p = b.
Proof.
  unfold rows_with_barcode. rewrite list_elem_of_filter, elem_of_map_to_list.
  simpl. tauto.
Qed.

Lemma rows_with_barcode_nil b (m : gmap string Product) k p :
  rows_with_barcode b m = [] → m !! k = Some p → barcode p ≠ b.
Proof.
  intros Hnil Hk Hb.
  assert ((k, p) ∈ rows_with_barcode b m) as Hin
    by by apply rows_with_barcode_spec.
  rewrite Hnil in Hin. by apply not_elem_of_nil in Hin.
Qed.

Lemma other_rows_with_barcode_nil id b (m : gmap string Product) k p :
  other_rows_with_barcode id b m = [] → m !! k = Some p → k ≠ id →
  barcode p ≠ b.
Proof.
  intros Hnil Hk Hne Hb.
  assert ((k, p) ∈ other_rows_with_barcode id b m) as Hin.
  { unfold other_rows_with_barcode. apply list_elem_of_filter.
    split; [done|]. by apply rows_with_barcode_spec. }
  rewrite Hnil in Hin. by apply not_elem_of_nil in Hin.
Qed.

(** A barcode in use is found by [findUnique({ where: { barcode } })]. *)
Lemma barcode_in_use_found (m : gmap string Product) k p :
  m !! k = Some p → is_Some (head (rows_with_barcode (barcode p) m)).
Proof.
  intros Hk. destruct (rows_with_barcode (barcode p) m) eqn:Hrows.
  - by destruct (rows_with_barcode_nil _ _ _ _ Hrows Hk).
  - by eexists.
Qed.

Section Preservation.

Context (P : DB → Prop).

Lemma preserves_resolve {A} (a : A) : preserves P (resolve a).
Proof. by intros db H. Qed.

Lemma preserves_throw {A} e : preserves P (throw (A := A) e).
Proof. by intros db H. Qed.

Lemma preserves_bind {A B} (m : Async A) (k : A → Async B) :
  preserves P m → (∀ a, preserves P (k a)) → preserves P (bind m k).
Proof.
  intros Hm Hk db H. unfold bind. specialize (Hm db H).
  destruct (m db) as [db' [e|a]]; simpl in *; [done|]. by apply Hk.
Qed.

Lemma preserves_transaction {A} (body : Async A) :
  preserves P body → preserves P (transaction body).
Proof.
  intros Hm db H. unfold transaction. specialize (Hm db H).
  by destruct (body db) as [db' [e|a]].
Qed.

Lemma handle_parsing_store {A} failed (body : Async (Reply A)) db :
  (handle_parsing failed body db).1 = (body db).1.
Proof.
  unfold handle_parsing. by destruct (body db) as [db' [[]|r]].
Qed.

Lemma handle_store {A} failed (body : Async (Reply A)) db :
  (handle failed body db).1 = (body db).1.
Proof. unfold handle. by destruct (body db) as [db' [e|r]]. Qed.

Lemma preserves_parse {A} (schema : ZodSchema A) body :
  preserves P (parse schema body).
Proof. intros db H. unfold parse. by destruct (schema (Some body)). Qed.

End Preservation.

Lemma product_create_unique newId data :
  preserves barcode_unique (product_create newId data).
Proof.
  intros db H. unfold product_create.
  destruct (products db !! newId (nextId db)) eqn:Hid; [done|].
  destruct (rows_with_barcode (barcode (new_row data)) (products db))
    eqn:Hrows; [|done].
  intros i j x y. simpl.
  rewrite !lookup_insert. repeat case_decide; intros Hx Hy Hb;
    simplify_eq; try done.
  - by destruct (rows_with_barcode_nil _ _ _ _ Hrows Hy).
  - by destruct (rows_with_barcode_nil _ _ _ _ Hrows Hx).
  - by eapply H.
Qed.

Lemma product_update_unique id data :
  preserves barcode_unique (product_update id data).
Proof.
  intros db H. unfold product_update.
  destruct (products db !! id) as [p|] eqn:Hid; [|done].
  destruct (other_rows_with_barcode id (barcode (apply_patch data p))
              (products db)) eqn:Hrows; [|done].
  intros i j x y. simpl.
  rewrite !lookup_insert. repeat case_decide; intros Hx Hy Hb;
    simplify_eq; try done.
  - by destruct (other_rows_with_barcode_nil _ _ _ _ _ Hrows Hy).
  - by destruct (other_rows_with_barcode_nil _ _ _ _ _ Hrows Hx).
  - by eapply H.
Qed.

Lemma product_delete_unique onDeleteProduct id :
  preserves barcode_unique (product_delete onDeleteProduct id).
Proof.
  intros db H. unfold product_delete.
  destruct (products db !! id); [|done].
  assert (barcode_unique
            (mkDB (delete id (products db)) (orders db)
                  (filter (λ it, productId it ≠ id) (orderItems db))
                  (nextId db))) as Hdel.
  { intros i j x y. simpl. rewrite !lookup_delete.
    repeat case_decide; try done. apply H. }
  destruct (items_referencing id db), onDeleteProduct; done.
Qed.

Lemma product_updateMany_unique ids b :
  preserves barcode_unique (product_updateMany_isOrdered ids b).
Proof.
  intros db H i j x y. simpl. rewrite !map_lookup_imap.
  destruct (products db !! i) as [p|] eqn:Hi; [|done].
  destruct (products db !! j) as [q|] eqn:Hj; [|done].
  simpl. intros [= <-] [= <-] Hb. apply (H i j p q); [done..|].
  by repeat case_bool_decide.
Qed.

Lemma order_create_unique newId missing note items :
  preserves barcode_unique (order_create newId missing note items).
Proof.
  intros db H. unfold order_create.
  destruct (orders db !! _); [done|].
  by destruct (products_exist items db).
Qed.

Lemma orderItem_deleteMany_unique oid :
  preserves barcode_unique (orderItem_deleteMany oid).
Proof. by intros db H. Qed.

Lemma orderItem_createMany_unique oid items :
  preserves barcode_unique (orderItem_createMany oid items).
Proof.
  intros db H. unfold orderItem_createMany.
  destruct (orders db !! _); [|done].
  by destruct (products_exist items db).
Qed.

Lemma order_update_unique id note create :
  preserves barcode_unique (order_update id note create).
Proof.
  intros db H. unfold order_update.
  destruct (orders db !! _); [|done].
  by destruct (products_exist create db).
Qed.

Lemma product_findUnique_id_keeps P id :
  preserves P (product_findUnique_id id).
Proof. by intros db H. Qed.

Lemma product_findUnique_barcode_keeps P b :
  preserves P (product_findUnique_barcode b).
Proof. by intros db H. Qed.

Lemma product_findMany_idIn_keeps P ids :
  preserves P (product_findMany_idIn ids).
Proof. by intros db H. Qed.

Lemma product_findUnique_withItems_keeps P id :
  preserves P (product_findUnique_withItems id).
Proof. by intros db H. Qed.

Lemma order_findUnique_keeps P id : preserves P (order_findUnique id).
Proof. by intros db H. Qed.

Create HintDb store_inv.

#[local] Hint Resolve preserves_resolve preserves_throw preserves_parse
  preserves_transaction product_create_unique product_update_unique
  product_delete_unique product_updateMany_unique order_create_unique
  orderItem_deleteMany_unique orderItem_createMany_unique
  order_update_unique product_findUnique_id_keeps
  product_findUnique_barcode_keeps product_findMany_idIn_keeps
  product_findUnique_withItems_keeps order_findUnique_keeps : store_inv.

(** Walks through a function body: binds, branches, then the calls. *)
Ltac keeps_invariant :=
  repeat first
    [ solve [auto with store_inv]
    | apply preserves_bind; [|intros ?]
    | apply preserves_transaction
    | match goal with
      | |- preserves _ (match ?x with _ => _ end) => destruct x
      | |- preserves _ (if ?x then _ else _) => destruct x
      end
    | progress cbv zeta ].

Lemma createProduct_unique newId data :
  preserves barcode_unique (createProduct newId data).
Proof.
  unfold createProduct, getProductByBarcode, check_vendors. keeps_invariant.
Qed.

Lemma updateProduct_unique id data :
  preserves barcode_unique (updateProduct id data).
Proof.
  unfold updateProduct, getProductById, check_barcode_change,
    getProductByBarcode, check_vendors.
  keeps_invariant.
Qed.

Lemma deleteProduct_unique onDeleteProduct id :
  preserves barcode_unique (deleteProduct onDeleteProduct id).
Proof. unfold deleteProduct, getProductById. keeps_invariant. Qed.

Lemma createOrder_unique newId data :
  preserves barcode_unique (createOrder newId data).
Proof. unfold createOrder. keeps_invariant. Qed.

Lemma updateOrder_unique id data :
  preserves barcode_unique (updateOrder id data).
Proof. unfold updateOrder, getOrderById. keeps_invariant. Qed.

Lemma preserved {A} (P : DB → Prop) (m : Async A) db :
  preserves P m → P db → P (m db).1.
Proof. intros Hm. apply Hm. Qed.

Lemma perform_unique newId onDeleteProduct c db :
  barcode_unique db → barcode_unique (perform newId onDeleteProduct c db).
Proof.
  intros H. destruct c; cbn [perform];
    unfold post_products, put_products_id, delete_products_id, post_orders,
      put_orders_id;
    rewrite ?handle_parsing_store, ?handle_store;
    (apply preserved; [|done]).
  - apply createProduct_unique.
  - apply updateProduct_unique.
  - apply deleteProduct_unique.
  - apply createOrder_unique.
  - apply updateOrder_unique.
  - keeps_invariant.
  - unfold put_products_id_parsed. keeps_invariant.
  - keeps_invariant.
  - keeps_invariant.
  - keeps_invariant.
Qed.

Lemma run_unique newId onDeleteProduct calls db :
  barcode_unique db → barcode_unique (run newId onDeleteProduct calls db).
Proof.
  revert db. induction calls as [|c calls IH]; intros db H; simpl; [done|].
  by apply IH, perform_unique.
Qed.

Lemma empty_db_unique : barcode_unique empty_db.
Proof. intros i j p q H. simpl in H. by rewrite lookup_empty in H. Qed.

Lemma createProduct_barcode_in_use newId db id p data :
  products db !! id = Some p → cp_barcode data = barcode p →
  createProduct newId data db = (db, inl (JsError "Barcode already exists")).
Proof.
  intros Hid Hb.
  unfold createProduct, bind, getProductByBarcode, product_findUnique_barcode.
  rewrite Hb. by destruct (barcode_in_use_found _ _ _ Hid) as [row ->].
Qed.

Lemma post_products_barcode_in_use newId db id p body pd :
  products db !! id = Some p →
  createProductSchema (Some body) = Some pd → pd_barcode pd = barcode p →
  post_products newId body db = (db, send_error 400 "條碼已存在").
Proof.
  intros Hid Hparse Hb.
  unfold post_products, handle_parsing, bind, parse,
    product_findUnique_barcode.
  rewrite Hparse. simpl. rewrite Hb.
  by destruct (barcode_in_use_found _ _ _ Hid) as [row ->].
Qed.

(** C5: barcode uniqueness is an invariant: from a store in which no two
    products share a barcode, every sequence of calls (of [createProduct]
    and [updateProduct], and of every other modelled operation, through a
    service or a route) leads to a store in which no two products share a
    barcode. In any such store a create with a barcode already in use
    fails with a conflict ("Barcode already exists" from the service, 400
    from [POST /products]) and leaves the store, and so the original
    product, as it was. *)
Theorem barcode_uniqueness
    newId onDeleteProduct (db : DB) (calls : list Call) :
  barcode_unique db →
  let db' := run newId onDeleteProduct calls db in
  barcode_unique db'
  ∧ (∀ id p data,
       products db' !! id = Some p → cp_barcode data = barcode p →
       createProduct newId data db'
       = (db', inl (JsError "Barcode already exists")))
  ∧ (∀ id p body pd,
       products db' !! id = Some p →
       createProductSchema (Some body) = Some pd →
       pd_barcode pd = barcode p →
       post_products newId body db' = (db', send_error 400 "條碼已存在"))
  ∧ thrown_kind (JsError "Barcode already exists") = ConflictError
  ∧ reply_kind (send_error (A := string * Product) 400 "條碼已存在")
    = Some ConflictError.
Proof.
  intros H db'. split; [by apply run_unique|].
  split; [intros; by eapply createProduct_barcode_in_use|].
  split; [intros; by eapply post_products_barcode_in_use|done].
Qed.

Lemma barcode_uniqueness_witness :
  let data := mkCreateProductRequest "Coke" "COKE-001" 20 25
                (Some ["01"]) None None None in
  let again := mkCreateProductRequest "Cola" "COKE-001" 21 26
                 None None None None in
  let db' := run cuid Restrict [CallCreateProduct data] empty_db in
  products db' !! "c0" = Some coke
  ∧ barcode_unique db'
  ∧ createProduct cuid again db'
    = (db', inl (JsError "Barcode already exists")).
Proof.
  intros data again db'.
  destruct (barcode_uniqueness cuid Restrict empty_db
              [CallCreateProduct data] empty_db_unique)
    as (Hunique & Hcreate & _).
  split; [reflexivity|]. split; [exact Hunique|].
  apply (Hcreate "c0" coke); reflexivity.
Defined.

(** The barcode guard of [ProductService.updateProduct] is skipped for
    the empty string, which is falsy; the unique index of the store is
    then what refuses a second product with an empty barcode. *)
Example updateProduct_empty_barcode :
  let blank := mkCreateProductRequest "Loose" "" 1 2 None None None None in
  let db := run cuid Restrict [CallCreateProduct blank] shop in
  let data := mkUpdateProductRequest None (Some "") None None None None
                None None None None in
  (barcode <$> products db !! "c3") = Some ""
  ∧ updateProduct "c0" data db = (db, inl (PrismaErr P2002)).
Proof. by vm_compute. Qed.

(** ** Products: sparse update *)

Lemma sparse_default {A} (payload : option A) (old : A) :
  sparse payload old (default old payload).
Proof. by destruct payload. Qed.

(** What [prisma.product.update] does to an existing row. *)
Lemma product_update_existing db id p d :
  products db !! id = Some p →
  product_update id d db
  = match other_rows_with_barcode id (barcode (apply_patch d p))
            (products db) with
    | [] => (mkDB (<[id := apply_patch d p]> (products db)) (orders db)
                  (orderItems db) (nextId db),
             inr (id, apply_patch d p))
    | _ :: _ => (db, inl (PrismaErr P2002))
    end.
Proof. intros Hid. unfold product_update. by rewrite Hid. Qed.

(** In a store with unique barcodes, no other row has the barcode of the
    row [id]. *)
Lemma own_barcode_free db id p :
  barcode_unique db → products db !! id = Some p →
  other_rows_with_barcode id (barcode p) (products db) = [].
Proof.
  intros Hu Hid.
  destruct (other_rows_with_barcode id (barcode p) (products db))
    as [|[k q] rest] eqn:Hrows; [done|].
  assert ((k, q) ∈ other_rows_with_barcode id (barcode p) (products db))
    as Hin by (rewrite Hrows; apply list_elem_of_here).
  unfold other_rows_with_barcode in Hin.
  apply list_elem_of_filter in Hin as [Hne Hin]. simpl in Hne.
  apply rows_with_barcode_spec in Hin as [Hk Hb].
  destruct Hne. by apply (Hu k id q p).
Qed.

Lemma updateProduct_outcome db id p data :
  products db !! id = Some p →
  match updateProduct id data db with
  | (db', inr (id', p')) =>
      id' = id ∧ p' = apply_patch (updateData_of data) p
      ∧ product_replaced db id p' db'
  | (db', inl _) => db' = db
  end.
Proof.
  intros Hid.
  unfold updateProduct, bind, getProductById, product_findUnique_id.
  rewrite Hid.
  assert (∀ db0 : DB, db0 = db →
            match product_update id (updateData_of data) db0 with
            | (db', inr (id', p')) =>
                id' = id ∧ p' = apply_patch (updateData_of data) p
                ∧ product_replaced db id p' db'
            | (db', inl _) => db' = db
            end) as Hwrite.
  { intros db0 ->. rewrite (product_update_existing _ _ p) by done.
    by destruct (other_rows_with_barcode _ _ _). }
  unfold check_barcode_change, check_vendors, getProductByBarcode,
    product_findUnique_barcode, bind, resolve, throw.
  destruct (up_barcode data) as [b|]; [destruct (truthy b && _)|];
    try destruct (head _); simpl;
    try done;
    (destruct (up_vendors data) as [vs|];
       [destruct (0 <? length vs); [destruct (validateVendorIds vs)|]|]);
    simpl; try done; by apply Hwrite.
Qed.

Lemma apply_updateData_sparse data p :
  sparse_by_request data p (apply_patch (updateData_of data) p).
Proof. repeat split; apply sparse_default. Qed.

Lemma apply_updatePayload_sparse u p :
  sparse_by_body u p (apply_patch (updatePayload_of u) p).
Proof. repeat split; apply sparse_default. Qed.

(** An update that names neither a barcode nor vendors goes through. *)
Lemma updateProduct_succeeds db id p data :
  barcode_unique db → products db !! id = Some p →
  up_barcode data = None → up_vendors data = None →
  ∃ db', updateProduct id data db
         = (db', inr (id, apply_patch (updateData_of data) p)).
Proof.
  intros Hu Hid Hb Hv.
  unfold updateProduct, bind, getProductById, product_findUnique_id,
    check_barcode_change, check_vendors.
  rewrite Hid, Hb, Hv. simpl.
  rewrite (product_update_existing _ _ p) by done.
  assert (barcode (apply_patch (updateData_of data) p) = barcode p) as ->
    by (simpl; by rewrite Hb).
  rewrite own_barcode_free by done. eauto.
Qed.

Lemma put_products_id_parsed_outcome db id p u :
  products db !! id = Some p →
  match put_products_id_parsed id u db with
  | (db', inr r) =>
      match reply_data r with
      | Some (id', p') =>
          id' = id ∧ p' = apply_patch (updatePayload_of u) p
          ∧ product_replaced db id p' db'
      | None => db' = db
      end
  | (db', inl _) => db' = db
  end.
Proof.
  intros Hid.
  unfold put_products_id_parsed, bind, product_findUnique_id,
    product_findUnique_barcode.
  rewrite Hid.
  destruct (ppd_barcode u) as [b|]; [destruct (truthy b && _)|];
    try destruct (head _); simpl; try done;
    rewrite (product_update_existing _ _ p) by done;
    by destruct (other_rows_with_barcode _ _ _).
Qed.

Lemma put_products_id_parsed_succeeds db id p u :
  barcode_unique db → products db !! id = Some p →
  ppd_barcode u = None →
  ∃ db', put_products_id_parsed id u db
         = (db', inr (send_data 200
                        (id, apply_patch (updatePayload_of u) p))).
Proof.
  intros Hu Hid Hb.
  unfold put_products_id_parsed, bind, product_findUnique_id.
  rewrite Hid, Hb.
  rewrite (product_update_existing _ _ p) by done.
  assert (barcode (apply_patch (updatePayload_of u) p) = barcode p) as ->
    by (simpl; by rewrite Hb).
  rewrite own_barcode_free by done. eauto.
Qed.

(** The handler on a body: [createProductSchema.partial()] leaves an
    absent key [undefined] (Zod 3), so a body that names only some
    fields updates only those. *)
Lemma put_products_id_succeeds db id p body u :
  barcode_unique db → products db !! id = Some p →
  createProductSchema_partial (Some body) = Some u →
  ppd_barcode u = None →
  ∃ db', put_products_id id body db
         = (db', send_data 200 (id, apply_patch (updatePayload_of u) p)).
Proof.
  intros Hu Hid Hparse Hb.
  destruct (put_products_id_parsed_succeeds db id p u Hu Hid Hb)
    as [db' Hrun].
  exists db'. unfold put_products_id, handle_parsing, bind, parse.
  rewrite Hparse. simpl. by rewrite Hrun.
Qed.

(** C6: [updateProduct] is sparse. For an existing product, a call of the
    service either fails and leaves the store as it was, or returns the
    updated record, which is stored under the same id with nothing else
    touched and in which every field named by the payload has the
    payload's value and every other field its value from before the call;
    a payload that names neither barcode nor vendors (one that names only
    [sellPrice], say) always succeeds. The same holds for
    [PUT /products/:id] and the fields of its parsed body. *)
Theorem updateProduct_is_sparse
    (db : DB) (id : string) (p : Product) (data : UpdateProductRequest)
    (u : PartialProductData) :
  barcode_unique db →
  products db !! id = Some p →
  match updateProduct id data db with
  | (db', inr (id', p')) =>
      id' = id ∧ product_replaced db id p' db' ∧ sparse_by_request data p p'
  | (db', inl _) => db' = db
  end
  ∧ (up_barcode data = None → up_vendors data = None →
     ∃ db' p', updateProduct id data db = (db', inr (id, p')))
  ∧ match put_products_id_parsed id u db with
    | (db', inr r) =>
        match reply_data r with
        | Some (id', p') =>
            id' = id ∧ product_replaced db id p' db' ∧ sparse_by_body u p p'
        | None => db' = db
        end
    | (db', inl _) => db' = db
    end
  ∧ (ppd_barcode u = None →
     ∃ db' p', put_products_id_parsed id u db
               = (db', inr (send_data 200 (id, p')))).
Proof.
  intros Hu Hid. repeat split.
  - pose proof (updateProduct_outcome db id p data Hid) as H.
    destruct (updateProduct id data db) as [db' [e|[id' p']]]; [done|].
    destruct H as (-> & -> & Hrep).
    split; [done|]. split; [done|]. apply apply_updateData_sparse.
  - intros Hb Hv.
    destruct (updateProduct_succeeds db id p data Hu Hid Hb Hv) as [db' H].
    eauto.
  - pose proof (put_products_id_parsed_outcome db id p u Hid) as H.
    destruct (put_products_id_parsed id u db) as [db' [e|r]]; [done|].
    destruct (reply_data r) as [[id' p']|]; [|done].
    destruct H as (-> & -> & Hrep).
    split; [done|]. split; [done|]. apply apply_updatePayload_sparse.
  - intros Hb.
    destruct (put_products_id_parsed_succeeds db id p u Hu Hid Hb)
      as [db' H].
    eauto.
Qed.

Lemma shop_unique : barcode_unique shop.
Proof.
  intros i j p q. unfold shop. simpl. rewrite !lookup_insert, !lookup_empty.
  repeat case_decide; intros; by simplify_eq.
Qed.

Lemma updateProduct_is_sparse_witness :
  let data := mkUpdateProductRequest None None None (Some 30%Q) None None
                None None None None in
  let u := mkPartialProductData None None None (Some 30%Q) None None
             None None None in
  let unchanged (p' : Product) :=
    name p' = name coke ∧ barcode p' = barcode coke
    ∧ costPrice p' = costPrice coke ∧ status p' = status coke
    ∧ isOrdered p' = isOrdered coke ∧ tags p' = tags coke
    ∧ vendors p' = vendors coke ∧ note p' = note coke
    ∧ imagePath p' = imagePath coke in
  products shop !! "c0" = Some coke
  ∧ (∃ db' p',
       updateProduct "c0" data shop = (db', inr ("c0", p'))
       ∧ products db' !! "c0" = Some p'
       ∧ sellPrice p' = 30%Q ∧ unchanged p')
  ∧ (∃ db' p',
       put_products_id_parsed "c0" u shop
       = (db', inr (send_data 200 ("c0", p')))
       ∧ products db' !! "c0" = Some p'
       ∧ sellPrice p' = 30%Q ∧ unchanged p').
Proof.
  intros data u unchanged. split; [reflexivity|].
  destruct (updateProduct_is_sparse shop "c0" coke data u
              shop_unique eq_refl)
    as (Hservice & Hsucceeds & Hroute & Hanswers).
  split.
  - destruct (Hsucceeds eq_refl eq_refl) as (db' & p' & Hrun).
    rewrite Hrun in Hservice.
    destruct Hservice as (_ & (Hproducts & _) & Hsparse).
    exists db', p'. split; [exact Hrun|].
    split; [rewrite Hproducts; apply lookup_insert_eq|].
    unfold sparse_by_request in Hsparse. simpl in Hsparse.
    unfold unchanged. tauto.
  - destruct (Hanswers eq_refl) as (db' & p' & Hrun).
    rewrite Hrun in Hroute. simpl in Hroute.
    destruct Hroute as (_ & (Hproducts & _) & Hsparse).
    exists db', p'. split; [exact Hrun|].
    split; [rewrite Hproducts; apply lookup_insert_eq|].
    unfold sparse_by_body in Hsparse. simpl in Hsparse.
    unfold unchanged. tauto.
Defined.

(** The same update through the handler, from the body. *)
Example put_products_id_sellPrice_only :
  (put_products_id "c0" (JObj [("sellPrice", JNum 30)]) shop).2
  = send_data 200
      ("c0", mkProduct "Coke" "COKE-001" 20 30 ACTIVE false [] ["01"]
               None None).
Proof. by vm_compute. Qed.

(** ** Products: the vendor check of [createProduct] *)

Lemma validateVendorIds_unknown vs bad :
  bad ∈ vs → bad ∉ VENDORS.*1 → validateVendorIds vs = false.
Proof.
  intros Hin Hbad. unfold validateVendorIds.
  destruct (length vs =? 0); [done|].
  destruct (forallb _ vs) eqn:Hall; [|done].
  rewrite forallb_forall in Hall.
  apply list_elem_of_In, Hall, bool_decide_eq_true in Hin. done.
Qed.

Lemma validateVendorIds_known vs :
  vs ≠ [] → Forall (λ v, v ∈ VENDORS.*1) vs → validateVendorIds vs = true.
Proof.
  intros Hne Hall. unfold validateVendorIds.
  destruct vs as [|v vs]; [done|]. simpl length. cbn [Nat.eqb].
  apply forallb_forall. intros x Hx. apply bool_decide_eq_true.
  rewrite Forall_forall in Hall. by apply Hall, list_elem_of_In.
Qed.

(** With a free barcode, [createProduct] is its vendor guard followed by
    the write. *)
Lemma createProduct_barcode_free newId db data :
  rows_with_barcode (cp_barcode data) (products db) = [] →
  createProduct newId data db
  = (await _ <- check_vendors (cp_vendors data);
     product_create newId
       (mkProductCreateInput (cp_name data) (cp_barcode data)
          (cp_costPrice data) (cp_sellPrice data)
          (default [] (cp_vendors data)) (or_null (cp_imagePath data))
          None (default [] (cp_tags data)) (cp_note data))) db.
Proof.
  intros Hfree.
  unfold createProduct, getProductByBarcode, product_findUnique_barcode.
  unfold bind at 1. by rewrite Hfree.
Qed.

Lemma product_create_fresh newId db data :
  products db !! newId (nextId db) = None →
  rows_with_barcode (pc_barcode data) (products db) = [] →
  product_create newId data db
  = (mkDB (<[newId (nextId db) := new_row data]> (products db)) (orders db)
          (orderItems db) (S (nextId db)),
     inr (newId (nextId db), new_row data)).
Proof.
  intros Hid Hfree. unfold product_create.
  change (barcode (new_row data)) with (pc_barcode data).
  by rewrite Hid, Hfree.
Qed.

(** A vendor list inside the registry passes the check. *)
Lemma createProduct_known_vendors newId db data vs :
  rows_with_barcode (cp_barcode data) (products db) = [] →
  cp_vendors data = Some vs → vs ≠ [] →
  Forall (λ v, v ∈ VENDORS.*1) vs →
  products db !! newId (nextId db) = None →
  ∃ db' p, createProduct newId data db = (db', inr (newId (nextId db), p))
           ∧ products db' !! newId (nextId db) = Some p
           ∧ vendors p = vs.
Proof.
  intros Hfree Hvs Hne Hall Hid.
  rewrite createProduct_barcode_free by done.
  unfold bind, check_vendors. rewrite Hvs.
  rewrite validateVendorIds_known by done.
  destruct vs as [|v vs]; [done|]. simpl.
  rewrite product_create_fresh by done.
  eexists _, _. split; [reflexivity|]. simpl.
  split; [apply lookup_insert_eq|done].
Qed.

(** The vendor check of [ProductService.createProduct]: the barcode is
    checked first, so the vendor check decides only for a barcode that
    is not in use. Then a [createProduct] call whose vendor list names an id outside the
    registry throws "Invalid vendor IDs", a validation error, and the
    store is left as it was; and a call whose vendor list is empty or
    absent runs no vendor check, it is the bare write, which (the new id
    being free) stores the product with an empty vendor list. *)
Lemma createProduct_vendor_check
    newId (db : DB) (data : CreateProductRequest) :
  rows_with_barcode (cp_barcode data) (products db) = [] →
  (∀ vs bad,
     cp_vendors data = Some vs → bad ∈ vs → bad ∉ VENDORS.*1 →
     createProduct newId data db = (db, inl (JsError "Invalid vendor IDs")))
  ∧ thrown_kind (JsError "Invalid vendor IDs") = ValidationError
  ∧ (default [] (cp_vendors data) = [] →
     let input := mkProductCreateInput (cp_name data) (cp_barcode data)
                    (cp_costPrice data) (cp_sellPrice data) []
                    (or_null (cp_imagePath data)) None
                    (default [] (cp_tags data)) (cp_note data) in
     createProduct newId data db = product_create newId input db
     ∧ (products db !! newId (nextId db) = None →
        ∃ db' p, createProduct newId data db
                 = (db', inr (newId (nextId db), p))
                 ∧ products db' = <[newId (nextId db) := p]> (products db)
                 ∧ vendors p = [])).
Proof.
  intros Hfree. split; [|split; [done|]].
  - intros vs bad Hvs Hin Hbad.
    rewrite createProduct_barcode_free by done.
    unfold bind, check_vendors. rewrite Hvs.
    destruct vs as [|v vs]; [by apply not_elem_of_nil in Hin|].
    simpl. by rewrite (validateVendorIds_unknown _ bad).
  - intros Hempty input.
    assert (createProduct newId data db = product_create newId input db)
      as Heq.
    { rewrite createProduct_barcode_free by done.
      unfold bind, check_vendors. subst input. rewrite Hempty.
      destruct (cp_vendors data) as [vs|]; [|done].
      simpl in Hempty. by subst vs. }
    split; [done|]. intros Hid. rewrite Heq.
    rewrite product_create_fresh by done. eauto.
Qed.

Lemma createProduct_vendor_check_witness :
  let bad := mkCreateProductRequest "Tea" "TEA-001" 10 15 (Some ["01"; "99"])
               None None None in
  let plain := mkCreateProductRequest "Tea" "TEA-001" 10 15 None
                 None None None in
  ("99" ∉ VENDORS.*1)
  ∧ createProduct cuid bad shop = (shop, inl (JsError "Invalid vendor IDs"))
  ∧ ∃ db' p, createProduct cuid plain shop = (db', inr ("c3", p))
             ∧ products db' !! "c3" = Some p ∧ vendors p = [].
Proof.
  intros bad plain.
  assert ("99" ∉ VENDORS.*1) as Hunknown
    by (apply (bool_decide_unpack _); by vm_compute).
  split; [exact Hunknown|]. split.
  - destruct (createProduct_vendor_check cuid shop bad eq_refl)
      as (Hreject & _).
    apply (Hreject ["01"; "99"] "99"); [reflexivity| |exact Hunknown].
    apply list_elem_of_further, list_elem_of_here.
  - destruct (createProduct_vendor_check cuid shop plain eq_refl)
      as (_ & _ & Hplain).
    destruct (Hplain eq_refl) as (_ & Hstored).
    destruct (Hstored eq_refl) as (db' & p & Hrun & Hproducts & Hvendors).
    exists db', p. split; [exact Hrun|].
    split; [rewrite Hproducts; apply lookup_insert_eq|exact Hvendors].
Defined.

(** The order of the guards: a call with a vendor id outside the
    registry and a barcode that is already in use fails with a conflict,
    not with a validation error. *)
Lemma createProduct_vendor_check_counterexample :
  let data := mkCreateProductRequest "Cola" "COKE-001" 21 26 (Some ["99"])
                None None None in
  cp_vendors data = Some ["99"]
  ∧ ("99" ∉ VENDORS.*1)
  ∧ createProduct cuid data shop
    = (shop, inl (JsError "Barcode already exists"))
  ∧ thrown_kind (JsError "Barcode already exists") ≠ ValidationError.
Proof.
  intros data. split; [reflexivity|].
  split; [apply (bool_decide_unpack _); by vm_compute|].
  split; [|discriminate].
  by apply (createProduct_barcode_in_use cuid shop "c0" coke).
Qed.

(** [POST /products] stores the vendor ids of the body as they come: the
    handler never consults the registry. *)
Lemma post_products_stores_unknown_vendor :
  let body := JObj [("name", JStr "Tea"); ("barcode", JStr "TEA-001");
                    ("costPrice", JNum 10); ("sellPrice", JNum 15);
                    ("vendorIds", JArr [JStr "99"])] in
  let p := mkProduct "Tea" "TEA-001" 10 15 ACTIVE false [] ["99"] None None in
  (post_products cuid body shop).2 = send_data 201 ("c3", p)
  ∧ products (post_products cuid body shop).1 !! "c3" = Some p.
Proof. by vm_compute. Qed.

(** C7 holds for [ProductService.createProduct] and fails for
    [POST /products]: a new product with a free barcode and the vendor
    id "99", which is not in the registry, is turned away by the service
    with "Invalid vendor IDs", a validation error, and nothing is
    stored; the handler, which never consults the registry, answers 201
    and stores the product with the unknown vendor id. *)
Theorem post_products_skips_vendor_check :
  let data := mkCreateProductRequest "Tea" "TEA-001" 10 15 (Some ["99"])
                None None None in
  let body := JObj [("name", JStr "Tea"); ("barcode", JStr "TEA-001");
                    ("costPrice", JNum 10); ("sellPrice", JNum 15);
                    ("vendorIds", JArr [JStr "99"])] in
  let p := mkProduct "Tea" "TEA-001" 10 15 ACTIVE false [] ["99"] None None in
  validateVendorIds ["99"] = false
  ∧ rows_with_barcode "TEA-001" (products shop) = []
  ∧ createProduct cuid data shop = (shop, inl (JsError "Invalid vendor IDs"))
  ∧ thrown_kind (JsError "Invalid vendor IDs") = ValidationError
  ∧ pd_vendorIds <$> createProductSchema (Some body) = Some ["99"]
  ∧ (post_products cuid body shop).2 = send_data 201 ("c3", p)
  ∧ products (post_products cuid body shop).1 !! "c3" = Some p
  ∧ vendors p = ["99"].
Proof. by vm_compute. Qed.

(** ** Orders: validation of the quantity *)

Lemma orderItemSchema_accepts v item :
  orderItemSchema (Some v) = Some item → (0 < ci_quantity item)%Q.
Proof.
  unfold orderItemSchema. destruct v as [| | | | |o]; try done.
  destruct (z_min1 z_string (get "productId" o)) as [pid|]; [|done]. simpl.
  unfold z_positive, z_number.
  destruct (get "quantity" o) as [[| |q| | |]|]; try done. simpl.
  destruct (0 <? Qnum q)%Z eqn:Hq; [|done]. intros [= <-]. simpl.
  apply Z.ltb_lt in Hq. unfold Qlt. simpl. lia.
Qed.

Lemma orderItemSchema_rejects o q :
  get "quantity" o = Some (JNum q) → (q <= 0)%Q →
  orderItemSchema (Some (JObj o)) = None.
Proof.
  intros Hget Hq. unfold orderItemSchema.
  destruct (z_min1 z_string (get "productId" o)) as [pid|]; [|done]. simpl.
  unfold z_positive, z_number. rewrite Hget. simpl.
  destruct (0 <? Qnum q)%Z eqn:Hpos; [|done].
  apply Z.ltb_lt in Hpos. unfold Qle in Hq. simpl in Hq. lia.
Qed.

Lemma items_accepted l items :
  z_nonempty (z_array orderItemSchema) (Some (JArr l)) = Some items →
  Forall (λ item, (0 < ci_quantity item)%Q) items.
Proof.
  unfold z_nonempty, z_array. simpl.
  destruct (mapM _ l) as [parsed|] eqn:Hl; [|done]. simpl. intros H.
  assert (parsed = items) as <-
    by (destruct parsed; simpl in H; [done|by injection H]).
  clear H. apply mapM_Some_1 in Hl.
  induction Hl as [|x y l parsed Hxy _ IH]; constructor; [|done].
  by eapply orderItemSchema_accepts.
Qed.

Lemma items_rejected l o q :
  JObj o ∈ l → get "quantity" o = Some (JNum q) → (q <= 0)%Q →
  z_nonempty (z_array orderItemSchema) (Some (JArr l)) = None.
Proof.
  intros Hin Hget Hq. unfold z_nonempty, z_array. cbv beta iota.
  assert (mapM (λ x, orderItemSchema (Some x)) l = None) as ->; [|done].
  apply mapM_None_2, Exists_exists. exists (JObj o).
  split; [done|]. by eapply orderItemSchema_rejects.
Qed.

(** C9, as the code has it: [z.number().positive()] asks for a positive
    number, not for an integer. Every item that the schema of
    [POST /orders] or of [PUT /orders/:id] accepts has a quantity greater
    than zero; and a body in which some item has a quantity that is zero
    or negative is rejected by both handlers with the 400 of a validation
    error before the store is read or written. *)
Theorem quantity_validated newId (db : DB) (id : string) (body : JSON) :
  (∀ data, createOrderSchema (Some body) = Some data →
     Forall (λ item, (0 < ci_quantity item)%Q) (co_items data))
  ∧ (∀ data items,
       createOrderSchema_partial (Some body) = Some data →
       uo_items data = Some items →
       Forall (λ item, (0 < ci_quantity item)%Q) items)
  ∧ (∀ members l o q,
       body = JObj members → get "items" members = Some (JArr l) →
       JObj o ∈ l → get "quantity" o = Some (JNum q) → (q <= 0)%Q →
       post_orders newId body db = (db, send_error 400 "驗證錯誤")
       ∧ put_orders_id id body db = (db, send_error 400 "驗證錯誤"))
  ∧ reply_kind (send_error (A := OrderWithItems) 400 "驗證錯誤")
    = Some ValidationError.
Proof.
  split; [|split; [|split; [|done]]].
  - intros data. unfold createOrderSchema.
    destruct body as [| | | | |members]; try done.
    destruct (z_optional z_string (get "note" members)) as [note|]; [|done].
    simpl.
    destruct (get "items" members) as [[| | | |l|]|] eqn:Hitems; try done.
    destruct (z_nonempty _ _) as [items|] eqn:Hparse; [|done].
    intros [= <-]. simpl. by eapply items_accepted.
  - intros data items. unfold createOrderSchema_partial.
    destruct body as [| | | | |members]; try done.
    destruct (z_optional (z_optional z_string) (get "note" members))
      as [note|]; [|done].
    simpl. unfold z_optional at 1.
    destruct (get "items" members) as [[| | | |l|]|] eqn:Hitems; try done.
    + destruct (z_nonempty _ _) as [parsed|] eqn:Hparse; [|done].
      simpl. intros [= <-]. simpl. intros [= <-]. by eapply items_accepted.
    + simpl. by intros [= <-].
  - intros members l o q -> Hitems Hin Hget Hq.
    pose proof (items_rejected l o q Hin Hget Hq) as Hrej.
    split.
    + unfold post_orders, handle_parsing, bind, parse, createOrderSchema.
      destruct (z_optional z_string (get "note" members)); [|done].
      simpl. by rewrite Hitems, Hrej.
    + unfold put_orders_id, handle_parsing, bind, parse,
        createOrderSchema_partial.
      destruct (z_optional (z_optional z_string) (get "note" members));
        [|done].
      simpl. unfold z_optional at 1. by rewrite Hitems, Hrej.
Qed.

Lemma quantity_validated_witness :
  let item := [("productId", JStr "c1"); ("quantity", JNum 0)] in
  let body := JObj [("items", JArr [JObj item])] in
  (0 <= 0)%Q
  ∧ post_orders cuid body shop = (shop, send_error 400 "驗證錯誤")
  ∧ put_orders_id "c2" body shop = (shop, send_error 400 "驗證錯誤").
Proof.
  intros item body.
  destruct (quantity_validated cuid shop "c2" body) as (_ & _ & Hreject & _).
  split; [discriminate|].
  apply (Hreject [("items", JArr [JObj item])] [JObj item] item 0%Q);
    try reflexivity.
  - apply list_elem_of_here.
  - discriminate.
Defined.

(** C9 as stated fails: a quantity of one half is positive and not an
    integer; the schema accepts it, and [POST /orders] does not answer
    the validation error. *)
Lemma quantity_validated_counterexample :
  let item := [("productId", JStr "c1"); ("quantity", JNum (1 # 2))] in
  let body := JObj [("items", JArr [JObj item])] in
  (∀ z : Z, ¬ (1 # 2 == inject_Z z)%Q)
  ∧ createOrderSchema (Some body)
    = Some (mkCreateOrderRequest [mkItem "c1" (1 # 2)] None)
  ∧ (post_orders cuid body shop).2 ≠ send_error 400 "驗證錯誤".
Proof.
  intros item body. split; [|split; [reflexivity|]].
  - intros z. unfold Qeq. simpl. lia.
  - by vm_compute.
Qed.

(** ** Orders: replacing the items of an order *)

Lemma products_exist_true items db :
  Forall (λ item, is_Some (products db !! ci_productId item)) items →
  products_exist items db = true.
Proof.
  intros Hall. unfold products_exist. apply forallb_forall.
  intros item Hin. apply bool_decide_eq_true.
  rewrite Forall_forall in Hall. by apply Hall, list_elem_of_In.
Qed.

Lemma products_exist_false items db item :
  item ∈ items → products db !! ci_productId item = None →
  products_exist items db = false.
Proof.
  intros Hin Hmiss. unfold products_exist.
  destruct (forallb _ items) eqn:Hall; [|done].
  rewrite forallb_forall in Hall.
  apply list_elem_of_In, Hall, bool_decide_eq_true in Hin.
  rewrite Hmiss in Hin. by destruct Hin.
Qed.

(** After the old rows of an order are deleted and new ones appended, the
    order owns exactly the new rows. *)
Lemma replaced_items id old items :
  filter (λ it, orderId it = id)
         (filter (λ it, orderId it ≠ id) old ++ item_rows id items)%list
  = item_rows id items.
Proof.
  rewrite filter_app.
  assert (filter (λ it, orderId it = id) (filter (λ it, orderId it ≠ id) old)
          = []) as ->.
  { induction old as [|it old IH]; [done|].
    rewrite (filter_cons (λ it, orderId it ≠ id)).
    destruct (decide (orderId it ≠ id)); [|done].
    rewrite filter_cons. by destruct (decide (orderId it = id)). }
  simpl. unfold item_rows.
  induction items as [|item items IH]; [done|].
  rewrite fmap_cons, filter_cons. simpl.
  destruct (decide (id = id)); [|done]. by rewrite IH.
Qed.

(** [OrderService.updateOrder] with items: the items are replaced, and
    the note becomes [data.note ?? null], present or not. *)
Lemma updateOrder_replaces db id o data items :
  orders db !! id = Some o → uo_items data = Some items →
  NoDup (ci_productId <$> items) →
  Forall (λ item, is_Some (products db !! ci_productId item)) items →
  ∃ db' r,
    updateOrder id data db = (db', inr r)
    ∧ items_of id db' = item_rows id items
    ∧ orders db' !! id = Some (mkOrder (uo_note data))
    ∧ products db' = products db.
Proof.
  intros Ho Hitems Hnd Hall.
  unfold updateOrder, bind, getOrderById, order_findUnique,
    product_findMany_idIn.
  rewrite Ho, Hitems. simpl.
  rewrite check_passes; [|done|].
  2:{ intros k Hk. apply list_elem_of_fmap in Hk as (item & -> & Hin).
      rewrite Forall_forall in Hall. by apply Hall. }
  unfold transaction, orderItem_deleteMany, order_update. simpl.
  rewrite Ho. unfold products_exist at 1. simpl.
  fold (products_exist items db). rewrite products_exist_true by done.
  eexists _, _. split; [reflexivity|]. simpl.
  split; [apply replaced_items|]. split; [apply lookup_insert_eq|done].
Qed.

(** [PUT /orders/:id] with items: the items are replaced, and the note
    changes only when the body has one. *)
Lemma put_orders_id_replaces db id o body data items :
  orders db !! id = Some o →
  createOrderSchema_partial (Some body) = Some data →
  uo_items data = Some items →
  Forall (λ item, is_Some (products db !! ci_productId item)) items →
  ∃ db' r,
    put_orders_id id body db = (db', send_data 200 r)
    ∧ items_of id db' = item_rows id items
    ∧ orders db' !! id
      = Some (mkOrder match uo_note data with
                      | Some n => or_null (Some n)
                      | None => o_note o
                      end)
    ∧ products db' = products db.
Proof.
  intros Ho Hparse Hitems Hall.
  unfold put_orders_id, handle_parsing, bind, parse, order_findUnique.
  rewrite Hparse. simpl. rewrite Ho, Hitems. simpl.
  unfold transaction, bind, orderItem_deleteMany, orderItem_createMany,
    order_update.
  simpl. rewrite Ho. unfold products_exist at 1. simpl.
  fold (products_exist items db). rewrite products_exist_true by done.
  simpl. rewrite Ho. simpl.
  eexists _, _. split; [reflexivity|]. simpl. rewrite app_nil_r.
  split; [apply replaced_items|].
  split; [rewrite lookup_insert_eq; by destruct (uo_note data)|done].
Qed.

(** C2 holds for [PUT /orders/:id] and fails for the service: on the
    order "c2" of the sample store, whose note is "weekend", an update
    that supplies items and no note replaces the items in both; the
    handler keeps the note, [OrderService.updateOrder] writes [null]
    over it. *)
Theorem updateOrder_clears_omitted_note :
  let data := mkUpdateOrderRequest (Some [mkItem "c1" 2]) None in
  let body := JObj [("items", JArr [JObj [("productId", JStr "c1");
                                          ("quantity", JNum 2)]])] in
  let after := mkOrderWithItems "c2" None [mkOrderItem "c2" "c1" 2] in
  let kept := mkOrderWithItems "c2" (Some "weekend")
                [mkOrderItem "c2" "c1" 2] in
  createOrderSchema_partial (Some body) = Some data
  ∧ orders shop !! "c2" = Some (mkOrder (Some "weekend"))
  ∧ (updateOrder "c2" data shop).2 = inr after
  ∧ items_of "c2" (updateOrder "c2" data shop).1 = [mkOrderItem "c2" "c1" 2]
  ∧ orders (updateOrder "c2" data shop).1 !! "c2" = Some (mkOrder None)
  ∧ (put_orders_id "c2" body shop).2 = send_data 200 kept
  ∧ orders (put_orders_id "c2" body shop).1 !! "c2"
    = Some (mkOrder (Some "weekend")).
Proof. by vm_compute. Qed.

(** ** Orders: referential integrity on update *)

(** The service checks the products before it writes. *)
Lemma updateOrder_missing_product db id o data items item :
  orders db !! id = Some o → uo_items data = Some items →
  item ∈ items → products db !! ci_productId item = None →
  updateOrder id data db = (db, inl (JsError "Some products not found")).
Proof.
  intros Ho Hitems Hin Hmiss. eapply updateOrder_short; [done..|].
  apply (found_length_missing _ _ (ci_productId item)); [|done].
  by apply list_elem_of_fmap_2.
Qed.

(** The handler does not: it deletes and inserts inside the transaction,
    the insert fails on the foreign key, the transaction is rolled back,
    and the reply is the 500 of a failed update. *)
Lemma put_orders_id_missing_product db id o body data items item :
  orders db !! id = Some o →
  createOrderSchema_partial (Some body) = Some data →
  uo_items data = Some items →
  item ∈ items → products db !! ci_productId item = None →
  put_orders_id id body db = (db, send_error 500 "更新訂單失敗").
Proof.
  intros Ho Hparse Hitems Hin Hmiss.
  unfold put_orders_id, handle_parsing, bind, parse, order_findUnique.
  rewrite Hparse. simpl. rewrite Ho, Hitems. simpl.
  unfold transaction, bind, orderItem_deleteMany, orderItem_createMany.
  simpl. rewrite Ho. unfold products_exist at 1. simpl.
  fold (products_exist items db).
  by rewrite (products_exist_false _ _ item).
Qed.

(** C3 holds for the service and fails for [PUT /orders/:id]: on the
    sample store, an update of the order "c2" whose only item names a
    product that does not exist is refused by
    [OrderService.updateOrder] with the validation error; the handler
    runs no existence check, and answers the 500 of a failed write (a
    persistence error) once the transaction has been rolled back. Both
    leave the store as it was. *)
Theorem put_orders_id_skips_existence_check :
  let data := mkUpdateOrderRequest (Some [mkItem "nonexistent" 1]) None in
  let body := JObj [("items", JArr [JObj [("productId", JStr "nonexistent");
                                          ("quantity", JNum 1)]])] in
  createOrderSchema_partial (Some body) = Some data
  ∧ products shop !! "nonexistent" = None
  ∧ updateOrder "c2" data shop
    = (shop, inl (JsError "Some products not found"))
  ∧ put_orders_id "c2" body shop = (shop, send_error 500 "更新訂單失敗")
  ∧ reply_kind (send_error (A := OrderWithItems) 500 "更新訂單失敗")
    = Some PersistenceError.
Proof.
  intros data body. split; [reflexivity|]. split; [reflexivity|].
  split; [|split; [|reflexivity]].
  - apply (updateOrder_missing_product shop "c2" (mkOrder (Some "weekend"))
             data [mkItem "nonexistent" 1] (mkItem "nonexistent" 1));
      try reflexivity.
    apply list_elem_of_here.
  - apply (put_orders_id_missing_product shop "c2" (mkOrder (Some "weekend"))
             body data [mkItem "nonexistent" 1] (mkItem "nonexistent" 1));
      try reflexivity.
    apply list_elem_of_here.
Qed.

(** ** Products: deletion while order items reference the product *)

(** [DELETE /products/:id] refuses while an order item references the
    product. *)
Lemma delete_products_id_blocked onDeleteProduct db id p item :
  products db !! id = Some p →
  item ∈ orderItems db → productId item = id →
  delete_products_id onDeleteProduct id db
  = (db, send_error 400 "無法刪除產品，該產品已有相關訂單").
Proof.
  intros Hid Hin Hitem.
  unfold delete_products_id, handle, bind, product_findUnique_withItems.
  rewrite Hid. simpl.
  destruct (items_referencing id db) as [|x rest] eqn:Hrefs; [|done].
  assert (item ∈ items_referencing id db) as Href
    by by apply list_elem_of_filter.
  rewrite Hrefs in Href. by apply not_elem_of_nil in Href.
Qed.

(** It answers 404 for an id that does not exist. *)
Lemma delete_products_id_absent onDeleteProduct db id :
  products db !! id = None →
  delete_products_id onDeleteProduct id db = (db, send_error 404 "產品不存在").
Proof.
  intros Hid.
  unfold delete_products_id, handle, bind, product_findUnique_withItems.
  by rewrite Hid.
Qed.

(** It succeeds only when no order item references the product, and
    then the product is gone. *)
Lemma delete_products_id_success onDeleteProduct db id db' r :
  delete_products_id onDeleteProduct id db = (db', r) → success r = true →
  items_referencing id db = [] ∧ is_Some (products db !! id)
  ∧ products db' = delete id (products db).
Proof.
  unfold delete_products_id, handle, bind, product_findUnique_withItems.
  destruct (products db !! id) as [p|] eqn:Hid; simpl;
    [|by intros [= <- <-]].
  destruct (items_referencing id db) as [|x rest] eqn:Hrefs; simpl;
    [|by intros [= <- <-]].
  unfold product_delete. rewrite Hid, Hrefs. intros [= <- <-] _. eauto.
Qed.

(** Without references it does succeed. *)
Lemma delete_products_id_unreferenced onDeleteProduct db id p :
  products db !! id = Some p → items_referencing id db = [] →
  ∃ db', delete_products_id onDeleteProduct id db
         = (db', mkReply 200 true None None)
         ∧ products db' = delete id (products db).
Proof.
  intros Hid Hrefs.
  unfold delete_products_id, handle, bind, product_findUnique_withItems,
    product_delete.
  rewrite Hid. simpl. rewrite Hrefs. simpl. rewrite Hid, Hrefs. eauto.
Qed.

(** [ProductService.deleteProduct] never reports a conflict: it throws
    "Product not found" or what the store raised. *)
Lemma deleteProduct_never_conflict onDeleteProduct db id t :
  (deleteProduct onDeleteProduct id db).2 = inl t →
  thrown_kind t ≠ ConflictError.
Proof.
  unfold deleteProduct, bind, getProductById, product_findUnique_id,
    product_delete.
  destruct (products db !! id) eqn:Hid; simpl; [|by intros [= <-]].
  rewrite Hid.
  destruct (items_referencing id db), onDeleteProduct; simpl;
    intros H; by simplify_eq.
Qed.

(** C4 holds for [DELETE /products/:id] and fails for the service: in
    the sample store the product "c0" is referenced by an order item.
    The handler answers the conflict and leaves the store as it was.
    [ProductService.deleteProduct] has no check for order items: it
    calls the store, which refuses on the foreign key (a persistence
    error) or, under a cascading schema, deletes the product together
    with the order item. *)
Theorem deleteProduct_ignores_order_items :
  let blocked := send_error (A := unit) 400
                   "無法刪除產品，該產品已有相關訂單" in
  products shop !! "c0" = Some coke
  ∧ items_referencing "c0" shop = [mkOrderItem "c2" "c0" 50]
  ∧ (∀ onDeleteProduct,
       delete_products_id onDeleteProduct "c0" shop = (shop, blocked))
  ∧ reply_kind blocked = Some ConflictError
  ∧ deleteProduct Restrict "c0" shop = (shop, inl (PrismaErr P2003))
  ∧ thrown_kind (PrismaErr P2003) = PersistenceError
  ∧ (deleteProduct Cascade "c0" shop).2 = inr tt
  ∧ products (deleteProduct Cascade "c0" shop).1 !! "c0" = None
  ∧ orderItems (deleteProduct Cascade "c0" shop).1 = [].
Proof.
  intros blocked. split; [reflexivity|]. split; [reflexivity|].
  split; [|by vm_compute].
  intros onDeleteProduct.
  apply (delete_products_id_blocked _ shop "c0" coke
           (mkOrderItem "c2" "c0" 50)); try reflexivity.
  apply list_elem_of_here.
Qed.

(** ** Orders: the [isOrdered] flag *)

(** [OrderService.createOrder] never writes a product. *)
Lemma createOrder_products_untouched newId db data :
  products (createOrder newId data db).1 = products db.
Proof.
  unfold createOrder, bind, product_findMany_idIn, order_create. simpl.
  destruct (negb _); [done|].
  destruct (orders db !! _); [done|].
  by destruct (products_exist _ db).
Qed.

(** After a successful [POST /orders], every product that an item of the
    order references is flagged. *)
Lemma post_orders_marks_ordered newId db body data db' r item :
  createOrderSchema (Some body) = Some data →
  post_orders newId body db = (db', r) → success r = true →
  item ∈ co_items data →
  ∃ p, products db' !! ci_productId item = Some p ∧ isOrdered p = true.
Proof.
  intros Hparse Hrun Hok Hin. revert Hrun.
  unfold post_orders, handle_parsing, bind, parse, product_findMany_idIn.
  rewrite Hparse. simpl.
  destruct (negb _) eqn:Hcheck; simpl;
    [intros [= <- <-]; by simpl in Hok|].
  apply negb_false_iff, Nat.eqb_eq, found_length_eq in Hcheck
    as [_ Hall].
  destruct (Hall (ci_productId item)) as [p Hp];
    [by apply list_elem_of_fmap_2|].
  unfold order_create.
  destruct (orders db !! _); simpl; [intros [= <- <-]; by simpl in Hok|].
  destruct (products_exist _ db); simpl;
    [|intros [= <- <-]; by simpl in Hok].
  intros [= <- <-]. simpl. exists (set_isOrdered true p).
  split; [|done]. rewrite map_lookup_imap, Hp. simpl.
  rewrite bool_decide_eq_true_2; [done|]. by apply list_elem_of_fmap_2.
Qed.

(** C8 holds for [POST /orders] and fails for the service: an order for
    the product "c1" of the sample store, which has never been ordered,
    is created by both; the handler then flags the product,
    [OrderService.createOrder] returns with the flag still false. *)
Theorem createOrder_leaves_isOrdered :
  let data := mkCreateOrderRequest [mkItem "c1" 2] None in
  let body := JObj [("items", JArr [JObj [("productId", JStr "c1");
                                          ("quantity", JNum 2)]])] in
  let created := mkOrderWithItems "c3" None [mkOrderItem "c3" "c1" 2] in
  createOrderSchema (Some body) = Some data
  ∧ products shop !! "c1" = Some pepsi
  ∧ isOrdered pepsi = false
  ∧ (createOrder cuid data shop).2 = inr created
  ∧ products (createOrder cuid data shop).1 !! "c1" = Some pepsi
  ∧ (post_orders cuid body shop).2 = send_data 201 created
  ∧ products (post_orders cuid body shop).1 !! "c1"
    = Some (set_isOrdered true pepsi).
Proof. by vm_compute. Qed.

(** * Further properties of the services and the routes *)

(** ** The vendor registry *)

Lemma VENDORS_ids_NoDup : NoDup VENDORS.*1.
Proof. apply (bool_decide_unpack _). by vm_compute. Qed.

Lemma getVendorById_Some id v :
  getVendorById id = Some v → v ∈ VENDORS ∧ v.1 = id.
Proof.
  unfold getVendorById. intros H.
  assert (v ∈ filter (λ v, v.1 = id) VENDORS) as Hin.
  { destruct (filter _ VENDORS); [done|]. injection H as ->.
    apply list_elem_of_here. }
  apply list_elem_of_filter in Hin. tauto.
Qed.

Lemma getVendorById_known id :
  is_Some (getVendorById id) ↔ id ∈ VENDORS.*1.
Proof.
  split.
  - intros [v Hv]. apply getVendorById_Some in Hv as [Hin <-].
    by apply list_elem_of_fmap_2.
  - intros Hin. apply list_elem_of_fmap in Hin as (v & -> & Hin).
    unfold getVendorById.
    assert (v ∈ filter (λ w, w.1 = v.1) VENDORS) as Hf
      by by apply list_elem_of_filter.
    destruct (filter _ VENDORS); [by apply not_elem_of_nil in Hf|].
    by eexists.
Qed.

Lemma validateVendorIds_true_known (vendorIds : list string) (id : string) :
  validateVendorIds vendorIds = true → id ∈ vendorIds → id ∈ VENDORS.*1.
Proof.
  intros Hvalid Hin.
  destruct (decide (id ∈ VENDORS.*1)) as [|Hbad]; [done|].
  by rewrite (validateVendorIds_unknown _ id) in Hvalid.
Qed.

(** [validateVendorIds] accepts a list exactly when it is not empty and
    [getVendorById] finds every id in it. *)
Theorem validateVendorIds_iff (vendorIds : list string) :
  validateVendorIds vendorIds = true ↔
  vendorIds ≠ [] ∧ ∀ id, id ∈ vendorIds → is_Some (getVendorById id).
Proof.
  split.
  - intros Hvalid. split.
    + intros ->. done.
    + intros id Hin. apply getVendorById_known.
      by apply (validateVendorIds_true_known vendorIds).
  - intros [Hne Hall]. apply validateVendorIds_known; [done|].
    apply Forall_forall. intros id Hin. by apply getVendorById_known, Hall.
Qed.

(** [getVendorsByIds] returns the registered vendors whose id is listed,
    each once and in registry order, however the ids are ordered or
    repeated; ids outside the registry contribute nothing. *)
Theorem getVendorsByIds_spec (ids : list string) :
  sublist (getVendorsByIds ids) VENDORS
  ∧ NoDup (getVendorsByIds ids).*1
  ∧ (∀ v, v ∈ getVendorsByIds ids ↔ v.1 ∈ ids ∧ getVendorById v.1 = Some v)
  ∧ length (getVendorsByIds ids) ≤ length (remove_dups ids).
Proof.
  assert (∀ v, v ∈ VENDORS → getVendorById v.1 = Some v) as Hfind.
  { intros v Hin.
    destruct (proj2 (getVendorById_known v.1)) as [w Hw];
      [by apply list_elem_of_fmap_2|].
    rewrite Hw. f_equal.
    apply getVendorById_Some in Hw as [Hw Heq].
    pose proof VENDORS_ids_NoDup as Hnd.
    apply list_elem_of_lookup in Hin as [i Hi], Hw as [j Hj].
    assert (i = j) as ->.
    { eapply (NoDup_lookup _ i j v.1); [exact Hnd| |];
        rewrite list_lookup_fmap; [by rewrite Hi|].
      rewrite Hj. simpl. by f_equal. }
    congruence. }
  assert (NoDup (getVendorsByIds ids).*1) as Hnd.
  { eapply sublist_NoDup; [apply VENDORS_ids_NoDup|].
    apply fmap_sublist, sublist_filter. }
  split; [apply sublist_filter|]. split; [done|]. split.
  - intros v. unfold getVendorsByIds. rewrite list_elem_of_filter. split.
    + intros [Hid Hin]. split; [done|by apply Hfind].
    + intros [Hid Hv]. split; [done|].
      by apply getVendorById_Some in Hv as [? _].
  - rewrite <- (length_fmap fst (getVendorsByIds ids)).
    apply submseteq_length, NoDup_submseteq; [done|].
    intros id Hin. apply list_elem_of_fmap in Hin as (v & -> & Hv).
    apply elem_of_remove_dups.
    unfold getVendorsByIds in Hv. by apply list_elem_of_filter in Hv as [? _].
Qed.

Lemma foldl_insert_lookup (l : list (string * string))
    (m : gmap string string) id :
  NoDup l.*1 →
  foldl (λ map vendor, <[vendor.1 := vendor.2]> map) m l !! id
  = match head (filter (λ v, v.1 = id) l) with
    | Some v => Some v.2
    | None => m !! id
    end.
Proof.
  revert m. induction l as [|v l IH]; intros m Hnd; [done|].
  apply NoDup_cons in Hnd as [Hv Hnd]. simpl. rewrite IH by done.
  rewrite filter_cons. destruct (decide (v.1 = id)) as [<-|Hne]; simpl.
  - destruct (filter (λ w, w.1 = v.1) l) as [|w rest] eqn:Hf.
    + simpl. apply lookup_insert_eq.
    + exfalso. apply Hv.
      assert (w ∈ filter (λ w, w.1 = v.1) l) as Hw
        by (rewrite Hf; apply list_elem_of_here).
      apply list_elem_of_filter in Hw as [Heq Hw].
      rewrite <- Heq. by apply list_elem_of_fmap_2.
  - destruct (head _); [done|]. by apply lookup_insert_ne.
Qed.

(** The name map agrees with the lookup by id: it has an entry exactly
    for the registered ids, and the entry is the vendor's name. *)
Theorem getVendorNameMap_lookup (id : string) :
  getVendorNameMap !! id = snd <$> getVendorById id.
Proof.
  unfold getVendorNameMap, getVendorById.
  rewrite foldl_insert_lookup by apply VENDORS_ids_NoDup.
  by destruct (head _).
Qed.

(** ** Products: creation *)

Lemma check_vendors_ok vs :
  Forall (λ v, v ∈ VENDORS.*1) (default [] vs) →
  ∀ db, check_vendors vs db = (db, inr tt).
Proof.
  intros Hall db. unfold check_vendors. destruct vs as [[|v vs]|]; try done.
  simpl in *. by rewrite validateVendorIds_known.
Qed.

Lemma check_vendors_outcome vs db :
  check_vendors vs db = (db, inr tt)
  ∨ check_vendors vs db = (db, inl (JsError "Invalid vendor IDs"))
    ∧ ¬ Forall (λ v, v ∈ VENDORS.*1) (default [] vs).
Proof.
  destruct (decide (Forall (λ v, v ∈ VENDORS.*1) (default [] vs)))
    as [Hall|Hbad]; [left; by apply check_vendors_ok|right].
  split; [|done]. unfold check_vendors.
  destruct vs as [[|v vs]|]; simpl in *; try by destruct Hbad.
  destruct (validateVendorIds (v :: vs)) eqn:Hvalid; [|done].
  destruct Hbad. apply Forall_forall. intros w Hw.
  by apply (validateVendorIds_true_known (v :: vs)).
Qed.

Lemma check_vendors_bad vs db :
  ¬ Forall (λ v, v ∈ VENDORS.*1) (default [] vs) →
  check_vendors vs db = (db, inl (JsError "Invalid vendor IDs")).
Proof.
  intros Hbad.
  destruct (check_vendors_outcome vs db) as [Hok|[Hthrow _]]; [|done].
  destruct Hbad. unfold check_vendors in Hok.
  destruct vs as [[|v vs]|]; simpl in *; try by constructor.
  destruct (validateVendorIds (v :: vs)) eqn:Hvalid; [|done].
  apply Forall_forall. intros w Hw.
  by apply (validateVendorIds_true_known (v :: vs)).
Qed.

Lemma createProduct_success_needs newId (db db' : DB)
    (data : CreateProductRequest) (r : string * Product) :
  createProduct newId data db = (db', inr r) →
  rows_with_barcode (cp_barcode data) (products db) = []
  ∧ Forall (λ v, v ∈ VENDORS.*1) (default [] (cp_vendors data))
  ∧ products db !! newId (nextId db) = None.
Proof.
  intros Hrun.
  destruct (rows_with_barcode (cp_barcode data) (products db))
    as [|row rows] eqn:Hfree.
  2:{ revert Hrun.
      unfold createProduct, bind, getProductByBarcode,
        product_findUnique_barcode.
      by rewrite Hfree. }
  rewrite createProduct_barcode_free in Hrun by done.
  unfold bind in Hrun.
  destruct (check_vendors_outcome (cp_vendors data) db)
    as [Hok|[Hbad _]]; [|by rewrite Hbad in Hrun].
  rewrite Hok in Hrun. split; [done|]. split.
  - destruct (decide (Forall (λ v, v ∈ VENDORS.*1)
                        (default [] (cp_vendors data)))) as [|Hbad];
      [done|].
    destruct (check_vendors_outcome (cp_vendors data) db)
      as [_|[Hthrow _]]; [|congruence].
    exfalso. apply Hbad. unfold check_vendors in Hok.
    destruct (cp_vendors data) as [[|v vs]|]; simpl in *; try done.
    destruct (validateVendorIds (v :: vs)) eqn:Hvalid; [|done].
    apply Forall_forall. intros w Hw.
    by apply (validateVendorIds_true_known (v :: vs)).
  - unfold product_create in Hrun.
    by destruct (products db !! newId (nextId db)).
Qed.

(** The two guards of [ProductService.createProduct] and what they
    throw. "Barcode already exists" is thrown exactly when a product has
    the barcode of the request, whatever the vendor list; "Invalid
    vendor IDs" exactly when the barcode is free and the request names a
    vendor id outside the registry. Both leave the store as it was. A
    call that succeeds has passed both: its barcode was free and every
    vendor id it names is registered. What the store makes of the row
    once the guards have passed is not part of this statement. *)
Theorem createProduct_guards newId (db : DB) (data : CreateProductRequest) :
  (createProduct newId data db
   = (db, inl (JsError "Barcode already exists"))
   ↔ rows_with_barcode (cp_barcode data) (products db) ≠ [])
  ∧ (createProduct newId data db = (db, inl (JsError "Invalid vendor IDs"))
     ↔ rows_with_barcode (cp_barcode data) (products db) = []
       ∧ ¬ Forall (λ v, v ∈ VENDORS.*1) (default [] (cp_vendors data)))
  ∧ (∀ db' r, createProduct newId data db = (db', inr r) →
       rows_with_barcode (cp_barcode data) (products db) = []
       ∧ Forall (λ v, v ∈ VENDORS.*1) (default [] (cp_vendors data))).
Proof.
  split; [|split].
  - destruct (rows_with_barcode (cp_barcode data) (products db))
      as [|row rows] eqn:Hfree.
    + split; [|done]. rewrite createProduct_barcode_free by done.
      unfold bind.
      destruct (check_vendors_outcome (cp_vendors data) db)
        as [->|[-> _]]; [|done].
      unfold product_create.
      destruct (products db !! _); [done|].
      by destruct (rows_with_barcode _ _).
    + split; [done|]. intros _.
      unfold createProduct, bind, getProductByBarcode,
        product_findUnique_barcode.
      by rewrite Hfree.
  - split.
    + intros Hrun.
      destruct (rows_with_barcode (cp_barcode data) (products db))
        as [|row rows] eqn:Hfree.
      2:{ revert Hrun.
          unfold createProduct, bind, getProductByBarcode,
            product_findUnique_barcode.
          by rewrite Hfree. }
      split; [done|]. intros Hall. revert Hrun.
      rewrite createProduct_barcode_free by done. unfold bind.
      rewrite check_vendors_ok by done.
      unfold product_create.
      destruct (products db !! _); [done|].
      by destruct (rows_with_barcode _ _).
    + intros [Hfree Hbad].
      rewrite createProduct_barcode_free by done. unfold bind.
      by rewrite check_vendors_bad.
  - intros db' r Hrun.
    by destruct (createProduct_success_needs _ _ _ _ _ Hrun) as (? & ? & _).
Qed.

Lemma singleton_list {A} (l : list A) a :
  NoDup l → a ∈ l → (∀ x, x ∈ l → x = a) → l = [a].
Proof.
  intros Hnd Hin Hall. destruct l as [|x l]; [by apply not_elem_of_nil in Hin|].
  assert (x = a) as -> by (apply Hall, list_elem_of_here).
  destruct l as [|y l]; [done|].
  assert (y = a) as ->
    by (apply Hall, list_elem_of_further, list_elem_of_here).
  apply NoDup_cons in Hnd as [Hnd _]. destruct Hnd. apply list_elem_of_here.
Qed.

(** What a successful [createProduct] leaves behind: one new row, built
    from the request with the column defaults, that both
    [getProductById] and [getProductByBarcode] find afterwards; every
    other row, the orders and the order items are as before. *)
Theorem createProduct_then_get newId (db db' : DB)
    (data : CreateProductRequest) (id : string) (p : Product) :
  createProduct newId data db = (db', inr (id, p)) →
  products db !! id = None
  ∧ product_added db id p db'
  ∧ getProductById id db' = (db', inr (Some p))
  ∧ getProductByBarcode (cp_barcode data) db' = (db', inr (Some (id, p)))
  ∧ barcode p = cp_barcode data
  ∧ status p = ACTIVE ∧ isOrdered p = false
  ∧ vendors p = default [] (cp_vendors data)
  ∧ tags p = default [] (cp_tags data).
Proof.
  intros Hrun.
  destruct (createProduct_success_needs _ _ _ _ _ Hrun)
    as (Hfree & Hall & Hid).
  rewrite createProduct_barcode_free in Hrun by done. unfold bind in Hrun.
  rewrite check_vendors_ok in Hrun by done.
  rewrite product_create_fresh in Hrun by done.
  injection Hrun as <- <- <-. simpl.
  split; [done|]. split; [done|]. split.
  { unfold getProductById, product_findUnique_id. simpl.
    by rewrite lookup_insert_eq. }
  split; [|done].
  unfold getProductByBarcode, product_findUnique_barcode. simpl.
  do 2 f_equal.
  set (id := newId (nextId db)). set (input := mkProductCreateInput _ _ _ _ _ _ _ _ _).
  rewrite (singleton_list
             (rows_with_barcode (cp_barcode data)
                (<[id := new_row input]> (products db)))
             (id, new_row input)); [done| | |].
  - apply NoDup_filter, NoDup_map_to_list.
  - apply rows_with_barcode_spec. by rewrite lookup_insert_eq.
  - intros [k q] Hin. apply rows_with_barcode_spec in Hin as [Hk Hb].
    rewrite lookup_insert in Hk. case_decide; [by simplify_eq|].
    by destruct (rows_with_barcode_nil _ _ _ _ Hfree Hk).
Qed.

Lemma createProduct_then_get_witness :
  let data := mkCreateProductRequest "Tea" "TEA-001" 10 15
                (Some ["01"]) None None None in
  let p := mkProduct "Tea" "TEA-001" 10 15 ACTIVE false [] ["01"]
             None None in
  let db' := (createProduct cuid data shop).1 in
  createProduct cuid data shop = (db', inr ("c3", p))
  ∧ getProductById "c3" db' = (db', inr (Some p))
  ∧ getProductByBarcode "TEA-001" db' = (db', inr (Some ("c3", p))).
Proof.
  intros data p db'.
  assert (createProduct cuid data shop = (db', inr ("c3", p))) as Hrun
    by by vm_compute.
  destruct (createProduct_then_get cuid shop db' data "c3" p Hrun)
    as (_ & _ & Hid & Hbarcode & _).
  split; [exact Hrun|]. split; [exact Hid|exact Hbarcode].
Defined.

(** ** Products: changing the barcode *)

Lemma truthy_nonempty s : s ≠ "" → truthy s = true.
Proof.
  intros Hne. unfold truthy. apply negb_true_iff.
  by apply String.eqb_neq.
Qed.

Lemma barcode_guard_fires (b current : string) :
  b ≠ "" → b ≠ current →
  truthy b && negb (String.eqb b current) = true.
Proof.
  intros Hne Hdiff. rewrite truthy_nonempty by done. simpl.
  apply negb_true_iff. by apply String.eqb_neq.
Qed.

(** An update that moves a product onto the barcode of another product
    is refused as a conflict, by the service ("Barcode already exists")
    and by [PUT /products/:id] (400), and the store is left as it was. *)
Theorem updateProduct_barcode_taken
    (db : DB) (id other : string) (p q : Product)
    (data : UpdateProductRequest) (u : PartialProductData) :
  products db !! id = Some p → products db !! other = Some q →
  barcode q ≠ "" → barcode q ≠ barcode p →
  up_barcode data = Some (barcode q) → ppd_barcode u = Some (barcode q) →
  updateProduct id data db = (db, inl (JsError "Barcode already exists"))
  ∧ put_products_id_parsed id u db
    = (db, inr (send_error 400 "條碼已存在")).
Proof.
  intros Hid Hother Hne Hdiff Hservice Hroute. split.
  - unfold updateProduct, bind, getProductById, product_findUnique_id,
      check_barcode_change, getProductByBarcode, product_findUnique_barcode.
    rewrite Hid, Hservice. cbv beta iota.
    rewrite barcode_guard_fires by done. unfold bind. cbv beta.
    by destruct (barcode_in_use_found _ _ _ Hother) as [row ->].
  - unfold put_products_id_parsed, bind, product_findUnique_id,
      product_findUnique_barcode.
    rewrite Hid, Hroute. cbv beta iota zeta.
    rewrite barcode_guard_fires by done. unfold bind. cbv beta.
    by destruct (barcode_in_use_found _ _ _ Hother) as [row ->].
Qed.

Lemma updateProduct_barcode_taken_witness :
  let data := mkUpdateProductRequest None (Some "PEPSI-001") None None None
                None None None None None in
  let u := mkPartialProductData None (Some "PEPSI-001") None None None
             None None None None in
  updateProduct "c0" data shop
  = (shop, inl (JsError "Barcode already exists"))
  ∧ put_products_id_parsed "c0" u shop
    = (shop, inr (send_error 400 "條碼已存在")).
Proof.
  intros data u.
  apply (updateProduct_barcode_taken shop "c0" "c1" coke pepsi data u);
    try reflexivity; discriminate.
Defined.

Lemma other_rows_free id b (m : gmap string Product) :
  rows_with_barcode b m = [] → other_rows_with_barcode id b m = [].
Proof. intros H. unfold other_rows_with_barcode. by rewrite H. Qed.

(** An update that names the product's own barcode, or a barcode that no
    product has, is not taken for a conflict: with no vendors in the
    payload it succeeds, and the product carries the named barcode
    afterwards. *)
Theorem updateProduct_barcode_accepted
    (db : DB) (id : string) (p : Product) (b : string)
    (data : UpdateProductRequest) :
  barcode_unique db →
  products db !! id = Some p →
  up_barcode data = Some b → up_vendors data = None →
  b = barcode p ∨ rows_with_barcode b (products db) = [] →
  ∃ db' p',
    updateProduct id data db = (db', inr (id, p'))
    ∧ barcode p' = b
    ∧ product_replaced db id p' db'
    ∧ sparse_by_request data p p'.
Proof.
  intros Hu Hid Hb Hv Hfree.
  unfold updateProduct, bind, getProductById, product_findUnique_id.
  rewrite Hid, Hb, Hv.
  assert (check_barcode_change (Some b) p db = (db, inr tt)) as ->.
  { unfold check_barcode_change.
    destruct (truthy b && negb (String.eqb b (barcode p))) eqn:Hguard;
      [|done].
    destruct Hfree as [->|Hfree].
    - rewrite String.eqb_refl in Hguard.
      by rewrite andb_false_r in Hguard.
    - unfold bind, getProductByBarcode, product_findUnique_barcode.
      by rewrite Hfree. }
  simpl. rewrite (product_update_existing _ _ p) by done.
  assert (barcode (apply_patch (updateData_of data) p) = b) as Hnew
    by (simpl; by rewrite Hb).
  rewrite Hnew.
  assert (other_rows_with_barcode id b (products db) = []) as ->.
  { destruct Hfree as [->|Hfree];
      [by apply own_barcode_free|by apply other_rows_free]. }
  eexists _, _. split; [reflexivity|]. split; [done|].
  split; [done|]. apply apply_updateData_sparse.
Qed.

Lemma updateProduct_barcode_accepted_witness :
  let same := mkUpdateProductRequest (Some "Coca") (Some "COKE-001") None
                None None None None None None None in
  let fresh := mkUpdateProductRequest None (Some "COKE-002") None None None
                 None None None None None in
  (∃ db' p', updateProduct "c0" same shop = (db', inr ("c0", p'))
             ∧ barcode p' = "COKE-001")
  ∧ (∃ db' p', updateProduct "c0" fresh shop = (db', inr ("c0", p'))
               ∧ barcode p' = "COKE-002").
Proof.
  intros same fresh. split.
  - destruct (updateProduct_barcode_accepted shop "c0" coke "COKE-001" same
                shop_unique eq_refl eq_refl eq_refl (or_introl eq_refl))
      as (db' & p' & Hrun & Hb & _).
    by exists db', p'.
  - destruct (updateProduct_barcode_accepted shop "c0" coke "COKE-002" fresh
                shop_unique eq_refl eq_refl eq_refl (or_intror eq_refl))
      as (db' & p' & Hrun & Hb & _).
    by exists db', p'.
Defined.

(** ** Products: the single-field updates *)

(** On an existing product, [updateProductStatus] and
    [updateProductOrderStatus] always succeed (the unchanged barcode
    cannot collide in a store with unique barcodes), return the updated
    record, and change the one field they are named after: the stored
    product differs from the old one in [status], respectively
    [isOrdered], only, and no other row is touched. *)
Theorem single_field_updates
    (db : DB) (id : string) (p : Product) (s : ProductStatus) (b : bool) :
  barcode_unique db →
  products db !! id = Some p →
  (∃ db', updateProductStatus id s db = (db', inr (id, set_status s p))
          ∧ product_replaced db id (set_status s p) db')
  ∧ (∃ db', updateProductOrderStatus id b db
            = (db', inr (id, set_isOrdered b p))
            ∧ product_replaced db id (set_isOrdered b p) db').
Proof.
  intros Hu Hid. split.
  - unfold updateProductStatus, bind, getProductById, product_findUnique_id.
    rewrite Hid. rewrite (product_update_existing _ _ p) by done.
    change (apply_patch (patch_status s) p) with (set_status s p).
    change (barcode (set_status s p)) with (barcode p).
    rewrite own_barcode_free by done. by eexists.
  - unfold updateProductOrderStatus, bind, getProductById,
      product_findUnique_id.
    rewrite Hid. rewrite (product_update_existing _ _ p) by done.
    change (apply_patch (patch_isOrdered b) p) with (set_isOrdered b p).
    change (barcode (set_isOrdered b p)) with (barcode p).
    rewrite own_barcode_free by done. by eexists.
Qed.

Lemma single_field_updates_witness :
  (∃ db', updateProductStatus "c0" OUT_OF_STOCK shop
          = (db', inr ("c0", set_status OUT_OF_STOCK coke))
          ∧ products db' !! "c0" = Some (set_status OUT_OF_STOCK coke))
  ∧ (∃ db', updateProductOrderStatus "c0" true shop
            = (db', inr ("c0", set_isOrdered true coke))).
Proof.
  destruct (single_field_updates shop "c0" coke OUT_OF_STOCK true
              shop_unique eq_refl)
    as [(db1 & Hrun1 & Hproducts & _) (db2 & Hrun2 & _)].
  split.
  - exists db1. split; [exact Hrun1|].
    rewrite Hproducts. apply lookup_insert_eq.
  - exists db2. exact Hrun2.
Defined.

(** ** A target that does not exist *)

(** Every operation on a product id that is not in the store reports
    not-found and leaves the store as it was: the four service functions
    throw "Product not found", the two handlers answer 404, whatever
    the payload. *)
Theorem absent_product_not_found
    onDeleteProduct (db : DB) (id : string)
    (data : UpdateProductRequest) (u : PartialProductData)
    (s : ProductStatus) (b : bool) :
  products db !! id = None →
  updateProduct id data db = (db, inl (JsError "Product not found"))
  ∧ deleteProduct onDeleteProduct id db
    = (db, inl (JsError "Product not found"))
  ∧ updateProductStatus id s db = (db, inl (JsError "Product not found"))
  ∧ updateProductOrderStatus id b db
    = (db, inl (JsError "Product not found"))
  ∧ put_products_id_parsed id u db
    = (db, inr (send_error 404 "產品不存在"))
  ∧ delete_products_id onDeleteProduct id db
    = (db, send_error 404 "產品不存在")
  ∧ thrown_kind (JsError "Product not found") = NotFoundError
  ∧ reply_kind (send_error (A := unit) 404 "產品不存在")
    = Some NotFoundError.
Proof.
  intros Hid.
  unfold updateProduct, deleteProduct, updateProductStatus,
    updateProductOrderStatus, put_products_id_parsed, bind, getProductById,
    product_findUnique_id.
  rewrite Hid. repeat split; try done.
  by apply delete_products_id_absent.
Qed.

Lemma absent_product_not_found_witness :
  updateProductStatus "nonexistent" DISCONTINUED shop
  = (shop, inl (JsError "Product not found"))
  ∧ delete_products_id Cascade "nonexistent" shop
    = (shop, send_error 404 "產品不存在").
Proof.
  destruct (absent_product_not_found Cascade shop "nonexistent"
              (mkUpdateProductRequest None None None None None None None
                 None None None)
              (mkPartialProductData None None None None None None None
                 None None)
              DISCONTINUED true eq_refl)
    as (_ & _ & Hstatus & _ & _ & Hdelete & _).
  split; [exact Hstatus|exact Hdelete].
Defined.

(** The same for an order id that is not in the store: the services
    throw "Order not found", the handlers answer 404 ([PUT] once its
    body has passed validation), and the store is left as it was. *)
Theorem absent_order_not_found
    onDeleteOrder (db : DB) (id : string) (data : UpdateOrderRequest) :
  orders db !! id = None →
  updateOrder id data db = (db, inl (JsError "Order not found"))
  ∧ deleteOrder onDeleteOrder id db = (db, inl (JsError "Order not found"))
  ∧ (∀ body, createOrderSchema_partial (Some body) = Some data →
       put_orders_id id body db = (db, send_error 404 "訂單不存在"))
  ∧ delete_orders_id onDeleteOrder id db = (db, send_error 404 "訂單不存在")
  ∧ get_orders_id id db = (db, send_error 404 "訂單不存在")
  ∧ thrown_kind (JsError "Order not found") = NotFoundError
  ∧ reply_kind (send_error (A := unit) 404 "訂單不存在")
    = Some NotFoundError.
Proof.
  intros Hid.
  unfold updateOrder, deleteOrder, put_orders_id, delete_orders_id,
    get_orders_id, handle, handle_parsing, bind, parse, getOrderById,
    order_findUnique.
  rewrite Hid. repeat split; try done.
  intros body Hparse. rewrite Hparse. simpl. by rewrite Hid.
Qed.

Lemma absent_order_not_found_witness :
  deleteOrder Cascade "nonexistent" shop
  = (shop, inl (JsError "Order not found"))
  ∧ put_orders_id "nonexistent" (JObj [("note", JStr "late")]) shop
    = (shop, send_error 404 "訂單不存在").
Proof.
  destruct (absent_order_not_found Cascade shop "nonexistent"
              (mkUpdateOrderRequest None (Some "late")) eq_refl)
    as (_ & Hdelete & Hput & _).
  split; [exact Hdelete|]. apply Hput. reflexivity.
Defined.

(** ** A failed call leaves no trace *)

Section AllOrNothing.

Lemma aon_resolve {A} (a : A) : all_or_nothing (resolve a).
Proof. by intros db db' e [=]. Qed.

Lemma aon_throw {A} e : all_or_nothing (throw (A := A) e).
Proof. by intros db db' e' [= <- _]. Qed.

(** After steps that only read, the rest decides. *)
Lemma aon_bind {A B} (m : Async A) (k : A → Async B) :
  readonly m → (∀ a, all_or_nothing (k a)) → all_or_nothing (bind m k).
Proof.
  intros Hm Hk db db' e. unfold bind. specialize (Hm db).
  destruct (m db) as [db1 [e1|a]]; simpl in Hm; subst db1.
  - by intros [= <- _].
  - apply Hk.
Qed.

(** A transaction is all-or-nothing whatever its body does. *)
Lemma aon_transaction {A} (body : Async A) : all_or_nothing (transaction body).
Proof.
  intros db db' e. unfold transaction.
  destruct (body db) as [db1 [e1|a]]; [by intros [= <- _]|done].
Qed.

Lemma readonly_resolve {A} (a : A) : readonly (resolve a).
Proof. by intros db. Qed.

Lemma readonly_check_vendors vs : readonly (check_vendors vs).
Proof.
  intros db. unfold check_vendors.
  destruct vs as [ids|]; [|done].
  destruct (0 <? length ids); [|done]. by destruct (validateVendorIds ids).
Qed.

Lemma readonly_check_barcode_change b existing :
  readonly (check_barcode_change b existing).
Proof.
  intros db. unfold check_barcode_change, bind, getProductByBarcode,
    product_findUnique_barcode.
  destruct b as [b'|]; [|done].
  destruct (truthy b' && _); [|done]. by destruct (head _).
Qed.

Lemma aon_product_create newId data :
  all_or_nothing (product_create newId data).
Proof.
  intros db db' e. unfold product_create.
  destruct (products db !! _); [by intros [= <- _]|].
  destruct (rows_with_barcode _ _); [done|by intros [= <- _]].
Qed.

Lemma aon_product_update id data : all_or_nothing (product_update id data).
Proof.
  intros db db' e. unfold product_update.
  destruct (products db !! id); [|by intros [= <- _]].
  destruct (other_rows_with_barcode _ _ _); [done|by intros [= <- _]].
Qed.

Lemma aon_product_delete onDeleteProduct id :
  all_or_nothing (product_delete onDeleteProduct id).
Proof.
  intros db db' e. unfold product_delete.
  destruct (products db !! id); [|by intros [= <- _]].
  destruct (items_referencing id db), onDeleteProduct;
    done || by intros [= <- _].
Qed.

Lemma aon_order_create newId missing note items :
  all_or_nothing (order_create newId missing note items).
Proof.
  intros db db' e. unfold order_create.
  destruct (orders db !! _); [by intros [= <- _]|].
  destruct (products_exist items db); [done|by intros [= <- _]].
Qed.

Lemma aon_order_update id note create :
  all_or_nothing (order_update id note create).
Proof.
  intros db db' e. unfold order_update.
  destruct (orders db !! id); [|by intros [= <- _]].
  destruct (products_exist create db); [done|by intros [= <- _]].
Qed.

Lemma aon_order_delete onDeleteOrder id :
  all_or_nothing (order_delete onDeleteOrder id).
Proof.
  intros db db' e. unfold order_delete.
  destruct (orders db !! id); [|by intros [= <- _]].
  destruct (items_of id db), onDeleteOrder; done || by intros [= <- _].
Qed.

End AllOrNothing.

#[local] Hint Resolve aon_resolve aon_throw aon_transaction aon_product_create
  aon_product_update aon_product_delete aon_order_create aon_order_update
  aon_order_delete readonly_resolve readonly_check_vendors
  readonly_check_barcode_change : store_inv.

(** Walks through a service function: reads, guards, then one write or
    one transaction. *)
Ltac fails_cleanly :=
  repeat first
    [ solve [auto with store_inv]
    | solve [by intros ?]
    | apply aon_bind; [|intros ?]
    | match goal with
      | |- all_or_nothing (match ?x with _ => _ end) => destruct x
      | |- all_or_nothing (if ?x then _ else _) => destruct x
      end
    | progress cbv zeta ].

(** Every mutating function of the two services is all-or-nothing: when
    it throws, whatever it throws, the store is exactly as it was before
    the call. The guards run before the first write, and where there is
    more than one write ([updateOrder]) they share a transaction. *)
Theorem services_fail_cleanly newId onDeleteProduct onDeleteOrder :
  (∀ data, all_or_nothing (createProduct newId data))
  ∧ (∀ id data, all_or_nothing (updateProduct id data))
  ∧ (∀ id, all_or_nothing (deleteProduct onDeleteProduct id))
  ∧ (∀ id s, all_or_nothing (updateProductStatus id s))
  ∧ (∀ id b, all_or_nothing (updateProductOrderStatus id b))
  ∧ (∀ data, all_or_nothing (createOrder newId data))
  ∧ (∀ id data, all_or_nothing (updateOrder id data))
  ∧ (∀ id, all_or_nothing (deleteOrder onDeleteOrder id)).
Proof.
  repeat split; intros;
    unfold createProduct, updateProduct, deleteProduct, updateProductStatus,
      updateProductOrderStatus, createOrder, updateOrder, deleteOrder,
      getProductByBarcode, getProductById, getOrderById;
    fails_cleanly.
Qed.

Lemma services_fail_cleanly_witness :
  let data := mkUpdateOrderRequest (Some [mkItem "c1" 1; mkItem "gone" 1])
                None in
  updateOrder "c2" data shop
  = (shop, inl (JsError "Some products not found"))
  ∧ (updateOrder "c2" data shop).1 = shop.
Proof.
  intros data.
  assert (updateOrder "c2" data shop
          = (shop, inl (JsError "Some products not found"))) as Hrun
    by by vm_compute.
  split; [exact Hrun|].
  destruct (services_fail_cleanly cuid Restrict Restrict)
    as (_ & _ & _ & _ & _ & _ & Hupdate & _).
  apply (Hupdate "c2" data shop _ (JsError "Some products not found")).
  rewrite Hrun. reflexivity.
Defined.

(** ** Orders: creation *)

Lemma check_passes_iff ids (m : gmap string Product) :
  negb (length (rows_with_id_in ids m) =? length ids) = false
  ↔ NoDup ids ∧ ∀ k, k ∈ ids → is_Some (m !! k).
Proof.
  rewrite negb_false_iff, Nat.eqb_eq. apply found_length_eq.
Qed.

Lemma all_exist_iff items db :
  (∀ k, k ∈ ci_productId <$> items → is_Some (products db !! k))
  ↔ Forall (λ item, is_Some (products db !! ci_productId item)) items.
Proof.
  rewrite Forall_forall. split.
  - intros H item Hin. by apply H, list_elem_of_fmap_2.
  - intros H k Hk. apply list_elem_of_fmap in Hk as (item & -> & Hin).
    by apply H.
Qed.

Lemma createOrder_success_needs newId (db db' : DB)
    (data : CreateOrderRequest) (r : OrderWithItems) :
  createOrder newId data db = (db', inr r) →
  NoDup (ci_productId <$> co_items data)
  ∧ Forall (λ item, is_Some (products db !! ci_productId item))
           (co_items data)
  ∧ orders db !! newId (nextId db) = None.
Proof.
  unfold createOrder, bind, product_findMany_idIn, order_create.
  cbv beta iota zeta.
  destruct (negb _) eqn:Hcheck; [done|].
  apply check_passes_iff in Hcheck as [Hnd Hall].
  apply all_exist_iff in Hall.
  rewrite (products_exist_true _ _ Hall).
  by destruct (orders db !! newId (nextId db)).
Qed.

Lemma createOrder_success_given newId (db : DB) (data : CreateOrderRequest) :
  NoDup (ci_productId <$> co_items data) →
  Forall (λ item, is_Some (products db !! ci_productId item))
         (co_items data) →
  orders db !! newId (nextId db) = None →
  ∃ db' r, createOrder newId data db = (db', inr r).
Proof.
  intros Hnd Hall Hid.
  unfold createOrder, bind, product_findMany_idIn, order_create.
  cbv beta iota zeta.
  assert (negb (length (rows_with_id_in (ci_productId <$> co_items data)
                          (products db))
                =? length (ci_productId <$> co_items data)) = false)
    as -> by (apply check_passes_iff; by rewrite <- all_exist_iff in Hall).
  rewrite (products_exist_true _ _ Hall). rewrite Hid. eauto.
Qed.

(** The guard of [OrderService.createOrder] is exact: the call throws
    "Some products not found", with the store as it was, exactly when
    the product ids of the items repeat or do not all exist. An order
    whose ids are distinct and all exist is never turned away by the
    guard, and a call that succeeds has passed it. What the store makes
    of the nested write once the guard has passed is not part of this
    statement. *)
Theorem createOrder_guard newId (db : DB) (data : CreateOrderRequest) :
  (createOrder newId data db
   = (db, inl (JsError "Some products not found"))
   ↔ ¬ (NoDup (ci_productId <$> co_items data)
        ∧ Forall (λ item, is_Some (products db !! ci_productId item))
                 (co_items data)))
  ∧ (∀ db' r, createOrder newId data db = (db', inr r) →
       NoDup (ci_productId <$> co_items data)
       ∧ Forall (λ item, is_Some (products db !! ci_productId item))
                (co_items data)).
Proof.
  split.
  - unfold createOrder, bind, product_findMany_idIn, order_create.
    cbv beta iota zeta.
    destruct (negb _) eqn:Hcheck.
    + split; [|done]. intros _ [Hnd Hall].
      rewrite <- all_exist_iff in Hall.
      assert (negb (length (rows_with_id_in
                              (ci_productId <$> co_items data) (products db))
                    =? length (ci_productId <$> co_items data)) = false)
        as Hpass by by apply check_passes_iff.
      congruence.
    + apply check_passes_iff in Hcheck as [Hnd Hall].
      apply all_exist_iff in Hall.
      split; [|by intros []].
      rewrite (products_exist_true _ _ Hall).
      by destruct (orders db !! newId (nextId db)).
  - intros db' r Hrun.
    by destruct (createOrder_success_needs _ _ _ _ _ Hrun) as (? & ? & _).
Qed.

Lemma createOrder_written newId (db db' : DB)
    (data : CreateOrderRequest) (r : OrderWithItems) :
  createOrder newId data db = (db', inr r) →
  orders db' = <[newId (nextId db) := mkOrder (co_note data)]> (orders db)
  ∧ orderItems db'
    = (orderItems db ++ item_rows (newId (nextId db)) (co_items data))%list.
Proof.
  intros Hrun.
  destruct (createOrder_success_needs _ _ _ _ _ Hrun)
    as (Hnd & Hall & Hid).
  revert Hrun.
  unfold createOrder, bind, product_findMany_idIn, order_create.
  cbv beta iota zeta.
  rewrite (proj2 (check_passes_iff _ _)) by (by rewrite all_exist_iff).
  rewrite Hid, (products_exist_true _ _ Hall).
  by intros [= <- <-].
Qed.

(** What a successful [createOrder] leaves behind: one new order with
    the note of the request (or [null]); products and other orders are
    as before, and [getOrderById] returns afterwards the order that the
    call returned. For items whose quantities are whole numbers, one
    item row per submitted item is appended, in submission order and
    with the quantity as submitted, and if no stray row carried the new
    order id these rows are the items of the returned order. *)
Theorem createOrder_then_get newId (db db' : DB)
    (data : CreateOrderRequest) (r : OrderWithItems) :
  createOrder newId data db = (db', inr r) →
  let id := newId (nextId db) in
  ord_id r = id ∧ ord_note r = co_note data
  ∧ orders db' = <[id := mkOrder (co_note data)]> (orders db)
  ∧ products db' = products db
  ∧ getOrderById id db' = (db', inr (Some r))
  ∧ (whole_quantities (co_items data) →
     orderItems db' = (orderItems db ++ item_rows id (co_items data))%list
     ∧ (items_of id db = [] → ord_items r = item_rows id (co_items data))).
Proof.
  intros Hrun id.
  destruct (createOrder_success_needs _ _ _ _ _ Hrun)
    as (Hnd & Hall & Hid).
  revert Hrun.
  unfold createOrder, bind, product_findMany_idIn, order_create.
  cbv beta iota zeta.
  rewrite (proj2 (check_passes_iff _ _)) by (by rewrite all_exist_iff).
  rewrite Hid, (products_exist_true _ _ Hall).
  intros [= <- <-]. simpl. fold id.
  split; [done|]. split; [done|]. split; [done|]. split; [done|]. split.
  - unfold getOrderById, order_findUnique. simpl.
    by rewrite lookup_insert_eq.
  - intros _. split; [done|]. intros Hstray.
    unfold items_of in *. simpl. rewrite filter_app, Hstray. simpl.
    clear. unfold item_rows. induction (co_items data) as [|x l IH]; [done|].
    rewrite fmap_cons, filter_cons. simpl.
    destruct (decide (id = id)); [by rewrite IH|done].
Qed.

Lemma createOrder_then_get_witness :
  let data := mkCreateOrderRequest [mkItem "c1" 3; mkItem "c0" 1]
                (Some "restock") in
  let r := mkOrderWithItems "c3" (Some "restock")
             [mkOrderItem "c3" "c1" 3; mkOrderItem "c3" "c0" 1] in
  let db' := (createOrder cuid data shop).1 in
  createOrder cuid data shop = (db', inr r)
  ∧ getOrderById "c3" db' = (db', inr (Some r))
  ∧ orderItems db'
    = [mkOrderItem "c2" "c0" 50; mkOrderItem "c3" "c1" 3;
       mkOrderItem "c3" "c0" 1].
Proof.
  intros data r db'.
  assert (createOrder cuid data shop = (db', inr r)) as Hrun by by vm_compute.
  destruct (createOrder_then_get cuid shop db' data r Hrun)
    as (_ & _ & _ & _ & Hget & Hrows).
  split; [exact Hrun|]. split; [exact Hget|].
  destruct Hrows as [Hrows _].
  - apply Forall_cons. split; [by exists 3%Z|].
    apply Forall_cons. split; [by exists 1%Z|]. apply Forall_nil_2.
  - exact Hrows.
Defined.

(** The empty item list: [OrderService.createOrder] has no guard against
    it, the existence check compares zero with zero, and an order
    without items is created; [POST /orders] rejects a body whose
    [items] is the empty array at validation. *)
Theorem empty_order newId (db : DB) (note : option string) :
  orders db !! newId (nextId db) = None →
  (∃ db' r,
     createOrder newId (mkCreateOrderRequest [] note) db = (db', inr r)
     ∧ orders db' !! newId (nextId db) = Some (mkOrder note)
     ∧ orderItems db' = orderItems db)
  ∧ (∀ members, get "items" members = Some (JArr []) →
       post_orders newId (JObj members) db
       = (db, send_error 400 "驗證錯誤")).
Proof.
  intros Hid. split.
  - destruct (createOrder_success_given newId db
                (mkCreateOrderRequest [] note))
      as (db' & r & Hrun); [constructor|constructor|done|].
    destruct (createOrder_written _ _ _ _ _ Hrun) as (Horders & Hitems).
    exists db', r. split; [done|]. simpl in *.
    split; [rewrite Horders; apply lookup_insert_eq|].
    by rewrite Hitems, app_nil_r.
  - intros members Hitems.
    unfold post_orders, handle_parsing, bind, parse, createOrderSchema.
    destruct (z_optional z_string (get "note" members)); [|done].
    simpl. by rewrite Hitems.
Qed.

Lemma empty_order_witness :
  (∃ db' r, createOrder cuid (mkCreateOrderRequest [] None) shop
            = (db', inr r)
            ∧ orders db' !! "c3" = Some (mkOrder None))
  ∧ post_orders cuid (JObj [("items", JArr [])]) shop
    = (shop, send_error 400 "驗證錯誤").
Proof.
  destruct (empty_order cuid shop None eq_refl)
    as [(db' & r & Hrun & Horder & _) Hreject].
  split; [by exists db', r|]. apply Hreject. reflexivity.
Defined.

(** The replies of [POST /orders]. It answers 400 "validation error"
    exactly when the schema rejects the body, and 400 "some products do
    not exist" exactly when the body is valid and its product ids repeat
    or do not all exist; the store is as it was in both cases. When it
    answers 201, the body was valid and every product existed; the order
    is stored under the new id with the note of the body (an empty note
    as [null]), every product of the items is flagged as ordered, and
    for whole-number quantities the items are appended in submission
    order with the quantities as submitted. *)
Theorem post_orders_replies newId (db : DB) (body : JSON) :
  (post_orders newId body db = (db, send_error 400 "驗證錯誤")
   ↔ createOrderSchema (Some body) = None)
  ∧ (∀ data, createOrderSchema (Some body) = Some data →
       (post_orders newId body db = (db, send_error 400 "部分產品不存在")
        ↔ ¬ (NoDup (ci_productId <$> co_items data)
             ∧ Forall (λ item, is_Some (products db !! ci_productId item))
                      (co_items data))))
  ∧ (∀ db' r, post_orders newId body db = (db', send_data 201 r) →
       let id := newId (nextId db) in
       ∃ data,
         createOrderSchema (Some body) = Some data
         ∧ NoDup (ci_productId <$> co_items data)
         ∧ Forall (λ item, is_Some (products db !! ci_productId item))
                  (co_items data)
         ∧ ord_id r = id ∧ ord_note r = or_null (co_note data)
         ∧ orders db' = <[id := mkOrder (or_null (co_note data))]> (orders db)
         ∧ (whole_quantities (co_items data) →
            orderItems db'
            = (orderItems db ++ item_rows id (co_items data))%list)
         ∧ ∀ item, item ∈ co_items data →
             isOrdered <$> products db' !! ci_productId item = Some true).
Proof.
  unfold post_orders, handle_parsing, bind, parse, product_findMany_idIn.
  destruct (createOrderSchema (Some body)) as [data|] eqn:Hparse.
  2:{ split; [done|]. split; [done|]. by intros db' r [=]. }
  unfold resolve. cbv beta iota zeta.
  destruct (negb _) eqn:Hcheck.
  - split; [by split|]. split; [|by intros db' r [=]].
    intros ? [= <-]. split; [|done]. intros _ [Hnd Hall].
    rewrite <- all_exist_iff in Hall.
    assert (negb (length (rows_with_id_in
                            (ci_productId <$> co_items data) (products db))
                  =? length (ci_productId <$> co_items data)) = false)
      as Hpass by by apply check_passes_iff.
    simpl in Hcheck. congruence.
  - apply check_passes_iff in Hcheck as [Hnd Hall].
    apply all_exist_iff in Hall.
    unfold order_create.
    rewrite (products_exist_true _ _ Hall).
    destruct (orders db !! newId (nextId db)) eqn:Hid.
    + split; [by split|]. split; [|by intros db' r [=]].
      intros ? [= <-]. by split; [|intros []].
    + split; [by split|]. split.
      * intros ? [= <-]. by split; [|intros []].
      * intros db' r [= <- <-]. exists data. simpl.
        repeat split; try done.
        intros item Hin. rewrite map_lookup_imap.
        rewrite Forall_forall in Hall. destruct (Hall item Hin) as [p ->].
        simpl. rewrite bool_decide_eq_true_2; [done|].
        by apply list_elem_of_fmap_2.
Qed.

Lemma post_orders_replies_witness :
  let body := JObj [("note", JStr "");
                    ("items", JArr [JObj [("productId", JStr "c1");
                                          ("quantity", JNum 3)]])] in
  let db' := (post_orders cuid body shop).1 in
  statusCode (post_orders cuid body shop).2 = 201
  ∧ orders db' !! "c3" = Some (mkOrder None)
  ∧ orderItems db'
    = [mkOrderItem "c2" "c0" 50; mkOrderItem "c3" "c1" 3]
  ∧ isOrdered <$> products db' !! "c1" = Some true.
Proof.
  intros body db'.
  destruct (post_orders cuid body shop) as [db1 reply] eqn:Hrun.
  assert (∃ r, reply = send_data 201 r) as [r ->]
    by (vm_compute in Hrun; injection Hrun as _ <-; by eexists).
  destruct (post_orders_replies cuid shop body) as (_ & _ & Hok).
  destruct (Hok db1 r Hrun)
    as (data & Hparse & _ & _ & _ & _ & Horders & Hrows & Hflag).
  assert (data = mkCreateOrderRequest [mkItem "c1" 3] (Some "")) as ->
    by (vm_compute in Hparse; by injection Hparse).
  subst db'. simpl.
  split; [reflexivity|]. split; [by rewrite Horders|]. split.
  - rewrite Hrows; [reflexivity|].
    apply Forall_cons. split; [by exists 3%Z|apply Forall_nil_2].
  - apply (Hflag (mkItem "c1" 3)), list_elem_of_here.
Defined.

(** ** Orders: an update without items *)

Lemma same_store db :
  mkDB (products db) (orders db) (orderItems db) (nextId db) = db.
Proof. by destruct db. Qed.

Lemma order_update_no_items db id o note :
  orders db !! id = Some o →
  order_update id note [] db
  = (mkDB (products db) (<[id := mkOrder (default (o_note o) note)]> (orders db))
          (orderItems db) (nextId db),
     inr (mkOrderWithItems id (default (o_note o) note) (items_of id db))).
Proof.
  intros Ho. unfold order_update. rewrite Ho.
  change (products_exist [] db) with true. cbv beta iota zeta.
  change (item_rows id []) with (@nil OrderItem).
  by rewrite app_nil_r.
Qed.

(** An update that supplies no items never touches the items of the
    order, nor anything outside the order. The service stores the note of
    the payload, [null] when the payload has none; the handler stores the
    note of the body when the body has one (an empty note as [null]), and
    a body with neither note nor items changes nothing at all. *)
Theorem update_without_items
    (db : DB) (id : string) (o : Order) (note : option string) (body : JSON) :
  orders db !! id = Some o →
  createOrderSchema_partial (Some body) = Some (mkUpdateOrderRequest None note) →
  updateOrder id (mkUpdateOrderRequest None note) db
  = (mkDB (products db) (<[id := mkOrder note]> (orders db))
          (orderItems db) (nextId db),
     inr (mkOrderWithItems id note (items_of id db)))
  ∧ (∀ n, note = Some n →
       put_orders_id id body db
       = (mkDB (products db) (<[id := mkOrder (or_null (Some n))]> (orders db))
               (orderItems db) (nextId db),
          send_data 200
            (mkOrderWithItems id (or_null (Some n)) (items_of id db))))
  ∧ (note = None →
     put_orders_id id body db
     = (db, send_data 200 (mkOrderWithItems id (o_note o) (items_of id db)))).
Proof.
  intros Ho Hparse. split; [|split].
  - unfold updateOrder, bind, getOrderById, order_findUnique.
    rewrite Ho. cbn -[order_update].
    by rewrite (order_update_no_items _ _ o).
  - intros n ->.
    unfold put_orders_id, handle_parsing, bind, parse, order_findUnique,
      transaction.
    rewrite Hparse. cbn -[order_update]. rewrite Ho. cbn -[order_update].
    by rewrite (order_update_no_items _ _ o).
  - intros ->.
    unfold put_orders_id, handle_parsing, bind, parse, order_findUnique,
      transaction.
    rewrite Hparse. cbn -[order_update]. rewrite Ho. cbn -[order_update].
    rewrite (order_update_no_items _ _ o) by done. cbn.
    assert (mkOrder (o_note o) = o) as -> by by destruct o.
    by rewrite (insert_id _ _ _ Ho), same_store.
Qed.

Lemma update_without_items_witness :
  put_orders_id "c2" (JObj []) shop
  = (shop, send_data 200 (mkOrderWithItems "c2" (Some "weekend")
                            [mkOrderItem "c2" "c0" 50]))
  ∧ updateOrder "c2" (mkUpdateOrderRequest None (Some "monday")) shop
    = (mkDB (products shop) (<["c2" := mkOrder (Some "monday")]>
                               (orders shop))
            (orderItems shop) (nextId shop),
       inr (mkOrderWithItems "c2" (Some "monday")
              [mkOrderItem "c2" "c0" 50])).
Proof.
  split.
  - destruct (update_without_items shop "c2" (mkOrder (Some "weekend")) None
                (JObj []) eq_refl eq_refl) as (_ & _ & Hnoop).
    apply (Hnoop eq_refl).
  - destruct (update_without_items shop "c2" (mkOrder (Some "weekend"))
                (Some "monday") (JObj [("note", JStr "monday")])
                eq_refl eq_refl) as (Hrun & _).
    exact Hrun.
Defined.

(** ** Orders: deletion *)

Lemma filter_all {A} (P : A → Prop) `{∀ x, Decision (P x)} (l : list A) :
  (∀ x, x ∈ l → P x) → filter P l = l.
Proof.
  induction l as [|x l IH]; intros Hall; [done|].
  rewrite filter_cons_True by apply Hall, list_elem_of_here.
  f_equal. apply IH. intros y Hy. by apply Hall, list_elem_of_further.
Qed.

Lemma filter_none {A} (P : A → Prop) `{∀ x, Decision (P x)} (l : list A) :
  (∀ x, x ∈ l → ¬ P x) → filter P l = [].
Proof.
  induction l as [|x l IH]; intros Hall; [done|].
  rewrite filter_cons_False by apply Hall, list_elem_of_here.
  apply IH. intros y Hy. by apply Hall, list_elem_of_further.
Qed.

Lemma items_of_after_delete id items :
  filter (λ it : OrderItem, orderId it = id)
         (filter (λ it, orderId it ≠ id) items) = [].
Proof.
  apply filter_none. intros it Hin. by apply list_elem_of_filter in Hin as [? _].
Qed.

Lemma delete_items_twice id (items : list OrderItem) :
  filter (λ it, orderId it ≠ id) (filter (λ it, orderId it ≠ id) items)
  = filter (λ it, orderId it ≠ id) items.
Proof.
  apply filter_all. intros it Hin. by apply list_elem_of_filter in Hin as [? _].
Qed.

(** [DELETE /orders/:id] on an existing order removes the order and
    exactly its own item rows, whatever the referential action of the
    schema: the items are deleted before the order, so the action never
    comes into play. Products (their [isOrdered] flags included), the
    other orders and their items are as before. *)
Theorem delete_orders_id_removes
    onDeleteOrder (db : DB) (id : string) (o : Order) :
  orders db !! id = Some o →
  let db' := (delete_orders_id onDeleteOrder id db).1 in
  delete_orders_id onDeleteOrder id db = (db', mkReply 200 true None None)
  ∧ orders db' = delete id (orders db)
  ∧ orderItems db' = filter (λ it, orderId it ≠ id) (orderItems db)
  ∧ items_of id db' = []
  ∧ (∀ k, k ≠ id → items_of k db' = items_of k db)
  ∧ products db' = products db.
Proof.
  intros Ho.
  assert (delete_orders_id onDeleteOrder id db
          = (mkDB (products db) (delete id (orders db))
                  (filter (λ it, orderId it ≠ id) (orderItems db))
                  (nextId db),
             mkReply 200 true None None)) as Hrun.
  { unfold delete_orders_id, handle, bind, order_findUnique, transaction,
      orderItem_deleteMany, order_delete.
    rewrite Ho. cbn -[filter]. rewrite Ho.
    unfold items_of. cbn -[filter]. rewrite items_of_after_delete.
    by rewrite delete_items_twice. }
  intros db'. subst db'. rewrite Hrun. cbn -[filter].
  repeat split.
  - apply items_of_after_delete.
  - intros k Hk. unfold items_of. cbn -[filter].
    rewrite list_filter_filter. apply list_filter_iff.
    intros it. split; [tauto|]. intros Heq. split; [done|]. congruence.
Qed.

Lemma delete_orders_id_removes_witness :
  let db' := (delete_orders_id Restrict "c2" shop).1 in
  delete_orders_id Restrict "c2" shop = (db', mkReply 200 true None None)
  ∧ orders db' !! "c2" = None
  ∧ orderItems db' = []
  ∧ products db' = products shop.
Proof.
  destruct (delete_orders_id_removes Restrict shop "c2"
              (mkOrder (Some "weekend")) eq_refl)
    as (Hrun & Horders & Hitems & _ & _ & Hproducts).
  split; [exact Hrun|].
  split; [rewrite Horders; apply lookup_delete_eq|].
  split; [rewrite Hitems; reflexivity|exact Hproducts].
Defined.

(** [OrderService.deleteOrder] calls the store for the order only and
    leaves the items to the schema. Under a cascading schema it leaves
    the same store as the handler; under a restricting one it does so
    only for an order without items, and for an order that still owns
    items the store refuses (P2003) and nothing is deleted. *)
Theorem deleteOrder_and_the_schema
    onDeleteOrder (db : DB) (id : string) (o : Order) :
  orders db !! id = Some o →
  let db' := (delete_orders_id onDeleteOrder id db).1 in
  deleteOrder Cascade id db = (db', inr tt)
  ∧ (items_of id db = [] → deleteOrder Restrict id db = (db', inr tt))
  ∧ (items_of id db ≠ [] →
     deleteOrder Restrict id db = (db, inl (PrismaErr P2003))).
Proof.
  intros Ho db'.
  assert (db' = mkDB (products db) (delete id (orders db))
                     (filter (λ it, orderId it ≠ id) (orderItems db))
                     (nextId db)) as ->.
  { unfold db', delete_orders_id, handle, bind, order_findUnique,
      transaction, orderItem_deleteMany, order_delete.
    rewrite Ho. cbn -[filter]. rewrite Ho.
    unfold items_of. cbn -[filter]. rewrite items_of_after_delete.
    by rewrite delete_items_twice. }
  unfold deleteOrder, bind, getOrderById, order_findUnique, order_delete.
  rewrite Ho. cbn -[filter items_of]. rewrite Ho.
  repeat split.
  - by destruct (items_of id db).
  - by intros ->.
  - intros Hne. by destruct (items_of id db).
Qed.

Lemma deleteOrder_and_the_schema_witness :
  items_of "c2" shop ≠ []
  ∧ deleteOrder Restrict "c2" shop = (shop, inl (PrismaErr P2003))
  ∧ (deleteOrder Cascade "c2" shop).1
    = (delete_orders_id Restrict "c2" shop).1.
Proof.
  destruct (deleteOrder_and_the_schema Restrict shop "c2"
              (mkOrder (Some "weekend")) eq_refl)
    as (Hcascade & _ & Hrestrict).
  split; [discriminate|]. split; [apply Hrestrict; discriminate|].
  by rewrite Hcascade.
Defined.

(** ** Products: [DELETE /products/:id] *)

Lemma unreferenced_items id db :
  items_referencing id db = [] →
  filter (λ it, productId it ≠ id) (orderItems db) = orderItems db.
Proof.
  intros Hrefs. apply filter_all. intros it Hin Heq.
  by apply (filter_nil_not_elem_of _ _ it Hrefs).
Qed.

(** [DELETE /products/:id] has three replies and 500 is none of them:
    404 for an id that does not exist, 400 while order items reference
    the product, 200 with the product removed otherwise. Its own check
    runs before the store is asked, so the reply and the resulting store
    do not depend on the referential action of the schema, and no order
    item is ever deleted. *)
Theorem delete_products_id_replies onDeleteProduct (db : DB) (id : string) :
  delete_products_id onDeleteProduct id db
  = match products db !! id with
    | None => (db, send_error 404 "產品不存在")
    | Some _ =>
        match items_referencing id db with
        | [] =>
            (mkDB (delete id (products db)) (orders db) (orderItems db)
                  (nextId db),
             mkReply 200 true None None)
        | _ :: _ => (db, send_error 400 "無法刪除產品，該產品已有相關訂單")
        end
    end.
Proof.
  unfold delete_products_id, handle, bind, product_findUnique_withItems,
    product_delete.
  destruct (products db !! id) as [p|] eqn:Hid; cbn -[filter]; [|done].
  destruct (items_referencing id db) eqn:Hrefs; cbn -[filter]; [|done].
  rewrite Hid, Hrefs. cbn -[filter]. by rewrite unreferenced_items.
Qed.

(** ** Products: [POST /products/batch] *)

Lemma size_filter_list {A} (P : string * A → Prop) `{!∀ x, Decision (P x)}
    (m : gmap string A) :
  size (filter P m) = length (filter P (map_to_list m)).
Proof.
  rewrite map_filter_alt, <- length_map_to_list.
  apply Permutation_length, map_to_list_to_map.
  eapply sublist_NoDup; [apply (NoDup_fst_map_to_list m)|].
  apply fmap_sublist, sublist_filter.
Qed.

Lemma batch_ids_ok l ids :
  mapM (λ x, z_string (Some x)) l = Some ids → ids ≠ [] →
  falsy (Some (JArr l)) || length_is_zero (Some (JArr l)) = false.
Proof.
  intros Hl Hne. simpl. apply length_mapM in Hl.
  destruct l; [by destruct ids|done].
Qed.

(** The batch delete removes exactly the listed products that no order
    item references and answers with their number; a listed product that
    is referenced stays, as does every product that is not listed, and
    orders and order items are untouched. *)
Theorem batch_delete
    (db : DB) (members : list (string * JSON)) (l : list JSON)
    (ids : list string) :
  get "action" members = Some (JStr "delete") →
  get "ids" members = Some (JArr l) →
  mapM (λ x, z_string (Some x)) l = Some ids → ids ≠ [] →
  ∃ db' n,
    post_products_batch (JObj members) db = (db', send_data 200 n)
    ∧ (∀ k, products db' !! k
            = if decide (k ∈ ids ∧ items_referencing k db = [])
              then None else products db !! k)
    ∧ size (products db) = n + size (products db')
    ∧ orders db' = orders db ∧ orderItems db' = orderItems db.
Proof.
  intros Haction Hids Hl Hne.
  unfold post_products_batch, handle, member.
  rewrite Haction, Hids, (batch_ids_ok _ _ Hl Hne).
  unfold bind, id_list. rewrite Hl. cbn -[filter].
  eexists _, _. split; [reflexivity|]. cbn -[filter].
  set (doomed := λ kv : string * Product,
         kv.1 ∈ ids ∧ unreferenced kv.1 db = true).
  split; [|split; [|done]].
  - intros k. rewrite map_lookup_filter.
    destruct (products db !! k) as [p|] eqn:Hk; simpl.
    + unfold unreferenced.
      destruct (decide (k ∈ ids ∧ items_referencing k db = []))
        as [[Hin Hrefs]|Hkeep].
      * rewrite option_guard_False; [done|]. simpl. rewrite Hrefs. tauto.
      * rewrite option_guard_True; [done|]. simpl.
        intros [Hin Hrefs]. apply Hkeep. split; [done|].
        by destruct (items_referencing k db).
    + by case_decide.
  - rewrite <- (size_filter_list doomed).
    rewrite <- map_size_disj_union
      by apply map_disjoint_filter_complement.
    by rewrite map_filter_union_complement.
Qed.

Lemma batch_delete_witness :
  let body := JObj [("action", JStr "delete");
                    ("ids", JArr [JStr "c0"; JStr "c1"; JStr "zz"])] in
  ∃ db' n, post_products_batch body shop = (db', send_data 200 n)
           ∧ products db' !! "c0" = Some coke
           ∧ products db' !! "c1" = None
           ∧ 2 = n + size (products db').
Proof.
  intros body.
  destruct (batch_delete shop
              [("action", JStr "delete");
               ("ids", JArr [JStr "c0"; JStr "c1"; JStr "zz"])]
              [JStr "c0"; JStr "c1"; JStr "zz"] ["c0"; "c1"; "zz"]
              eq_refl eq_refl eq_refl ltac:(discriminate))
    as (db' & n & Hrun & Hlookup & Hsize & _).
  exists db', n. split; [exact Hrun|].
  split; [rewrite Hlookup; reflexivity|].
  split; [rewrite Hlookup; reflexivity|exact Hsize].
Defined.

(** The batch status update gives the new status to every listed
    product that exists and to no other; it changes no other field, and
    answers with the number of rows it matched. *)
Theorem batch_updateStatus
    (db : DB) (members : list (string * JSON)) (l : list JSON)
    (ids : list string) (s : ProductStatus) :
  get "action" members = Some (JStr "updateStatus") →
  get "ids" members = Some (JArr l) →
  mapM (λ x, z_string (Some x)) l = Some ids → ids ≠ [] →
  z_status (get "status" members) = Some s →
  ∃ db',
    post_products_batch (JObj members) db
    = (db', send_data 200 (length (rows_with_id_in ids (products db))))
    ∧ (∀ k, products db' !! k
            = if decide (k ∈ ids) then set_status s <$> products db !! k
              else products db !! k)
    ∧ length (rows_with_id_in ids (products db)) ≤ length (remove_dups ids)
    ∧ orders db' = orders db ∧ orderItems db' = orderItems db.
Proof.
  intros Haction Hids Hl Hne Hstatus.
  unfold post_products_batch, handle, member.
  rewrite Haction, Hids, (batch_ids_ok _ _ Hl Hne), Hstatus.
  unfold bind, id_list. rewrite Hl. cbn -[rows_with_id_in].
  eexists. split; [reflexivity|]. cbn -[rows_with_id_in].
  split; [|split; [|done]].
  - intros k. rewrite map_lookup_imap.
    destruct (products db !! k); simpl; [|by case_decide].
    by destruct (decide (k ∈ ids));
      [rewrite bool_decide_eq_true_2|rewrite bool_decide_eq_false_2].
  - rewrite <- (length_fmap fst (rows_with_id_in ids (products db))).
    apply submseteq_length, NoDup_submseteq; [apply found_keys_NoDup|].
    intros k Hk. apply found_key_spec in Hk as [Hk _].
    by apply elem_of_remove_dups.
Qed.

Lemma batch_updateStatus_witness :
  let body := JObj [("action", JStr "updateStatus");
                    ("ids", JArr [JStr "c1"; JStr "c1"; JStr "zz"]);
                    ("status", JStr "DISCONTINUED")] in
  ∃ db', post_products_batch body shop = (db', send_data 200 1)
         ∧ products db' !! "c1" = Some (set_status DISCONTINUED pepsi)
         ∧ products db' !! "c0" = Some coke.
Proof.
  intros body.
  destruct (batch_updateStatus shop
              [("action", JStr "updateStatus");
               ("ids", JArr [JStr "c1"; JStr "c1"; JStr "zz"]);
               ("status", JStr "DISCONTINUED")]
              [JStr "c1"; JStr "c1"; JStr "zz"] ["c1"; "c1"; "zz"] DISCONTINUED
              eq_refl eq_refl eq_refl ltac:(discriminate) eq_refl)
    as (db' & Hrun & Hlookup & _).
  exists db'. split; [exact Hrun|].
  split; rewrite Hlookup; reflexivity.
Defined.

(** What the batch handler refuses, always with the store as it was: a
    body without a usable id list (no [ids], or [ids] that is falsy or
    of length zero) gets 400 whatever the action; with ids, an action
    other than "delete" and "updateStatus" gets 400, and so does
    "updateStatus" with a status outside the enumeration, before the ids
    are looked at; a [null] body gets 500. *)
Theorem batch_refusals (db : DB) (body : JSON) :
  (body = JNull →
   post_products_batch body db = (db, send_error 500 "批量操作失敗"))
  ∧ (body ≠ JNull →
     falsy (member "ids" body) || length_is_zero (member "ids" body) = true →
     post_products_batch body db = (db, send_error 400 "請提供產品 ID 列表"))
  ∧ (body ≠ JNull →
     falsy (member "ids" body) || length_is_zero (member "ids" body) = false →
     member "action" body ≠ Some (JStr "delete") →
     member "action" body ≠ Some (JStr "updateStatus") →
     post_products_batch body db = (db, send_error 400 "無效的操作類型"))
  ∧ (body ≠ JNull →
     falsy (member "ids" body) || length_is_zero (member "ids" body) = false →
     member "action" body = Some (JStr "updateStatus") →
     z_status (member "status" body) = None →
     post_products_batch body db = (db, send_error 400 "無效的狀態值")).
Proof.
  unfold post_products_batch, handle. repeat split.
  - by intros ->.
  - intros Hbody Hids. destruct body; try done; by rewrite Hids.
  - intros Hbody Hids Hdelete Hupdate.
    destruct body; try done; rewrite Hids;
      destruct (member "action" _) as [[| | |a| |]|] eqn:Haction; try done;
      (destruct (String.eqb a "delete") eqn:Ha;
        [apply String.eqb_eq in Ha; by subst|]);
      (destruct (String.eqb a "updateStatus") eqn:Hb;
        [apply String.eqb_eq in Hb; by subst|]); done.
  - intros Hbody Hids Haction Hstatus.
    destruct body; try done; by rewrite Hids, Haction, Hstatus.
Qed.

Lemma batch_refusals_witness :
  post_products_batch (JObj [("action", JStr "delete")]) shop
  = (shop, send_error 400 "請提供產品 ID 列表")
  ∧ post_products_batch (JObj [("action", JStr "delete"); ("ids", JArr [])])
      shop
    = (shop, send_error 400 "請提供產品 ID 列表")
  ∧ post_products_batch
      (JObj [("action", JStr "updateStatus"); ("ids", JStr "c0");
             ("status", JStr "SOLD")]) shop
    = (shop, send_error 400 "無效的狀態值").
Proof.
  split; [|split].
  - destruct (batch_refusals shop (JObj [("action", JStr "delete")]))
      as (_ & Hids & _).
    apply Hids; [discriminate|reflexivity].
  - destruct (batch_refusals shop
                (JObj [("action", JStr "delete"); ("ids", JArr [])]))
      as (_ & Hids & _).
    apply Hids; [discriminate|reflexivity].
  - destruct (batch_refusals shop
                (JObj [("action", JStr "updateStatus"); ("ids", JStr "c0");
                       ("status", JStr "SOLD")]))
      as (_ & _ & _ & Hstatus).
    apply Hstatus; [discriminate|reflexivity..].
Defined.

(** ** A request that is not answered with success leaves no trace *)

Section QuietHandlers.

Context {A : Type}.

Lemma quiet_error code msg : quiet_body (A := A) (resolve (send_error code msg)).
Proof. split; [apply aon_resolve|]. by intros db db' r [= <- <-]. Qed.

Lemma quiet_throw e : quiet_body (A := A) (throw e).
Proof. split; [apply aon_throw|]. by intros db db' r [=]. Qed.

Lemma quiet_bind {B} (m : Async B) (k : B → Async (Reply A)) :
  readonly m → (∀ b, quiet_body (k b)) → quiet_body (bind m k).
Proof.
  intros Hm Hk. split; [apply aon_bind; [done|apply Hk]|].
  intros db db' r. unfold bind. specialize (Hm db).
  destruct (m db) as [db1 [e|b]]; simpl in Hm; subst db1; [done|].
  apply Hk.
Qed.

(** One write, or one transaction, followed by the reply of success. *)
Lemma quiet_write {B} (w : Async B) (reply : B → Reply A) :
  all_or_nothing w → (∀ b, success (reply b) = true) →
  quiet_body (bind w (λ b, resolve (reply b))).
Proof.
  intros Hw Hok. split.
  - intros db db' e. unfold bind.
    destruct (w db) as [db1 [e1|b]] eqn:Hrun; [|done].
    intros [= <- _]. by eapply Hw.
  - intros db db' r. unfold bind.
    destruct (w db) as [db1 [e1|b]]; [done|].
    intros [= <- <-]. by rewrite Hok.
Qed.

Lemma quiet_handle failed (m : Async (Reply A)) :
  quiet_body m → fails_quietly (handle failed m).
Proof.
  intros [Haon Hquiet] db db' r. unfold handle.
  destruct (m db) as [db1 [e|r1]] eqn:Hrun; intros [= <- <-].
  - intros _. by eapply Haon.
  - by eapply Hquiet.
Qed.

Lemma quiet_handle_parsing failed (m : Async (Reply A)) :
  quiet_body m → fails_quietly (handle_parsing failed m).
Proof.
  intros [Haon Hquiet] db db' r. unfold handle_parsing.
  destruct (m db) as [db1 [e|r1]] eqn:Hrun.
  - destruct e; intros [= <- <-] _; by eapply Haon.
  - intros [= <- <-]. by eapply Hquiet.
Qed.

End QuietHandlers.

Lemma readonly_parse {A} (schema : ZodSchema A) body :
  readonly (parse schema body).
Proof. intros db. unfold parse. by destruct (schema (Some body)). Qed.

Lemma readonly_id_list v : readonly (id_list v).
Proof.
  intros db. unfold id_list. destruct v as [[| | | |l|]|]; try done.
  by destruct (mapM _ l).
Qed.

Lemma aon_never_throws {A} (m : Async A) :
  (∀ db, ∃ db' a, m db = (db', inr a)) → all_or_nothing m.
Proof. intros H db db' e Hrun. destruct (H db) as (? & ? & ?). congruence. Qed.

#[local] Hint Resolve quiet_error quiet_throw readonly_parse readonly_id_list
  : store_inv.

(** Walks through the body of a handler. *)
Ltac stays_quiet :=
  repeat first
    [ solve [auto with store_inv]
    | solve [by intros ?]
    | apply quiet_write;
        [first [ solve [auto with store_inv]
               | apply aon_never_throws; intros ?; by eexists _, _ ]
        | by intros ? ]
    | apply quiet_bind; [|intros ?]
    | match goal with
      | |- quiet_body (match ?x with _ => _ end) => destruct x
      | |- quiet_body (if ?x then _ else _) => destruct x
      end
    | progress cbv zeta ].

(** Six of the mutating handlers write only as their last step before
    the reply of success, in one store call or one transaction: whenever
    [POST /products], [PUT /products/:id], [DELETE /products/:id],
    [POST /products/batch], [PUT /orders/:id] or [DELETE /orders/:id]
    answers anything but success (400, 404 or 500), the store is exactly
    as it was before the request. ([POST /orders] writes twice outside a
    transaction and is not among them.) *)
Theorem handlers_fail_quietly newId onDeleteProduct onDeleteOrder :
  (∀ body, fails_quietly (post_products newId body))
  ∧ (∀ id body, fails_quietly (put_products_id id body))
  ∧ (∀ id, fails_quietly (delete_products_id onDeleteProduct id))
  ∧ (∀ body, fails_quietly (post_products_batch body))
  ∧ (∀ id body, fails_quietly (put_orders_id id body))
  ∧ (∀ id, fails_quietly (delete_orders_id onDeleteOrder id)).
Proof.
  repeat split; intros;
    unfold post_products, put_products_id, put_products_id_parsed,
      delete_products_id, post_products_batch, put_orders_id,
      delete_orders_id;
    (apply quiet_handle_parsing || apply quiet_handle);
    stays_quiet.
Qed.

Lemma handlers_fail_quietly_witness :
  let body := JObj [("items", JArr [JObj [("productId", JStr "gone");
                                          ("quantity", JNum 1)]])] in
  statusCode (put_orders_id "c2" body shop).2 = 500
  ∧ (put_orders_id "c2" body shop).1 = shop.
Proof.
  intros body. split; [by vm_compute|].
  destruct (handlers_fail_quietly cuid Restrict Restrict)
    as (_ & _ & _ & _ & Hput & _).
  apply (Hput "c2" body shop _ (put_orders_id "c2" body shop).2).
  - by destruct (put_orders_id "c2" body shop).
  - by vm_compute.
Defined.

(** ** Referential integrity of the order items *)

Lemma references_ok_mono db db' :
  (∀ item, item ∈ orderItems db' → item ∈ orderItems db) →
  (∀ item, item ∈ orderItems db' →
     is_Some (products db !! productId item) →
     is_Some (products db' !! productId item)) →
  (∀ item, item ∈ orderItems db' →
     is_Some (orders db !! orderId item) →
     is_Some (orders db' !! orderId item)) →
  references_ok db → references_ok db'.
Proof.
  intros Hitems Hproducts Horders Hok item Hin.
  destruct (Hok item (Hitems item Hin)) as [Hp Ho].
  split; [by apply Hproducts|by apply Horders].
Qed.

Lemma is_Some_insert {V} (m : gmap string V) i j v :
  is_Some (m !! j) → is_Some (<[i := v]> m !! j).
Proof.
  intros H. rewrite lookup_insert. by case_decide; [eexists|].
Qed.

Lemma item_rows_spec oid items item :
  item ∈ item_rows oid items →
  orderId item = oid ∧ ∃ x, x ∈ items ∧ productId item = ci_productId x.
Proof.
  unfold item_rows. intros H.
  apply list_elem_of_fmap in H as (x & -> & Hx). eauto.
Qed.

Lemma products_exist_spec items db x :
  products_exist items db = true → x ∈ items →
  is_Some (products db !! ci_productId x).
Proof.
  unfold products_exist. rewrite forallb_forall. intros Hall Hx.
  apply list_elem_of_In, Hall in Hx. by apply bool_decide_eq_true in Hx.
Qed.

Lemma product_create_refs newId data :
  preserves references_ok (product_create newId data).
Proof.
  intros db H. unfold product_create.
  destruct (products db !! _); [done|].
  destruct (rows_with_barcode _ _); [|done].
  eapply references_ok_mono; [| | |exact H]; simpl; try done.
  intros item _. apply is_Some_insert.
Qed.

Lemma product_update_refs id data :
  preserves references_ok (product_update id data).
Proof.
  intros db H. unfold product_update.
  destruct (products db !! id); [|done].
  destruct (other_rows_with_barcode _ _ _); [|done].
  eapply references_ok_mono; [| | |exact H]; simpl; try done.
  intros item _. apply is_Some_insert.
Qed.

Lemma imap_keeps_keys (f : string → Product → Product)
    (m : gmap string Product) k :
  is_Some (m !! k) → is_Some (map_imap (λ k p, Some (f k p)) m !! k).
Proof. intros [p Hp]. rewrite map_lookup_imap, Hp. by eexists. Qed.

Lemma product_updateMany_isOrdered_refs ids b :
  preserves references_ok (product_updateMany_isOrdered ids b).
Proof.
  intros db H. eapply references_ok_mono; [| | |exact H]; simpl; try done.
  intros item _.
  apply (imap_keeps_keys
           (λ k p, if bool_decide (k ∈ ids) then set_isOrdered b p else p)).
Qed.

Lemma product_updateMany_status_refs ids s :
  preserves references_ok (product_updateMany_status ids s).
Proof.
  intros db H. eapply references_ok_mono; [| | |exact H]; simpl; try done.
  intros item _.
  apply (imap_keeps_keys
           (λ k p, if bool_decide (k ∈ ids) then set_status s p else p)).
Qed.

Lemma product_delete_refs onDeleteProduct id :
  preserves references_ok (product_delete onDeleteProduct id).
Proof.
  intros db H. unfold product_delete.
  destruct (products db !! id); [|done].
  assert (references_ok
            (mkDB (delete id (products db)) (orders db)
                  (filter (λ it, productId it ≠ id) (orderItems db))
                  (nextId db))) as Hdel.
  { intros item Hin. simpl in *.
    apply list_elem_of_filter in Hin as [Hne Hin].
    destruct (H item Hin) as [Hp Ho]. split; [|done].
    by rewrite lookup_delete_ne. }
  destruct (items_referencing id db), onDeleteProduct; done.
Qed.

Lemma product_deleteMany_refs ids :
  preserves references_ok (product_deleteMany_unreferenced ids).
Proof.
  intros db H item Hin. simpl in *. destruct (H item Hin) as [[p Hp] Ho].
  split; [|done]. exists p. apply map_lookup_filter_Some. split; [done|].
  simpl. intros [_ Hfree]. unfold unreferenced in Hfree.
  destruct (items_referencing (productId item) db) eqn:Hrefs; [|done].
  by apply (filter_nil_not_elem_of _ _ item Hrefs).
Qed.

Lemma order_create_refs newId missing note items :
  preserves references_ok (order_create newId missing note items).
Proof.
  intros db H. unfold order_create.
  destruct (orders db !! _); [done|].
  destruct (products_exist items db) eqn:Hexist; [|done].
  intros item Hin. simpl in *. apply elem_of_app in Hin as [Hin|Hin].
  - destruct (H item Hin) as [Hp Ho]. split; [done|by apply is_Some_insert].
  - apply item_rows_spec in Hin as (-> & x & Hx & ->).
    split; [by eapply products_exist_spec|].
    rewrite lookup_insert_eq. by eexists.
Qed.

Lemma orderItem_deleteMany_refs oid :
  preserves references_ok (orderItem_deleteMany oid).
Proof.
  intros db H item Hin. simpl in *.
  apply list_elem_of_filter in Hin as [_ Hin]. by apply H.
Qed.

Lemma orderItem_createMany_refs oid items :
  preserves references_ok (orderItem_createMany oid items).
Proof.
  intros db H. unfold orderItem_createMany.
  destruct (orders db !! oid) eqn:Ho; [|done].
  destruct (products_exist items db) eqn:Hexist; [|done].
  intros item Hin. simpl in *. apply elem_of_app in Hin as [Hin|Hin].
  - by apply H.
  - apply item_rows_spec in Hin as (-> & x & Hx & ->).
    split; [by eapply products_exist_spec|]. by rewrite Ho.
Qed.

Lemma order_update_refs id note create :
  preserves references_ok (order_update id note create).
Proof.
  intros db H. unfold order_update.
  destruct (orders db !! id) eqn:Ho; [|done].
  destruct (products_exist create db) eqn:Hexist; [|done].
  intros item Hin. simpl in *. apply elem_of_app in Hin as [Hin|Hin].
  - destruct (H item Hin) as [Hp Ho']. split; [done|by apply is_Some_insert].
  - apply item_rows_spec in Hin as (-> & x & Hx & ->).
    split; [by eapply products_exist_spec|].
    rewrite lookup_insert_eq. by eexists.
Qed.

Lemma order_delete_refs onDeleteOrder id :
  preserves references_ok (order_delete onDeleteOrder id).
Proof.
  intros db H. unfold order_delete.
  destruct (orders db !! id); [|done].
  assert (references_ok
            (mkDB (products db) (delete id (orders db))
                  (filter (λ it, orderId it ≠ id) (orderItems db))
                  (nextId db))) as Hdel.
  { intros item Hin. simpl in *.
    apply list_elem_of_filter in Hin as [Hne Hin].
    destruct (H item Hin) as [Hp Ho]. split; [done|].
    by rewrite lookup_delete_ne. }
  destruct (items_of id db), onDeleteOrder; done.
Qed.

Lemma id_list_keeps P v : preserves P (id_list v).
Proof.
  intros db H. unfold id_list. destruct v as [[| | | |l|]|]; try done.
  by destruct (mapM _ l).
Qed.

#[local] Hint Resolve product_create_refs product_update_refs
  product_updateMany_isOrdered_refs product_updateMany_status_refs
  product_delete_refs product_deleteMany_refs order_create_refs
  orderItem_deleteMany_refs orderItem_createMany_refs order_update_refs
  order_delete_refs id_list_keeps : store_inv.

Lemma serve_references newId onDeleteProduct onDeleteOrder r db :
  references_ok db →
  references_ok (serve newId onDeleteProduct onDeleteOrder r db).
Proof.
  intros H. destruct r; cbn [serve];
    unfold post_products, put_products_id, put_products_id_parsed,
      delete_products_id, post_products_batch, post_orders, put_orders_id,
      delete_orders_id;
    rewrite ?handle_parsing_store, ?handle_store;
    (apply preserved; [|done]); keeps_invariant.
Qed.

Lemma call_references newId onDeleteProduct onDeleteOrder c db :
  references_ok db →
  references_ok (call newId onDeleteProduct onDeleteOrder c db).
Proof.
  intros H. destruct c; cbn [call];
    unfold createProduct, updateProduct, deleteProduct, updateProductStatus,
      updateProductOrderStatus, createOrder, updateOrder, deleteOrder,
      getProductByBarcode, getProductById, getOrderById, check_vendors,
      check_barcode_change;
    (apply preserved; [|done]); keeps_invariant.
Qed.


Lemma shop_references : references_ok shop.
Proof.
  intros item Hin. unfold shop in Hin. simpl in Hin.
  apply list_elem_of_singleton in Hin as ->. split; by eexists.
Qed.


(** ** Products: [POST /products] *)

Lemma z_min1_nonempty v s : z_min1 z_string v = Some s → s ≠ "".
Proof.
  unfold z_min1, z_string. destruct v as [[| | |x| |]|]; try done. simpl.
  destruct x; [done|]. by intros [= <-].
Qed.

Lemma z_positive_positive v q : z_positive z_number v = Some q → (0 < q)%Q.
Proof.
  unfold z_positive, z_number. destruct v as [[| |x| | |]|]; try done. simpl.
  destruct (0 <? Qnum x)%Z eqn:Hq; [|done]. intros [= <-].
  apply Z.ltb_lt in Hq. unfold Qlt. simpl. lia.
Qed.

(** What [createProductSchema] lets through: a non-empty name and
    barcode and positive prices; a body that names no status, tags or
    vendor ids gets ACTIVE and empty lists. *)
Lemma createProductSchema_accepts members pd :
  createProductSchema (Some (JObj members)) = Some pd →
  pd_name pd ≠ "" ∧ pd_barcode pd ≠ ""
  ∧ (0 < pd_costPrice pd)%Q ∧ (0 < pd_sellPrice pd)%Q
  ∧ (get "status" members = None → pd_status pd = ACTIVE)
  ∧ (get "tags" members = None → pd_tags pd = [])
  ∧ (get "vendorIds" members = None → pd_vendorIds pd = []).
Proof.
  unfold createProductSchema.
  destruct (z_min1 z_string (get "name" members)) as [n|] eqn:Hn; [|done].
  destruct (z_min1 z_string (get "barcode" members)) as [b|] eqn:Hb;
    [|done].
  destruct (z_positive z_number (get "costPrice" members)) as [c|] eqn:Hc;
    [|done].
  destruct (z_positive z_number (get "sellPrice" members)) as [sp|] eqn:Hs;
    [|done].
  cbn [mbind option_bind].
  destruct (z_optional_default (z_array z_string) [] (get "vendorIds" members))
    as [vs|] eqn:Hvs; [|done].
  destruct (z_optional z_string (get "imagePath" members)) as [img|];
    [|done].
  destruct (z_optional_default z_status ACTIVE (get "status" members))
    as [st|] eqn:Hst; [|done].
  destruct (z_optional_default (z_array z_string) [] (get "tags" members))
    as [ts|] eqn:Hts; [|done].
  destruct (z_optional z_string (get "note" members)) as [nt|]; [|done].
  cbn [mbind option_bind]. intros [= <-]. cbn.
  split; [by eapply z_min1_nonempty|]. split; [by eapply z_min1_nonempty|].
  split; [by eapply z_positive_positive|].
  split; [by eapply z_positive_positive|].
  repeat split; intros Hnone.
  - rewrite Hnone in Hst. by injection Hst.
  - rewrite Hnone in Hts. by injection Hts.
  - rewrite Hnone in Hvs. by injection Hvs.
Qed.

(** The replies of [POST /products]. It answers 400 "validation
    error" exactly when the schema rejects the body, and 400 "barcode
    exists" exactly when the body is valid and a product has its
    barcode; the store is as it was in both cases. When it answers 201,
    the body was valid, its barcode and the new id were free, and exactly
    one product has been added: the fields of the body, an empty note or
    image path stored as [null], [isOrdered] false, and the vendor ids
    as they came, unchecked. A body that the schema accepts has a
    non-empty name and barcode and positive prices, and gets ACTIVE
    status, no tags and no vendors where it names none. *)
Theorem post_products_replies newId (db : DB) (body : JSON) :
  (post_products newId body db = (db, send_error 400 "驗證錯誤")
   ↔ createProductSchema (Some body) = None)
  ∧ (∀ pd, createProductSchema (Some body) = Some pd →
       (post_products newId body db = (db, send_error 400 "條碼已存在")
        ↔ rows_with_barcode (pd_barcode pd) (products db) ≠ []))
  ∧ (∀ db' id p, post_products newId body db = (db', send_data 201 (id, p)) →
       ∃ pd,
         createProductSchema (Some body) = Some pd
         ∧ rows_with_barcode (pd_barcode pd) (products db) = []
         ∧ products db !! id = None
         ∧ p = mkProduct (pd_name pd) (pd_barcode pd) (pd_costPrice pd)
                 (pd_sellPrice pd) (pd_status pd) false (pd_tags pd)
                 (pd_vendorIds pd) (or_null (pd_note pd))
                 (or_null (pd_imagePath pd))
         ∧ product_added db id p db')
  ∧ (∀ members pd, body = JObj members →
       createProductSchema (Some body) = Some pd →
       pd_name pd ≠ "" ∧ pd_barcode pd ≠ ""
       ∧ (0 < pd_costPrice pd)%Q ∧ (0 < pd_sellPrice pd)%Q
       ∧ (get "status" members = None → pd_status pd = ACTIVE)
       ∧ (get "tags" members = None → pd_tags pd = [])
       ∧ (get "vendorIds" members = None → pd_vendorIds pd = [])).
Proof.
  assert (∀ members pd, body = JObj members →
            createProductSchema (Some body) = Some pd →
            pd_name pd ≠ "" ∧ pd_barcode pd ≠ ""
            ∧ (0 < pd_costPrice pd)%Q ∧ (0 < pd_sellPrice pd)%Q
            ∧ (get "status" members = None → pd_status pd = ACTIVE)
            ∧ (get "tags" members = None → pd_tags pd = [])
            ∧ (get "vendorIds" members = None → pd_vendorIds pd = []))
    as Hschema
    by (intros members pd -> Hparse; by apply createProductSchema_accepts).
  unfold post_products, handle_parsing, bind, parse,
    product_findUnique_barcode.
  destruct (createProductSchema (Some body)) as [pd|] eqn:Hparse.
  2:{ split; [done|]. split; [done|]. split; [by intros db' id p [=]|done]. }
  unfold resolve. cbv beta iota zeta.
  destruct (rows_with_barcode (pd_barcode pd) (products db))
    as [|row rows] eqn:Hfree; cbn [head].
  - unfold product_create. cbn [new_row barcode pc_barcode].
    rewrite Hfree.
    destruct (products db !! newId (nextId db)) as [taken|] eqn:Hid.
    + split; [by split|]. split; [|split; [by intros db' id p [=]|done]].
      intros ? [= <-]. by split.
    + split; [by split|]. split; [|split; [|done]].
      * intros ? [= <-]. by split.
      * intros db' id p [= <- <- <-]. by exists pd.
  - split; [by split|]. split; [|split; [by intros db' id p [=]|done]].
    intros ? [= <-]. rewrite Hfree. by split.
Qed.

Lemma post_products_replies_witness :
  let body := JObj [("name", JStr "Tea"); ("barcode", JStr "TEA-001");
                    ("costPrice", JNum 10); ("sellPrice", JNum 15);
                    ("note", JStr "")] in
  let p := mkProduct "Tea" "TEA-001" 10 15 ACTIVE false [] [] None None in
  let db' := (post_products cuid body shop).1 in
  post_products cuid body shop = (db', send_data 201 ("c3", p))
  ∧ products db' !! "c3" = Some p
  ∧ orderItems db' = orderItems shop.
Proof.
  intros body p db'.
  assert (post_products cuid body shop = (db', send_data 201 ("c3", p)))
    as Hrun by by vm_compute.
  destruct (post_products_replies cuid shop body) as (_ & _ & Hok & _).
  destruct (Hok db' "c3" p Hrun) as (pd & _ & _ & _ & _ & Hproducts & _ & Hitems).
  split; [exact Hrun|]. split; [|exact Hitems].
  rewrite Hproducts. apply lookup_insert_eq.
Defined.

(** ** The API key check *)

(** [validateApiKey] lets a request through exactly when the server has
    a non-empty key configured and the request carries that key. With no
    key configured, or an empty one, every request is answered 500, also
    one without a key or with an empty key; otherwise a missing or wrong
    key is answered 401. *)
Theorem validateApiKey_spec (apiKey expectedApiKey : option string) :
  (validateApiKey apiKey expectedApiKey = None
   ↔ ∃ key, key ≠ "" ∧ expectedApiKey = Some key ∧ apiKey = Some key)
  ∧ (expectedApiKey = None ∨ expectedApiKey = Some "" →
     validateApiKey apiKey expectedApiKey
     = Some (send_error 500 "API key not configured on server"))
  ∧ (∀ key, expectedApiKey = Some key → key ≠ "" → apiKey ≠ Some key →
       validateApiKey apiKey expectedApiKey
       = Some (send_error 401 "Invalid or missing API key")).
Proof.
  unfold validateApiKey. split; [split|split].
  - destruct expectedApiKey as [expected|]; [|done].
    destruct (truthy expected) eqn:Hexp; [|done].
    destruct apiKey as [key|]; [|done].
    destruct (truthy key && String.eqb key expected) eqn:Hkey; [|done].
    intros _. apply andb_true_iff in Hkey as [_ Heq].
    apply String.eqb_eq in Heq as ->. exists expected.
    split; [|done]. intros ->. done.
  - intros (key & Hne & -> & ->).
    rewrite truthy_nonempty by done. by rewrite String.eqb_refl.
  - by intros [->| ->].
  - intros key -> Hne Hwrong. rewrite truthy_nonempty by done.
    destruct apiKey as [k|]; [|done].
    destruct (truthy k && String.eqb k key) eqn:Hkey; [|done].
    apply andb_true_iff in Hkey as [_ Heq].
    apply String.eqb_eq in Heq as ->. by destruct Hwrong.
Qed.

Lemma validateApiKey_spec_witness :
  validateApiKey (Some "s3cret") (Some "s3cret") = None
  ∧ validateApiKey (Some "") (Some "")
    = Some (send_error 500 "API key not configured on server")
  ∧ validateApiKey None (Some "s3cret")
    = Some (send_error 401 "Invalid or missing API key").
Proof.
  split; [|split].
  - apply (validateApiKey_spec (Some "s3cret") (Some "s3cret")).
    exists "s3cret". split; [discriminate|done].
  - apply (validateApiKey_spec (Some "") (Some "")). by right.
  - apply (validateApiKey_spec None (Some "s3cret") ) with (key := "s3cret");
      [reflexivity|discriminate|discriminate].
Defined.

(** ** The [isOrdered] flag under the routes *)

Section OrderedFlag.

Context (newId : nat → string) `{!Inj (=) (=) newId}.
Context (db0 : DB) (Hfresh0 : ids_fresh newId db0).

Lemma flags_kept_refl : flags_kept newId db0 db0.
Proof.
  split; [done|]. split; [done|]. intros id p p' Hp Hflag Hp'. congruence.
Qed.

(** A step that adds no product and clears no flag. *)
Lemma flags_kept_step (db db' : DB) :
  flags_kept newId db0 db →
  nextId db ≤ nextId db' →
  (∀ id p', products db' !! id = Some p' →
     ∃ p, products db !! id = Some p
          ∧ (isOrdered p = true → isOrdered p' = true)) →
  flags_kept newId db0 db'.
Proof.
  intros (Hle & Hfresh & Hflags) Hnext Hstep. split; [lia|]. split.
  - intros k Hk. destruct (products db' !! newId k) as [p'|] eqn:Hp'; [|done].
    destruct (Hstep _ _ Hp') as (p & Hp & _).
    rewrite Hfresh in Hp by lia. done.
  - intros id p p' Hp Hflag Hp'.
    destruct (Hstep _ _ Hp') as (q & Hq & Hkeep). eauto.
Qed.

Lemma flags_kept_same (db db' : DB) :
  flags_kept newId db0 db →
  nextId db ≤ nextId db' → products db' = products db →
  flags_kept newId db0 db'.
Proof.
  intros H Hnext Hsame. apply (flags_kept_step db); [done..|].
  intros id p'. rewrite Hsame. eauto.
Qed.

Lemma product_create_flags data :
  preserves (flags_kept newId db0) (product_create newId data).
Proof.
  intros db (Hle & Hfresh & Hflags). unfold product_create.
  destruct (products db !! newId (nextId db)) eqn:Hid; [done|].
  destruct (rows_with_barcode _ _); [|done].
  simpl. split; [simpl; lia|]. split.
  - intros k Hk. simpl in *. rewrite lookup_insert_ne.
    + apply Hfresh. lia.
    + intros Heq. apply (inj newId) in Heq. lia.
  - intros id p p' Hp Hflag. simpl.
    destruct (decide (id = newId (nextId db))) as [->|Hne].
    + rewrite Hfresh0 in Hp by done. done.
    + rewrite lookup_insert_ne by done. by eapply Hflags.
Qed.

Lemma product_update_flags id updateData :
  preserves (flags_kept newId db0)
            (product_update id (updatePayload_of updateData)).
Proof.
  intros db H. unfold product_update.
  destruct (products db !! id) as [p|] eqn:Hid; [|done].
  destruct (other_rows_with_barcode _ _ _); [|done].
  apply (flags_kept_step db); [done|done|]. simpl.
  intros k p'. destruct (decide (k = id)) as [->|Hne].
  - rewrite lookup_insert_eq. intros [= <-]. by exists p.
  - rewrite lookup_insert_ne by done. eauto.
Qed.

Lemma product_updateMany_isOrdered_flags ids :
  preserves (flags_kept newId db0) (product_updateMany_isOrdered ids true).
Proof.
  intros db H. apply (flags_kept_step db); [done|done|]. simpl.
  intros k p'. rewrite map_lookup_imap.
  destruct (products db !! k) as [p|]; [|done]. simpl.
  intros [= <-]. exists p. split; [done|]. by case_bool_decide.
Qed.

Lemma product_updateMany_status_flags ids s :
  preserves (flags_kept newId db0) (product_updateMany_status ids s).
Proof.
  intros db H. apply (flags_kept_step db); [done|done|]. simpl.
  intros k p'. rewrite map_lookup_imap.
  destruct (products db !! k) as [p|]; [|done]. simpl.
  intros [= <-]. exists p. split; [done|]. by case_bool_decide.
Qed.

Lemma product_delete_flags onDeleteProduct id :
  preserves (flags_kept newId db0) (product_delete onDeleteProduct id).
Proof.
  intros db H. unfold product_delete.
  destruct (products db !! id); [|done].
  assert (flags_kept newId db0
            (mkDB (delete id (products db)) (orders db)
                  (filter (λ it, productId it ≠ id) (orderItems db))
                  (nextId db))) as Hdel.
  { apply (flags_kept_step db); [done|done|]. simpl.
    intros k p' Hk. apply lookup_delete_Some in Hk as [_ Hk]. eauto. }
  destruct (items_referencing id db), onDeleteProduct; done.
Qed.

Lemma product_deleteMany_flags ids :
  preserves (flags_kept newId db0) (product_deleteMany_unreferenced ids).
Proof.
  intros db H. apply (flags_kept_step db); [done|done|]. simpl.
  intros k p' Hk. apply map_lookup_filter_Some in Hk as [Hk _]. eauto.
Qed.

Lemma order_create_flags missing note items :
  preserves (flags_kept newId db0) (order_create newId missing note items).
Proof.
  intros db H. unfold order_create.
  destruct (orders db !! _); [done|].
  destruct (products_exist items db); [|done].
  apply (flags_kept_same db); simpl; [done|lia|done].
Qed.

Lemma orderItem_deleteMany_flags oid :
  preserves (flags_kept newId db0) (orderItem_deleteMany oid).
Proof. intros db H. by apply (flags_kept_same db). Qed.

Lemma orderItem_createMany_flags oid items :
  preserves (flags_kept newId db0) (orderItem_createMany oid items).
Proof.
  intros db H. unfold orderItem_createMany.
  destruct (orders db !! oid); [|done].
  destruct (products_exist items db); [|done].
  by apply (flags_kept_same db).
Qed.

Lemma order_update_flags id note create :
  preserves (flags_kept newId db0) (order_update id note create).
Proof.
  intros db H. unfold order_update.
  destruct (orders db !! id); [|done].
  destruct (products_exist create db); [|done].
  by apply (flags_kept_same db).
Qed.

Lemma order_delete_flags onDeleteOrder id :
  preserves (flags_kept newId db0) (order_delete onDeleteOrder id).
Proof.
  intros db H. unfold order_delete.
  destruct (orders db !! id); [|done].
  assert (flags_kept newId db0
            (mkDB (products db) (delete id (orders db))
                  (filter (λ it, orderId it ≠ id) (orderItems db))
                  (nextId db))) as Hdel
    by by apply (flags_kept_same db).
  destruct (items_of id db), onDeleteOrder; done.
Qed.

Lemma serve_flags onDeleteProduct onDeleteOrder r db :
  flags_kept newId db0 db →
  flags_kept newId db0 (serve newId onDeleteProduct onDeleteOrder r db).
Proof.
  pose proof product_create_flags. pose proof product_update_flags.
  pose proof product_updateMany_isOrdered_flags.
  pose proof product_updateMany_status_flags.
  pose proof product_delete_flags. pose proof product_deleteMany_flags.
  pose proof order_create_flags. pose proof orderItem_deleteMany_flags.
  pose proof orderItem_createMany_flags. pose proof order_update_flags.
  pose proof order_delete_flags.
  intros H'. destruct r; cbn [serve];
    unfold post_products, put_products_id, put_products_id_parsed,
      delete_products_id, post_products_batch, post_orders, put_orders_id,
      delete_orders_id;
    rewrite ?handle_parsing_store, ?handle_store;
    (apply preserved; [|done]); keeps_invariant.
Qed.

Lemma serve_all_flags onDeleteProduct onDeleteOrder requests db :
  flags_kept newId db0 db →
  flags_kept newId db0
    (serve_all newId onDeleteProduct onDeleteOrder requests db).
Proof.
  revert db. induction requests as [|r rs IH]; intros db H; [done|].
  simpl. by apply IH, serve_flags.
Qed.

End OrderedFlag.

(** Nothing a client can send to the mutating routes clears the
    [isOrdered] flag of a product. Given a generator that never repeats
    an id, a product that is marked as ordered is, after any sequence of
    requests, either deleted or still marked: [POST /orders] only sets
    the flag, the update schema of [PUT /products/:id] has no field for
    it, the batch update writes the status only, and neither replacing
    the items of an order nor deleting the order touches the
    products. *)
Theorem isOrdered_never_cleared newId onDeleteProduct onDeleteOrder
    (db : DB) (requests : list Request) (id : string) (p p' : Product) :
  Inj (=) (=) newId →
  ids_fresh newId db →
  products db !! id = Some p → isOrdered p = true →
  products (serve_all newId onDeleteProduct onDeleteOrder requests db) !! id
  = Some p' →
  isOrdered p' = true.
Proof.
  intros Hinj Hfresh Hp Hflag Hp'.
  destruct (serve_all_flags newId db Hfresh onDeleteProduct onDeleteOrder
              requests db (flags_kept_refl newId db Hfresh))
    as (_ & _ & Hkept).
  by eapply Hkept.
Qed.

Lemma cuid_inj : Inj (=) (=) cuid.
Proof.
  intros i j Heq. unfold cuid in Heq. simpl in Heq.
  injection Heq as Heq. by apply (inj pretty).
Qed.

Lemma isOrdered_never_cleared_witness :
  let db := mkDB (<["c0" := set_isOrdered true coke]> ∅)
                 (<["c1" := mkOrder None]> ∅)
                 [mkOrderItem "c1" "c0" 2] 2 in
  let requests :=
    [ReqPutProducts "c0" (JObj [("name", JStr "Cola");
                                ("isOrdered", JBool false)]);
     ReqBatchProducts (JObj [("action", JStr "updateStatus");
                             ("ids", JArr [JStr "c0"]);
                             ("status", JStr "OUT_OF_STOCK")]);
     ReqDeleteOrders "c1"] in
  ∃ p', products (serve_all cuid Restrict Restrict requests db) !! "c0"
        = Some p'
        ∧ name p' = "Cola" ∧ status p' = OUT_OF_STOCK
        ∧ isOrdered p' = true.
Proof.
  intros db requests. eexists. split; [by vm_compute|].
  split; [reflexivity|]. split; [reflexivity|].
  eapply (isOrdered_never_cleared cuid Restrict Restrict db requests "c0"
            (set_isOrdered true coke)).
  - apply cuid_inj.
  - intros k Hk. simpl in Hk. simpl.
    rewrite lookup_insert_ne; [done|].
    intros Heq. apply (cuid_inj 0 k) in Heq. lia.
  - reflexivity.
  - reflexivity.
  - by vm_compute.
Defined.

(** ** Barcode uniqueness under the batch route and order deletion *)

Lemma product_updateMany_status_unique ids s :
  preserves barcode_unique (product_updateMany_status ids s).
Proof.
  intros db H i j x y. simpl. rewrite !map_lookup_imap.
  destruct (products db !! i) as [p|] eqn:Hi; [|done].
  destruct (products db !! j) as [q|] eqn:Hj; [|done].
  simpl. intros [= <-] [= <-] Hb. apply (H i j p q); [done..|].
  by repeat case_bool_decide.
Qed.

Lemma product_deleteMany_unique ids :
  preserves barcode_unique (product_deleteMany_unreferenced ids).
Proof.
  intros db H i j x y. simpl. intros Hx Hy.
  apply map_lookup_filter_Some in Hx as [Hx _], Hy as [Hy _].
  by apply H.
Qed.

Lemma order_delete_unique onDeleteOrder id :
  preserves barcode_unique (order_delete onDeleteOrder id).
Proof.
  intros db H. unfold order_delete.
  destruct (orders db !! id); [|done].
  destruct (items_of id db), onDeleteOrder; done.
Qed.

Lemma serve_unique newId onDeleteProduct onDeleteOrder r db :
  barcode_unique db →
  barcode_unique (serve newId onDeleteProduct onDeleteOrder r db).
Proof.
  pose proof product_updateMany_status_unique.
  pose proof product_deleteMany_unique.
  pose proof order_delete_unique.
  pose proof (id_list_keeps barcode_unique).
  intros H'. destruct r; cbn [serve];
    unfold post_products, put_products_id, put_products_id_parsed,
      delete_products_id, post_products_batch, post_orders, put_orders_id,
      delete_orders_id;
    rewrite ?handle_parsing_store, ?handle_store;
    (apply preserved; [|done]); keeps_invariant.
Qed.


